(** * Image aligner: layer geometry, resize, history and alignment solver

    A shallow embedding of the [ImageAligner] component (the screen with
    reference points and the alignment wizard) and the properties of its
    layer geometry, bounded undo history and alignment solve.

    Numbers.  The component computes with JavaScript numbers.  They are
    modelled as rationals [Q] with exact arithmetic: rounding, overflow,
    [NaN] and the infinities are outside the model.  Equalities between
    computed coordinates are therefore stated with [==] ([Qeq]); a value
    that is stored and read back unchanged is compared with [=].  Division
    is [Qdiv], which agrees with the mathematical quotient whenever the
    divisor is not zero.

    State.  The component keeps its data in React state cells and refs.
    One [State] record holds those cells; a handler is a function
    [State -> State] that performs the handler's writes.  Handlers run one
    at a time on committed state, so the [layers] a handler closes over,
    [layersRef.current] and the argument of a functional [setLayers]
    update are the same sequence, the [layers] field.  A functional
    update is taken as applied at the place of its [setLayers] call.

    Objects.  Layers and refs are records compared by value.  The source
    never writes into a layer or refs object once it is built (every
    change spreads into a new object), so the copies it makes, deep in
    [pushHistory] and shallow at the start of a gesture, have the value
    of what they copy.

    Surface.  Guide positions, opacity, colours and the hover crosshair
    do not reach the layer sequence or the history and are left out. *)

From Stdlib Require Import QArith Qabs Qminmax Qfield Lqa.
From Stdlib Require Import List String Ascii Bool Arith ZArith Lia.
From Stdlib Require Import Sorted Permutation.
From Stdlib Require Import DecimalString DecimalNat DecimalN.
Import ListNotations.

Local Open Scope Q_scope.

(** ** Numbers *)

(** [a < b] on numbers, as a boolean test. *)
Definition Qltb (a b : Q) : bool :=
  match a ?= b with
  | Lt => true
  | _ => false
  end.

(** [Math.max], [Math.min], [Math.abs]. *)
Definition Math_max (a b : Q) : Q := Qmax a b.
Definition Math_min (a b : Q) : Q := Qmin a b.
Definition Math_abs (a : Q) : Q := Qabs a.

(** ** Data model *)

Record LayerRefs := mkRefs {
  bodyTopY : Q;
  faceBottomY : Q;
  bodyBottomY : Q;
  eyeLeftX : Q;
  eyeLeftY : Q;
  eyeRightX : Q;
  eyeRightY : Q
}.

Record ImageLayer := mkLayer {
  id : string;
  src : string;
  x : Q;
  y : Q;
  width : Q;
  height : Q;
  aspectRatio : Q;
  visible : bool;
  refs : option LayerRefs
}.

(** The [{ x, y }] objects: canvas points and the drag offset. *)
Module Point.
Record t := mk { x : Q; y : Q }.
End Point.

(** The eight resize handles, [RESIZE_HANDLES]. *)
Inductive Handle := Hn | Hs | He | Hw | Hnw | Hne | Hsw | Hse.

Definition RESIZE_HANDLES : list Handle := [Hn; Hs; He; Hw; Hnw; Hne; Hsw; Hse].

Definition handle_name (h : Handle) : string :=
  match h with
  | Hn => "n" | Hs => "s" | He => "e" | Hw => "w"
  | Hnw => "nw" | Hne => "ne" | Hsw => "sw" | Hse => "se"
  end%string.

(** [s.includes(c)] for a one-character [c]. *)
Fixpoint str_includes (s : string) (c : ascii) : bool :=
  match s with
  | EmptyString => false
  | String a r => Ascii.eqb a c || str_includes r c
  end.

Definition includes (h : Handle) (c : ascii) : bool :=
  str_includes (handle_name h) c.

(** ** Coordinate mapper *)

(** Image-space (0..1) coordinates to canvas coordinates, with the
    letterboxing of [object-contain]. *)
Definition imageToCanvas (layer : ImageLayer) (u v : Q) : Point.t :=
  let R := aspectRatio layer in
  let divRatio := width layer / height layer in
  if Qltb R divRatio then
    let imgW := height layer * R in
    let left := (width layer - imgW) / 2 in
    Point.mk (x layer + left + u * imgW) (y layer + v * height layer)
  else
    let imgH := width layer / R in
    let top := (height layer - imgH) / 2 in
    Point.mk (x layer + u * width layer) (y layer + top + v * imgH).

Definition defaultRefs : LayerRefs :=
  {| bodyTopY := 0.2;
     faceBottomY := 0.5;
     bodyBottomY := 0.8;
     eyeLeftX := 0.35;
     eyeLeftY := 0.45;
     eyeRightX := 0.65;
     eyeRightY := 0.45 |}.

(** [layer.refs ?? defaultRefs()] *)
Definition refsOf (layer : ImageLayer) : LayerRefs :=
  match refs layer with
  | Some r => r
  | None => defaultRefs
  end.

(** ** Component state *)

(** The [resizeStart] ref: pointer position and layer geometry at the
    start of a resize gesture. *)
Module ResizeStart.
Record t := mk {
  mouseX : Q;
  mouseY : Q;
  width : Q;
  height : Q;
  x : Q;
  y : Q
}.
End ResizeStart.

(** A [DOMRect], as far as the handlers read it. *)
Module Rect.
Record t := mk { left : Q; top : Q; width : Q; height : Q }.
End Rect.

Inductive Guide := GH1 | GH2 | GH3 | GV1 | GV2.

Inductive Direction := up | down.

Record State := mkState {
  layers : list ImageLayer;
  selectedId : option string;
  alignModalOpen : bool;
  alignModalLayerIndex : nat;
  alignModalStep : nat;
  alignWarning : option string;
  guideLinesLocked : bool;
  draggingGuide : option Guide;
  canUndo : bool;
  isDragging : bool;
  isResizing : bool;
  resizeHandle : option Handle;
  dragOffset : Point.t;
  resizeStart : ResizeStart.t;
  historyRef : list (list ImageLayer);
  pendingUndoStateRef : option (list ImageLayer)
}.

(** The state right after mount: the initial values of the [useState] and
    [useRef] cells. *)
Definition initialState : State :=
  {| layers := [];
     selectedId := None;
     alignModalOpen := false;
     alignModalLayerIndex := 0;
     alignModalStep := 0;
     alignWarning := None;
     guideLinesLocked := false;
     draggingGuide := None;
     canUndo := false;
     isDragging := false;
     isResizing := false;
     resizeHandle := None;
     dragOffset := Point.mk 0 0;
     resizeStart := ResizeStart.mk 0 0 0 0 0 0;
     historyRef := [];
     pendingUndoStateRef := None |}.

(** Writes to single cells. *)
Definition setLayers (v : list ImageLayer) (s : State) : State :=
  mkState v (selectedId s) (alignModalOpen s) (alignModalLayerIndex s)
    (alignModalStep s) (alignWarning s) (guideLinesLocked s) (draggingGuide s)
    (canUndo s) (isDragging s) (isResizing s) (resizeHandle s) (dragOffset s)
    (resizeStart s) (historyRef s) (pendingUndoStateRef s).

Definition setSelectedId (v : option string) (s : State) : State :=
  mkState (layers s) v (alignModalOpen s) (alignModalLayerIndex s)
    (alignModalStep s) (alignWarning s) (guideLinesLocked s) (draggingGuide s)
    (canUndo s) (isDragging s) (isResizing s) (resizeHandle s) (dragOffset s)
    (resizeStart s) (historyRef s) (pendingUndoStateRef s).

Definition setAlignModalOpen (v : bool) (s : State) : State :=
  mkState (layers s) (selectedId s) v (alignModalLayerIndex s)
    (alignModalStep s) (alignWarning s) (guideLinesLocked s) (draggingGuide s)
    (canUndo s) (isDragging s) (isResizing s) (resizeHandle s) (dragOffset s)
    (resizeStart s) (historyRef s) (pendingUndoStateRef s).

Definition setAlignModalLayerIndex (v : nat) (s : State) : State :=
  mkState (layers s) (selectedId s) (alignModalOpen s) v
    (alignModalStep s) (alignWarning s) (guideLinesLocked s) (draggingGuide s)
    (canUndo s) (isDragging s) (isResizing s) (resizeHandle s) (dragOffset s)
    (resizeStart s) (historyRef s) (pendingUndoStateRef s).

Definition setAlignModalStep (v : nat) (s : State) : State :=
  mkState (layers s) (selectedId s) (alignModalOpen s) (alignModalLayerIndex s)
    v (alignWarning s) (guideLinesLocked s) (draggingGuide s)
    (canUndo s) (isDragging s) (isResizing s) (resizeHandle s) (dragOffset s)
    (resizeStart s) (historyRef s) (pendingUndoStateRef s).

Definition setAlignWarning (v : option string) (s : State) : State :=
  mkState (layers s) (selectedId s) (alignModalOpen s) (alignModalLayerIndex s)
    (alignModalStep s) v (guideLinesLocked s) (draggingGuide s)
    (canUndo s) (isDragging s) (isResizing s) (resizeHandle s) (dragOffset s)
    (resizeStart s) (historyRef s) (pendingUndoStateRef s).

Definition setGuideLinesLocked (v : bool) (s : State) : State :=
  mkState (layers s) (selectedId s) (alignModalOpen s) (alignModalLayerIndex s)
    (alignModalStep s) (alignWarning s) v (draggingGuide s)
    (canUndo s) (isDragging s) (isResizing s) (resizeHandle s) (dragOffset s)
    (resizeStart s) (historyRef s) (pendingUndoStateRef s).

Definition setDraggingGuide (v : option Guide) (s : State) : State :=
  mkState (layers s) (selectedId s) (alignModalOpen s) (alignModalLayerIndex s)
    (alignModalStep s) (alignWarning s) (guideLinesLocked s) v
    (canUndo s) (isDragging s) (isResizing s) (resizeHandle s) (dragOffset s)
    (resizeStart s) (historyRef s) (pendingUndoStateRef s).

Definition setCanUndo (v : bool) (s : State) : State :=
  mkState (layers s) (selectedId s) (alignModalOpen s) (alignModalLayerIndex s)
    (alignModalStep s) (alignWarning s) (guideLinesLocked s) (draggingGuide s)
    v (isDragging s) (isResizing s) (resizeHandle s) (dragOffset s)
    (resizeStart s) (historyRef s) (pendingUndoStateRef s).

Definition setIsDragging (v : bool) (s : State) : State :=
  mkState (layers s) (selectedId s) (alignModalOpen s) (alignModalLayerIndex s)
    (alignModalStep s) (alignWarning s) (guideLinesLocked s) (draggingGuide s)
    (canUndo s) v (isResizing s) (resizeHandle s) (dragOffset s)
    (resizeStart s) (historyRef s) (pendingUndoStateRef s).

Definition setIsResizing (v : bool) (s : State) : State :=
  mkState (layers s) (selectedId s) (alignModalOpen s) (alignModalLayerIndex s)
    (alignModalStep s) (alignWarning s) (guideLinesLocked s) (draggingGuide s)
    (canUndo s) (isDragging s) v (resizeHandle s) (dragOffset s)
    (resizeStart s) (historyRef s) (pendingUndoStateRef s).

Definition setResizeHandle (v : option Handle) (s : State) : State :=
  mkState (layers s) (selectedId s) (alignModalOpen s) (alignModalLayerIndex s)
    (alignModalStep s) (alignWarning s) (guideLinesLocked s) (draggingGuide s)
    (canUndo s) (isDragging s) (isResizing s) v (dragOffset s)
    (resizeStart s) (historyRef s) (pendingUndoStateRef s).

Definition setDragOffset (v : Point.t) (s : State) : State :=
  mkState (layers s) (selectedId s) (alignModalOpen s) (alignModalLayerIndex s)
    (alignModalStep s) (alignWarning s) (guideLinesLocked s) (draggingGuide s)
    (canUndo s) (isDragging s) (isResizing s) (resizeHandle s) v
    (resizeStart s) (historyRef s) (pendingUndoStateRef s).

Definition setResizeStart (v : ResizeStart.t) (s : State) : State :=
  mkState (layers s) (selectedId s) (alignModalOpen s) (alignModalLayerIndex s)
    (alignModalStep s) (alignWarning s) (guideLinesLocked s) (draggingGuide s)
    (canUndo s) (isDragging s) (isResizing s) (resizeHandle s) (dragOffset s)
    v (historyRef s) (pendingUndoStateRef s).

Definition setHistoryRef (v : list (list ImageLayer)) (s : State) : State :=
  mkState (layers s) (selectedId s) (alignModalOpen s) (alignModalLayerIndex s)
    (alignModalStep s) (alignWarning s) (guideLinesLocked s) (draggingGuide s)
    (canUndo s) (isDragging s) (isResizing s) (resizeHandle s) (dragOffset s)
    (resizeStart s) v (pendingUndoStateRef s).

Definition setPendingUndoStateRef (v : option (list ImageLayer)) (s : State) : State :=
  mkState (layers s) (selectedId s) (alignModalOpen s) (alignModalLayerIndex s)
    (alignModalStep s) (alignWarning s) (guideLinesLocked s) (draggingGuide s)
    (canUndo s) (isDragging s) (isResizing s) (resizeHandle s) (dragOffset s)
    (resizeStart s) (historyRef s) v.

(** ** Small helpers for JavaScript values *)

(** Truthiness of a [string | null] value: [null] and the empty string
    are falsy. *)
Definition truthy (v : option string) : bool :=
  match v with
  | None => false
  | Some EmptyString => false
  | Some _ => true
  end.

(** [l.id === v] for [v : string | null]. *)
Definition idIs (v : option string) (l : ImageLayer) : bool :=
  match v with
  | Some i => String.eqb (id l) i
  | None => false
  end.

(** [{ ...l }] *)
Definition copyLayer (l : ImageLayer) : ImageLayer :=
  {| id := id l; src := src l; x := x l; y := y l; width := width l;
     height := height l; aspectRatio := aspectRatio l; visible := visible l;
     refs := refs l |}.

(** [{ ...r }] *)
Definition copyRefs (r : LayerRefs) : LayerRefs :=
  {| bodyTopY := bodyTopY r; faceBottomY := faceBottomY r;
     bodyBottomY := bodyBottomY r; eyeLeftX := eyeLeftX r;
     eyeLeftY := eyeLeftY r; eyeRightX := eyeRightX r;
     eyeRightY := eyeRightY r |}.

(** [{ ...l, x, y, width, height }] *)
Definition withGeometry (l : ImageLayer) (nx ny nw nh : Q) : ImageLayer :=
  {| id := id l; src := src l; x := nx; y := ny; width := nw; height := nh;
     aspectRatio := aspectRatio l; visible := visible l; refs := refs l |}.

(** [{ ...l, x, y }] *)
Definition withPosition (l : ImageLayer) (nx ny : Q) : ImageLayer :=
  {| id := id l; src := src l; x := nx; y := ny; width := width l;
     height := height l; aspectRatio := aspectRatio l; visible := visible l;
     refs := refs l |}.

(** [{ ...l, visible }] *)
Definition withVisible (l : ImageLayer) (v : bool) : ImageLayer :=
  {| id := id l; src := src l; x := x l; y := y l; width := width l;
     height := height l; aspectRatio := aspectRatio l; visible := v;
     refs := refs l |}.

(** [{ ...l, refs }] *)
Definition withRefs (l : ImageLayer) (r : LayerRefs) : ImageLayer :=
  {| id := id l; src := src l; x := x l; y := y l; width := width l;
     height := height l; aspectRatio := aspectRatio l; visible := visible l;
     refs := Some r |}.

(** [arr.map((el, idx) => f(el, idx))], counting from [i]. *)
Fixpoint mapi_from {A B : Type} (i : nat) (f : A -> nat -> B) (l : list A) : list B :=
  match l with
  | [] => []
  | a :: r => f a i :: mapi_from (S i) f r
  end.

Definition mapi {A B : Type} (f : A -> nat -> B) (l : list A) : list B :=
  mapi_from 0 f l.

(** [arr[i] = v] for an index inside the array. *)
Fixpoint list_set {A : Type} (i : nat) (v : A) (l : list A) : list A :=
  match l, i with
  | [], _ => []
  | _ :: r, O => v :: r
  | a :: r, S j => a :: list_set j v r
  end.

(** [arr.findIndex(p)], [None] for [-1]. *)
Fixpoint findIndex {A : Type} (p : A -> bool) (l : list A) : option nat :=
  match l with
  | [] => None
  | a :: r => if p a then Some 0%nat else option_map S (findIndex p r)
  end.

(** [Math.max(0, Math.min(1, v))] *)
Definition clamp01 (v : Q) : Q := Math_max 0 (Math_min 1 v).

(** Decimal rendering of a number in a template string. *)
Definition string_of_nat (n : nat) : string :=
  NilEmpty.string_of_uint (Nat.to_uint n).

Definition string_of_N (n : N) : string :=
  NilEmpty.string_of_uint (N.to_uint n).

(** ** History manager *)

Definition MAX_HISTORY : nat := 50.

(** The per-layer copy made by [pushHistory]:
    [{ ...l, visible: l.visible !== false, refs: l.refs ? { ...l.refs } : undefined }]. *)
Definition snapshotLayer (l : ImageLayer) : ImageLayer :=
  {| id := id l; src := src l; x := x l; y := y l; width := width l;
     height := height l; aspectRatio := aspectRatio l;
     visible := negb (Bool.eqb (visible l) false);
     refs := match refs l with
             | Some r => Some (copyRefs r)
             | None => None
             end |}.

(** [historyRef.current.push(state)] followed by the [shift()] when the
    length exceeds [MAX_HISTORY].  The array is kept oldest first. *)
Definition pushBounded (h : list (list ImageLayer)) (state : list ImageLayer)
  : list (list ImageLayer) :=
  let h' := h ++ [state] in
  if (MAX_HISTORY <? List.length h')%nat then tl h' else h'.

Definition pushHistory (s : State) : State :=
  let state := map snapshotLayer (layers s) in
  setCanUndo true (setHistoryRef (pushBounded (historyRef s) state) s).

Definition undo (s : State) : State :=
  match historyRef s with
  | [] => s
  | _ :: _ =>
      let prev := last (historyRef s) [] in
      let h := removelast (historyRef s) in
      setCanUndo (0 <? List.length h)%nat (setLayers prev (setHistoryRef h s))
  end.

(** ** Layer store *)

Module File.
Record t := mk { name : string; type : string }.
End File.

Definition ACCEPTED_TYPES : list string :=
  ["image/png"; "image/jpeg"; "image/jpg"; "image/webp"; "image/gif"]%string.

(** The layer [addImages] creates for the [i]-th accepted file.  [now] is
    the value of [Date.now()] and [createObjectURL] the answer of
    [URL.createObjectURL]. *)
Definition newLayer (createObjectURL : File.t -> string) (now : N)
  (file : File.t) (i : nat) : ImageLayer :=
  {| id := string_of_N now ++ "-" ++ string_of_nat i ++ "-" ++ File.name file;
     src := createObjectURL file;
     x := 100 + inject_Z (Z.of_nat i) * 40;
     y := 100 + inject_Z (Z.of_nat i) * 40;
     width := 300;
     height := 200;
     aspectRatio := 1;
     visible := true;
     refs := None |}.

Definition addImages (createObjectURL : File.t -> string) (now : N)
  (files : list File.t) (s : State) : State :=
  let fileArray :=
    filter (fun f => existsb (String.eqb (File.type f)) ACCEPTED_TYPES) files in
  match fileArray with
  | [] => s
  | _ :: _ =>
      let s1 := pushHistory s in
      let newLayers := mapi (newLayer createObjectURL now) fileArray in
      setLayers (layers s1 ++ newLayers) s1
  end.

(** The [img.onload] callback installed by [addImages] for the layer
    [layerId]: the decoded size fixes the aspect ratio and the width, and
    the layer is centred in the canvas when its rectangle is known. *)
Definition imgOnload (layerId : string) (imgWidth imgHeight : Q)
  (rect : option Rect.t) (s : State) : State :=
  let aspectRatio' := imgWidth / imgHeight in
  setLayers
    (map (fun ll =>
            if negb (String.eqb (id ll) layerId) then ll
            else
              let height' := height ll in
              let width' := height' * aspectRatio' in
              let x' := match rect with
                        | Some r => (Rect.width r - width') / 2
                        | None => x ll
                        end in
              let y' := match rect with
                        | Some r => (Rect.height r - height') / 2
                        | None => y ll
                        end in
              {| id := id ll; src := src ll; x := x'; y := y';
                 width := width'; height := height';
                 aspectRatio := aspectRatio'; visible := visible ll;
                 refs := refs ll |})
       (layers s))
    s.

(** [[next[i], next[j]] = [next[j], next[i]]].  The panel only offers
    positions of rendered layers; outside them JavaScript would store
    [undefined], which a list of layers cannot hold, and the list is
    returned as it is. *)
Definition swapAt (i j : nat) (l : list ImageLayer) : list ImageLayer :=
  match nth_error l i, nth_error l j with
  | Some a, Some b => list_set j a (list_set i b l)
  | _, _ => l
  end.

Definition handleMoveLayer (index : nat) (direction : Direction) (s : State) : State :=
  let newIndex : Z :=
    match direction with
    | up => Z.of_nat index + 1
    | down => Z.of_nat index - 1
    end%Z in
  if ((newIndex <? 0) || (Z.of_nat (List.length (layers s)) <=? newIndex))%Z then s
  else
    let s1 := pushHistory s in
    setLayers (swapAt index (Z.to_nat newIndex) (layers s1)) s1.

(** [next.splice(fromIndex, 1)] then [next.splice(toIndex, 0, removed)]. *)
Definition handleLayerReorder (fromIndex toIndex : nat) (s : State) : State :=
  if (fromIndex =? toIndex)%nat then s
  else
    let s1 := pushHistory s in
    match nth_error (layers s1) fromIndex with
    | Some removed =>
        let next := firstn fromIndex (layers s1) ++ skipn (S fromIndex) (layers s1) in
        setLayers (firstn toIndex next ++ removed :: skipn toIndex next) s1
    | None => s1
    end.

(** [layerId] is [e.dataTransfer.getData("layer-id")]. *)
Definition handleLayerDrop (layerId : string) (targetIndex : nat) (s : State) : State :=
  if negb (truthy (Some layerId))
     || match nth_error (layers s) targetIndex with
        | Some l => String.eqb layerId (id l)
        | None => false
        end
  then s
  else
    match findIndex (fun l => String.eqb (id l) layerId) (layers s) with
    | None => s
    | Some fromIndex => handleLayerReorder fromIndex targetIndex s
    end.

Definition handleToggleLayerVisibility (layerId : string) (s : State) : State :=
  let s1 := pushHistory s in
  setLayers
    (map (fun l =>
            if String.eqb (id l) layerId
            then withVisible l (Bool.eqb (visible l) false)
            else l)
       (layers s1))
    s1.

Definition handleRemoveLayer (s : State) : State :=
  if negb (truthy (selectedId s)) then s
  else
    let s1 := pushHistory s in
    setSelectedId None
      (setLayers (filter (fun l => negb (idIs (selectedId s) l)) (layers s1)) s1).

(** ** Interaction state machine *)

Definition handleGuideMouseDown (guide : Guide) (s : State) : State :=
  if guideLinesLocked s then s
  else setDraggingGuide (Some guide) s.

(** [onHandleOrGuide] says whether the event target lies inside a resize
    handle or a guide line (the two [closest] tests). *)
Definition handleLayerMouseDown (onHandleOrGuide : bool) (clientX clientY : Q)
  (layerId : string) (s : State) : State :=
  if onHandleOrGuide then s
  else if alignModalOpen s then s
  else
    let s1 := setSelectedId (Some layerId) s in
    match find (fun l => String.eqb (id l) layerId) (layers s) with
    | None => s1
    | Some layer =>
        setIsDragging true
          (setDragOffset (Point.mk (clientX - x layer) (clientY - y layer))
             (setPendingUndoStateRef (Some (map copyLayer (layers s))) s1))
    end.

Definition handleResizeMouseDown (clientX clientY : Q) (layerId : string)
  (handle : Handle) (s : State) : State :=
  let s1 := setSelectedId (Some layerId) s in
  match find (fun l => String.eqb (id l) layerId) (layers s) with
  | None => s1
  | Some layer =>
      setResizeStart
        (ResizeStart.mk clientX clientY (width layer) (height layer)
           (x layer) (y layer))
        (setResizeHandle (Some handle)
           (setIsResizing true
              (setPendingUndoStateRef (Some (map copyLayer (layers s))) s1)))
  end.

(** The body of the [prev.map] callback of a resize, for the selected
    layer [l]: the four locals [width], [height], [x], [y] start from the
    gesture-start snapshot and are reassigned in program order. *)
Definition resizeLayer (start : ResizeStart.t) (resizeHandle : Handle)
  (dx dy : Q) (l : ImageLayer) : ImageLayer :=
  let minSize := 50 in
  let inc := includes resizeHandle in
  let width1 :=
    if inc "e"%char then Math_max minSize (ResizeStart.width start + dx)
    else ResizeStart.width start in
  let width2 :=
    if inc "w"%char then Math_max minSize (ResizeStart.width start - dx)
    else width1 in
  let x2 :=
    if inc "w"%char
    then ResizeStart.x start + ResizeStart.width start - width2
    else ResizeStart.x start in
  let height1 :=
    if inc "s"%char then Math_max minSize (ResizeStart.height start + dy)
    else ResizeStart.height start in
  let height2 :=
    if inc "n"%char then Math_max minSize (ResizeStart.height start - dy)
    else height1 in
  let y2 :=
    if inc "n"%char
    then ResizeStart.y start + ResizeStart.height start - height2
    else ResizeStart.y start in
  if (String.length (handle_name resizeHandle) =? 2)%nat then
    let ratio := aspectRatio l in
    if inc "e"%char || inc "w"%char then
      let height3 := width2 / ratio in
      let y3 :=
        if inc "n"%char
        then ResizeStart.y start + ResizeStart.height start - height3
        else y2 in
      withGeometry l x2 y3 width2 height3
    else
      let width3 := height2 * ratio in
      let x3 :=
        if inc "w"%char
        then ResizeStart.x start + ResizeStart.width start - width3
        else x2 in
      withGeometry l x3 y2 width3 height2
  else withGeometry l x2 y2 width2 height2.

(** Guide positions are not part of the layer sequence or of the history
    and are not kept in [State]: while a guide is dragged a pointer move
    leaves every modelled cell as it is. *)
Definition handleMouseMove (clientX clientY : Q) (s : State) : State :=
  match draggingGuide s with
  | Some _ => s
  | None =>
      match isResizing s && truthy (selectedId s), resizeHandle s with
      | true, Some h =>
          let start := resizeStart s in
          let dx := clientX - ResizeStart.mouseX start in
          let dy := clientY - ResizeStart.mouseY start in
          setLayers
            (map (fun l =>
                    if negb (idIs (selectedId s) l) then l
                    else resizeLayer start h dx dy l)
               (layers s))
            s
      | _, _ =>
          if isDragging s && truthy (selectedId s) then
            setLayers
              (map (fun l =>
                      if idIs (selectedId s) l
                      then withPosition l
                             (clientX - Point.x (dragOffset s))
                             (clientY - Point.y (dragOffset s))
                      else l)
                 (layers s))
              s
          else s
      end
  end.

Definition handleMouseUp (s : State) : State :=
  let s1 :=
    match isDragging s || isResizing s, pendingUndoStateRef s with
    | true, Some pending =>
        setPendingUndoStateRef None
          (setCanUndo true
             (setHistoryRef (pushBounded (historyRef s) pending) s))
    | _, _ => s
    end in
  setDraggingGuide None
    (setResizeHandle None (setIsResizing false (setIsDragging false s1))).

Definition handleCanvasClick (s : State) : State := setSelectedId None s.

Definition handleLayerPanelSelect (layerId : string) (s : State) : State :=
  let s1 := setSelectedId (Some layerId) s in
  match find (fun l => String.eqb (id l) layerId) (layers s) with
  | Some _ => setDragOffset (Point.mk 0 0) s1
  | None => s1
  end.

Definition handleLayerClick (layerId : string) (s : State) : State :=
  if alignModalOpen s then s else setSelectedId (Some layerId) s.

(** ** Reference-point wizard *)

(** [keyof LayerRefs] *)
Inductive RefKey :=
  | KbodyTopY | KfaceBottomY | KbodyBottomY
  | KeyeLeftX | KeyeLeftY | KeyeRightX | KeyeRightY.

Definition RefKey_eqb (a b : RefKey) : bool :=
  match a, b with
  | KbodyTopY, KbodyTopY | KfaceBottomY, KfaceBottomY
  | KbodyBottomY, KbodyBottomY | KeyeLeftX, KeyeLeftX
  | KeyeLeftY, KeyeLeftY | KeyeRightX, KeyeRightX
  | KeyeRightY, KeyeRightY => true
  | _, _ => false
  end.

Definition stepKeys : list RefKey :=
  [KbodyTopY; KfaceBottomY; KbodyBottomY; KeyeLeftX; KeyeRightX].

(** [key === k], where [key] is [stepKeys[alignModalStep]] and is
    [undefined] past the end of the table. *)
Definition keyIs (key : option RefKey) (k : RefKey) : bool :=
  match key with
  | Some k' => RefKey_eqb k' k
  | None => false
  end.

(** The field assignments of one pick, in program order. *)
Definition recordPick (key : option RefKey) (clampedX clampedY : Q)
  (r : LayerRefs) : LayerRefs :=
  let r1 :=
    if keyIs key KbodyTopY
    then mkRefs clampedY (faceBottomY r) (bodyBottomY r) (eyeLeftX r)
           (eyeLeftY r) (eyeRightX r) (eyeRightY r)
    else r in
  let r2 :=
    if keyIs key KfaceBottomY
    then mkRefs (bodyTopY r1) clampedY (bodyBottomY r1) (eyeLeftX r1)
           (eyeLeftY r1) (eyeRightX r1) (eyeRightY r1)
    else r1 in
  let r3 :=
    if keyIs key KbodyBottomY
    then mkRefs (bodyTopY r2) (faceBottomY r2) clampedY (eyeLeftX r2)
           (eyeLeftY r2) (eyeRightX r2) (eyeRightY r2)
    else r2 in
  let r4 :=
    if keyIs key KeyeLeftX
    then mkRefs (bodyTopY r3) (faceBottomY r3) (bodyBottomY r3) clampedX
           clampedY (eyeRightX r3) (eyeRightY r3)
    else r3 in
  if keyIs key KeyeRightX
  then mkRefs (bodyTopY r4) (faceBottomY r4) (bodyBottomY r4) (eyeLeftX r4)
         (eyeLeftY r4) clampedX clampedY
  else r4.

(** A click on the wizard's canvas; [rect] is the bounding rectangle of
    the clicked element. *)
Definition handleAlignModalCanvasClick (clientX clientY : Q) (rect : Rect.t)
  (s : State) : State :=
  match alignModalOpen s, nth_error (layers s) (alignModalLayerIndex s) with
  | true, Some current =>
      let localX := (clientX - Rect.left rect) / Rect.width rect in
      let localY := (clientY - Rect.top rect) / Rect.height rect in
      let clampedX := clamp01 localX in
      let clampedY := clamp01 localY in
      let id0 := id current in
      let key := nth_error stepKeys (alignModalStep s) in
      let s1 :=
        setLayers
          (map (fun l =>
                  if negb (String.eqb (id l) id0) then l
                  else withRefs l
                         (recordPick key clampedX clampedY (copyRefs (refsOf l))))
             (layers s))
          s in
      if (alignModalStep s <? 4)%nat then
        setAlignModalStep (alignModalStep s + 1) s1
      else if (Z.of_nat (alignModalLayerIndex s)
               <? Z.of_nat (List.length (layers s)) - 1)%Z then
        setAlignModalStep 0
          (setAlignModalLayerIndex (alignModalLayerIndex s + 1) s1)
      else s1
  | _, _ => s
  end.

Definition handleAlignModalNext (s : State) : State :=
  if (alignModalStep s <? 4)%nat then
    setAlignModalStep (alignModalStep s + 1) s
  else if (Z.of_nat (alignModalLayerIndex s)
           <? Z.of_nat (List.length (layers s)) - 1)%Z then
    setAlignModalStep 0 (setAlignModalLayerIndex (alignModalLayerIndex s + 1) s)
  else s.

Definition handleAlignModalPrev (s : State) : State :=
  if (0 <? alignModalStep s)%nat then
    setAlignModalStep (alignModalStep s - 1) s
  else if (0 <? alignModalLayerIndex s)%nat then
    setAlignModalStep 4 (setAlignModalLayerIndex (alignModalLayerIndex s - 1) s)
  else s.

Definition handleAutoAlignClick (s : State) : State :=
  if (List.length (layers s) <? 1)%nat then s
  else
    setAlignModalStep 0
      (setAlignModalLayerIndex 0
         (setAlignModalOpen true (setAlignWarning None s))).

(** ** Alignment solver *)

(** What [runAutoAlign] computes from the reference layer before the map. *)
Record RefMetrics := mkRefMetrics {
  refRefs : LayerRefs;
  refEyeSpanX : Q;
  refBodyFaceSpanY : Q;
  refBodySpanY : Q;
  refEyeCenterX : Q;
  refBodyFaceMidY : Q;
  refBodyBottomY : Q
}.

Definition refMetrics (refLayer : ImageLayer) : RefMetrics :=
  let refRefs := refsOf refLayer in
  let refEyeLeft := imageToCanvas refLayer (eyeLeftX refRefs) (eyeLeftY refRefs) in
  let refEyeRight := imageToCanvas refLayer (eyeRightX refRefs) (eyeRightY refRefs) in
  let refBodyTop := imageToCanvas refLayer 0.5 (bodyTopY refRefs) in
  let refFaceBottom := imageToCanvas refLayer 0.5 (faceBottomY refRefs) in
  let refBodyBottom := imageToCanvas refLayer 0.5 (bodyBottomY refRefs) in
  {| refRefs := refRefs;
     refEyeSpanX := Point.x refEyeRight - Point.x refEyeLeft;
     refBodyFaceSpanY := Point.y refFaceBottom - Point.y refBodyTop;
     refBodySpanY := Point.y refBodyBottom - Point.y refBodyTop;
     refEyeCenterX := (Point.x refEyeLeft + Point.x refEyeRight) / 2;
     refBodyFaceMidY := (Point.y refBodyTop + Point.y refFaceBottom) / 2;
     refBodyBottomY := Point.y refBodyBottom |}.

(** The marks of a layer are degenerate when the eye span or the face
    span is below 0.01: the two early returns of the map callback. *)
Definition degenerate (layer : ImageLayer) : bool :=
  let refs := refsOf layer in
  Qltb (Math_abs (eyeRightX refs - eyeLeftX refs)) 0.01
  || Qltb (Math_abs (faceBottomY refs - bodyTopY refs)) 0.01.

(** The callback of [prev.map((layer, idx) => ...)]: the layer it returns
    and the warnings it pushes. *)
Definition alignLayer (m : RefMetrics) (layer : ImageLayer) (idx : nat)
  : ImageLayer * list string :=
  if (idx =? 0)%nat then (layer, [])
  else
    let refs := refsOf layer in
    let dxEye := eyeRightX refs - eyeLeftX refs in
    let dyFaceBody := faceBottomY refs - bodyTopY refs in
    let dyBody := bodyBottomY refs - bodyTopY refs in
    if Qltb (Math_abs dxEye) 0.01 then (layer, [])
    else if Qltb (Math_abs dyFaceBody) 0.01 then (layer, [])
    else
      let eyeCenterFrac := (eyeLeftX refs + eyeRightX refs) / 2 in
      let bodyFaceMidFrac := (bodyTopY refs + faceBottomY refs) / 2 in
      let newWidth := refEyeSpanX m / dxEye in
      let newHeight := refBodyFaceSpanY m / dyFaceBody in
      let divRatio := newWidth / newHeight in
      let R := aspectRatio layer in
      let '(newX, newY) :=
        if Qltb R divRatio then
          let imgW := newHeight * R in
          let left := (newWidth - imgW) / 2 in
          (refEyeCenterX m - left - eyeCenterFrac * imgW,
           refBodyFaceMidY m - bodyFaceMidFrac * newHeight)
        else
          let imgH := newWidth / R in
          let top := (newHeight - imgH) / 2 in
          (refEyeCenterX m - eyeCenterFrac * newWidth,
           refBodyFaceMidY m - top - bodyFaceMidFrac * imgH) in
      let resultLayer := withGeometry layer newX newY newWidth newHeight in
      let warnings :=
        if negb (Qltb (Math_abs dyBody) 0.01) then
          let ourBodyBottom := Point.y (imageToCanvas resultLayer 0.5 (bodyBottomY refs)) in
          let bodyBottomGap := Math_abs (ourBodyBottom - refBodyBottomY m) in
          let refFaceToBody :=
            (faceBottomY (refRefs m) - bodyTopY (refRefs m))
            / (bodyBottomY (refRefs m) - bodyTopY (refRefs m)) in
          let layerFaceToBody := dyFaceBody / dyBody in
          let positionMismatch :=
            Qltb (Math_min (refBodySpanY m) 50 * 0.2) bodyBottomGap in
          let proportionMismatch :=
            Qltb 0.15 (Math_abs (refFaceToBody - layerFaceToBody)) in
          if positionMismatch || proportionMismatch
          then [("Layer " ++ string_of_nat (idx + 1)
                 ++ ": body bottom doesn't match reference")%string]
          else []
        else [] in
      (resultLayer, warnings).

(** The functional update is taken as applied where [setLayers] is
    called, so the warnings it pushes are seen by the test that follows. *)
Definition runAutoAlign (s : State) : State :=
  if (List.length (layers s) <? 2)%nat then s
  else
    match nth_error (layers s) 0 with
    | None => s
    | Some refLayer =>
        let s1 := setAlignWarning None s in
        let m := refMetrics refLayer in
        let s2 := pushHistory s1 in
        let results := mapi (alignLayer m) (layers s2) in
        let warnings := List.concat (map snd results) in
        let s3 := setLayers (map fst results) s2 in
        let s4 :=
          match warnings with
          | [] => s3
          | _ :: _ => setAlignWarning (Some (String.concat "; " warnings)) s3
          end in
        setAlignModalOpen false s4
    end.

(** The fields of a layer besides its geometry: [id], [src],
    [aspectRatio], [visible], [refs]. *)
Definition nonGeometry (l : ImageLayer)
  : string * string * Q * bool * option LayerRefs :=
  (id l, src l, aspectRatio l, visible l, refs l).

(** The fields of a layer besides its refs: [id], [src], the geometry,
    [aspectRatio], [visible]. *)
Definition exceptRefs (l : ImageLayer)
  : string * string * Q * Q * Q * Q * Q * bool :=
  (id l, src l, x l, y l, width l, height l, aspectRatio l, visible l).

(** ** Events *)

(** One constructor per handler the component wires to its surface. *)
Inductive Event :=
  | EAddImages (createObjectURL : File.t -> string) (now : N) (files : list File.t)
  | EImgOnload (layerId : string) (imgWidth imgHeight : Q) (rect : option Rect.t)
  | EMoveLayer (index : nat) (direction : Direction)
  | ELayerDrop (layerId : string) (targetIndex : nat)
  | EToggleLayerVisibility (layerId : string)
  | ERemoveLayer
  | ESetGuideLinesLocked (checked : bool)
  | EGuideMouseDown (guide : Guide)
  | ELayerMouseDown (onHandleOrGuide : bool) (clientX clientY : Q) (layerId : string)
  | EResizeMouseDown (clientX clientY : Q) (layerId : string) (handle : Handle)
  | EMouseMove (clientX clientY : Q)
  | EMouseUp
  | ECanvasClick
  | ELayerPanelSelect (layerId : string)
  | ELayerClick (layerId : string)
  | EAlignModalCanvasClick (clientX clientY : Q) (rect : Rect.t)
  | EAlignModalNext
  | EAlignModalPrev
  | EAutoAlignClick
  | ECloseAlignModal
  | ERunAutoAlign
  | EUndo.

Definition step (e : Event) (s : State) : State :=
  match e with
  | EAddImages createObjectURL now files => addImages createObjectURL now files s
  | EImgOnload layerId w h rect => imgOnload layerId w h rect s
  | EMoveLayer index direction => handleMoveLayer index direction s
  | ELayerDrop layerId targetIndex => handleLayerDrop layerId targetIndex s
  | EToggleLayerVisibility layerId => handleToggleLayerVisibility layerId s
  | ERemoveLayer => handleRemoveLayer s
  | ESetGuideLinesLocked checked => setGuideLinesLocked checked s
  | EGuideMouseDown guide => handleGuideMouseDown guide s
  | ELayerMouseDown onHandleOrGuide cx cy layerId =>
      handleLayerMouseDown onHandleOrGuide cx cy layerId s
  | EResizeMouseDown cx cy layerId handle =>
      handleResizeMouseDown cx cy layerId handle s
  | EMouseMove cx cy => handleMouseMove cx cy s
  | EMouseUp => handleMouseUp s
  | ECanvasClick => handleCanvasClick s
  | ELayerPanelSelect layerId => handleLayerPanelSelect layerId s
  | ELayerClick layerId => handleLayerClick layerId s
  | EAlignModalCanvasClick cx cy rect => handleAlignModalCanvasClick cx cy rect s
  | EAlignModalNext => handleAlignModalNext s
  | EAlignModalPrev => handleAlignModalPrev s
  | EAutoAlignClick => handleAutoAlignClick s
  | ECloseAlignModal => setAlignModalOpen false s
  | ERunAutoAlign => runAutoAlign s
  | EUndo => undo s
  end.

(** The events of a trace, handled in order. *)
Definition run (events : list Event) (s : State) : State :=
  fold_left (fun st e => step e st) events s.

(** How one handler may change the stack: not at all, by one bounded
    push, or by one pop. *)
Inductive historyStep (h : list (list ImageLayer)) : list (list ImageLayer) -> Prop :=
  | hs_keep : historyStep h h
  | hs_push (st : list ImageLayer) : historyStep h (pushBounded h st)
  | hs_pop : historyStep h (removelast h).

(** ** Gestures and checkpointed mutations *)

Definition pointerMoves (moves : list (Q * Q)) : list Event :=
  map (fun p => EMouseMove (fst p) (snd p)) moves.

(** A drag of a layer body: press, pointer moves, release. *)
Definition dragGesture (clientX clientY : Q) (layerId : string)
  (moves : list (Q * Q)) : list Event :=
  ELayerMouseDown false clientX clientY layerId :: pointerMoves moves ++ [EMouseUp].

(** A resize by a handle: press on the handle, pointer moves, release. *)
Definition resizeGesture (clientX clientY : Q) (layerId : string)
  (handle : Handle) (moves : list (Q * Q)) : list Event :=
  EResizeMouseDown clientX clientY layerId handle :: pointerMoves moves ++ [EMouseUp].

(** The operations that call [pushHistory], or commit the pending
    snapshot of a gesture. *)
Inductive Mutation :=
  | MAdd (createObjectURL : File.t -> string) (now : N) (files : list File.t)
  | MRemove
  | MMove (index : nat) (direction : Direction)
  | MReorder (layerId : string) (targetIndex : nat)
  | MToggleVisibility (layerId : string)
  | MAlign
  | MDrag (clientX clientY : Q) (layerId : string) (moves : list (Q * Q))
  | MResize (clientX clientY : Q) (layerId : string) (handle : Handle)
      (moves : list (Q * Q)).

Definition perform (m : Mutation) : list Event :=
  match m with
  | MAdd createObjectURL now files => [EAddImages createObjectURL now files]
  | MRemove => [ERemoveLayer]
  | MMove index direction => [EMoveLayer index direction]
  | MReorder layerId targetIndex => [ELayerDrop layerId targetIndex]
  | MToggleVisibility layerId => [EToggleLayerVisibility layerId]
  | MAlign => [ERunAutoAlign]
  | MDrag cx cy layerId moves => dragGesture cx cy layerId moves
  | MResize cx cy layerId handle moves => resizeGesture cx cy layerId handle moves
  end.

(** The guard under which the handler of a mutation gets past its early
    returns and reaches its checkpoint. *)
Definition checkpointed (m : Mutation) (s : State) : bool :=
  match m with
  | MAdd _ _ files =>
      existsb (fun f => existsb (String.eqb (File.type f)) ACCEPTED_TYPES) files
  | MRemove => truthy (selectedId s)
  | MMove index direction =>
      let newIndex :=
        match direction with
        | up => Z.of_nat index + 1
        | down => Z.of_nat index - 1
        end%Z in
      ((0 <=? newIndex) && (newIndex <? Z.of_nat (List.length (layers s))))%Z
  | MReorder layerId targetIndex =>
      truthy (Some layerId)
      && negb match nth_error (layers s) targetIndex with
              | Some l => String.eqb layerId (id l)
              | None => false
              end
      && match findIndex (fun l => String.eqb (id l) layerId) (layers s) with
         | Some fromIndex => negb (fromIndex =? targetIndex)%nat
         | None => false
         end
  | MToggleVisibility _ => true
  | MAlign => (2 <=? List.length (layers s))%nat
  | MDrag _ _ layerId _ =>
      negb (alignModalOpen s)
      && match find (fun l => String.eqb (id l) layerId) (layers s) with
         | Some _ => true
         | None => false
         end
  | MResize _ _ layerId _ _ =>
      match find (fun l => String.eqb (id l) layerId) (layers s) with
      | Some _ => true
      | None => false
      end
  end.

(** What one pointer move of a resize does to a layer. *)
Definition resizeSelected (start : ResizeStart.t) (layerId : string) (h : Handle)
  (dx dy : Q) (l : ImageLayer) : ImageLayer :=
  if String.eqb (id l) layerId then resizeLayer start h dx dy l else l.

(** A state in the middle of a resize of [layerId] by handle [h]. *)
Definition resizing (layerId : string) (h : Handle) (start : ResizeStart.t)
  (st : State) : Prop :=
  draggingGuide st = None /\ isResizing st = true
  /\ selectedId st = Some layerId /\ resizeHandle st = Some h
  /\ resizeStart st = start.

(** ** Snapping *)

(** [[...snaps].sort((a, b) => a - b)]: the ascending order, equal
    numbers kept in their order of arrival. *)
Fixpoint insertAscending (a : Q) (l : list Q) : list Q :=
  match l with
  | [] => [a]
  | b :: r => if Qltb b a then b :: insertAscending a r else a :: l
  end.

Fixpoint sortAscending (l : list Q) : list Q :=
  match l with
  | [] => []
  | a :: r => insertAscending a (sortAscending r)
  end.

(** One turn of the [for (const s of sorted)] loop on the pair of
    locals [(nearest, minDist)]. *)
Definition nearer (value : Q) (acc : Q * Q) (s : Q) : Q * Q :=
  let d := Math_abs (value - s) in
  if Qltb d (snd acc) then (s, d) else acc.

Definition snapToNearest (value : Q) (snaps : list Q) : Q :=
  match snaps with
  | [] => value
  | _ :: _ =>
      let sorted := sortAscending snaps in
      let nearest := hd value sorted in
      let minDist := Math_abs (value - nearest) in
      fst (fold_left (nearer value) sorted (nearest, minDist))
  end.

(** ** Guide lines *)

(** The five guide cells [guideH1] .. [guideV2]. *)
Record Guides := mkGuides {
  guideH1 : Q;
  guideH2 : Q;
  guideH3 : Q;
  guideV1 : Q;
  guideV2 : Q
}.

Definition initialGuides : Guides := mkGuides 0.2 0.5 0.8 0.33 0.67.

Definition isHorizontal (g : Guide) : bool :=
  match g with
  | GH1 | GH2 | GH3 => true
  | GV1 | GV2 => false
  end.

(** The guide branch of [handleMouseMove]: what a pointer move writes
    into the guide cells while [draggingGuide] is set.  [rect] is
    [canvasRef.current?.getBoundingClientRect()]. *)
Definition dragGuide (rect : option Rect.t) (snapToLayerCenters : bool)
  (clientX clientY : Q) (s : State) (g : Guides) : Guides :=
  match draggingGuide s, rect with
  | Some guide, Some rect =>
      let y0 := clamp01 ((clientY - Rect.top rect) / Rect.height rect) in
      let x0 := clamp01 ((clientX - Rect.left rect) / Rect.width rect) in
      let '(x1, y1) :=
        if snapToLayerCenters && (0 <? List.length (layers s))%nat then
          let ySnaps :=
            map (fun l => (y l + height l / 2) / Rect.height rect) (layers s) in
          let xSnaps :=
            map (fun l => (x l + width l / 2) / Rect.width rect) (layers s) in
          let threshold := 0.02 in
          if isHorizontal guide then
            let snapped := snapToNearest y0 ySnaps in
            (x0, if Qltb (Math_abs (y0 - snapped)) threshold then snapped else y0)
          else
            let snapped := snapToNearest x0 xSnaps in
            (if Qltb (Math_abs (x0 - snapped)) threshold then snapped else x0, y0)
        else (x0, y0) in
      match guide with
      | GH1 => mkGuides y1 (guideH2 g) (guideH3 g) (guideV1 g) (guideV2 g)
      | GH2 => mkGuides (guideH1 g) y1 (guideH3 g) (guideV1 g) (guideV2 g)
      | GH3 => mkGuides (guideH1 g) (guideH2 g) y1 (guideV1 g) (guideV2 g)
      | GV1 => mkGuides (guideH1 g) (guideH2 g) (guideH3 g) x1 (guideV2 g)
      | GV2 => mkGuides (guideH1 g) (guideH2 g) (guideH3 g) (guideV1 g) x1
      end
  | _, _ => g
  end.

(** The guide cell a drag writes. *)
Definition guideValue (guide : Guide) (g : Guides) : Q :=
  match guide with
  | GH1 => guideH1 g
  | GH2 => guideH2 g
  | GH3 => guideH3 g
  | GV1 => guideV1 g
  | GV2 => guideV2 g
  end.

(** ** Initial layout *)

(** [runLayout], the function the layout effect schedules when the
    number of layers has grown: every layer is given 80% of the canvas
    height and is centred.  [rect] is the canvas rectangle, absent when
    the canvas is not mounted. *)
Definition runLayout (rect : option Rect.t) (s : State) : State :=
  match rect with
  | None => s
  | Some rect =>
      if Qltb (Rect.width rect) 10 || Qltb (Rect.height rect) 10 then s
      else
        let targetHeight := Rect.height rect * 0.8 in
        setLayers
          (map (fun layer =>
                  let width' := targetHeight * aspectRatio layer in
                  let x' := (Rect.width rect - width') / 2 in
                  let y' := (Rect.height rect - targetHeight) / 2 in
                  withGeometry layer x' y' width' targetHeight)
             (layers s))
          s
  end.

(** The position a guide drag aims at: the pointer, relative to the
    canvas and clamped, on the axis of the guide. *)
Definition guidePointer (rect : Rect.t) (clientX clientY : Q) (guide : Guide) : Q :=
  if isHorizontal guide
  then clamp01 ((clientY - Rect.top rect) / Rect.height rect)
  else clamp01 ((clientX - Rect.left rect) / Rect.width rect).

(** The layer centres a guide may snap to, as fractions of the canvas. *)
Definition guideSnaps (rect : Rect.t) (ls : list ImageLayer) (guide : Guide) : list Q :=
  if isHorizontal guide
  then map (fun l => (y l + height l / 2) / Rect.height rect) ls
  else map (fun l => (x l + width l / 2) / Rect.width rect) ls.

(** What one pointer move of a drag does to a layer. *)
Definition dragSelected (offset : Point.t) (layerId : string) (mx my : Q)
  (l : ImageLayer) : ImageLayer :=
  if String.eqb (id l) layerId
  then withPosition l (mx - Point.x offset) (my - Point.y offset)
  else l.

(** A state in the middle of a drag of [layerId]. *)
Definition dragging (layerId : string) (offset : Point.t) (st : State) : Prop :=
  draggingGuide st = None /\ isResizing st = false /\ isDragging st = true
  /\ selectedId st = Some layerId /\ dragOffset st = offset.

(** ** Reachable states *)

(** What the handlers keep true of the cells they share. *)
Record consistent (s : State) : Prop := mkConsistent {
  undo_flag : canUndo s = (0 <? List.length (historyRef s))%nat;
  pending_in_gesture :
    pendingUndoStateRef s <> None -> isDragging s || isResizing s = true;
  handle_while_resizing : isResizing s = true <-> resizeHandle s <> None;
  step_in_range : (alignModalStep s <= 4)%nat
}.




(** A string of decimal digits. *)
Fixpoint allDigits (s : string) : bool :=
  match s with
  | EmptyString => true
  | String c r =>
      match c with
      | "0" | "1" | "2" | "3" | "4" | "5" | "6" | "7" | "8" | "9" => allDigits r
      | _ => false
      end%char
  end.

(** A click of the wizard, as the handler receives it. *)
Record Click := mkClick { clickX : Q; clickY : Q; clickRect : Rect.t }.

Definition pickX (c : Click) : Q :=
  clamp01 ((clickX c - Rect.left (clickRect c)) / Rect.width (clickRect c)).

Definition pickY (c : Click) : Q :=
  clamp01 ((clickY c - Rect.top (clickRect c)) / Rect.height (clickRect c)).

Definition wizardClick (c : Click) : Event :=
  EAlignModalCanvasClick (clickX c) (clickY c) (clickRect c).

(** Where the wizard stands: layer index and step. *)
Definition wizardAt (s : State) : nat * nat :=
  (alignModalLayerIndex s, alignModalStep s).

(** ** Example states *)

Module Examples.

Definition refLayer : ImageLayer :=
  mkLayer "1-0-ref.png" "blob:ref" 100 100 300 200 1 true None.

Definition marked : LayerRefs := mkRefs 0.2 0.6 0.9 0.3 0.4 0.7 0.4.

Definition second : ImageLayer :=
  mkLayer "1-1-b.png" "blob:b" 0 0 200 200 2 true (Some marked).

(** Eye marks 0.005 apart. *)
Definition closeEyes : ImageLayer :=
  mkLayer "1-2-c.png" "blob:c" 5 6 200 100 2 true
    (Some (mkRefs 0.2 0.6 0.9 0.5 0.4 0.505 0.4)).

Definition withLayers (ls : list ImageLayer) : State :=
  setLayers ls initialState.

Definition pair : State := withLayers [refLayer; second].

Definition triple : State := withLayers [refLayer; second; closeEyes].

Definition skipPair : State := withLayers [refLayer; closeEyes].

Definition objectURL (f : File.t) : string := "blob:" ++ File.name f.

Definition threeFiles : list File.t :=
  [File.mk "a.png" "image/png"; File.mk "b.jpg" "image/jpeg";
   File.mk "c.webp" "image/webp"].


(** The wizard opened on two layers. *)
Definition wizardOnPair : State := run [EAutoAlignClick] pair.

Definition single : State := withLayers [refLayer].

(** A full history stack. *)
Definition full : State :=
  setHistoryRef (repeat [refLayer] 50) pair.

(** A full history stack in the middle of a drag. *)
Definition fullDragging : State :=
  setIsDragging true (setPendingUndoStateRef (Some [refLayer]) full).

(** The pair dragged to the canvas, a guide held. *)
Definition guideHeld : State := setDraggingGuide (Some GH2) pair.

Definition canvas : Rect.t := Rect.mk 0 0 1000 800.


End Examples.

(** * Properties *)

(** ** Numbers and copies *)

Lemma Qltb_lt (a b : Q) : Qltb a b = true <-> a < b.
Proof.
  unfold Qltb. rewrite Qlt_alt.
  destruct (a ?= b); split; intro H; try reflexivity; discriminate H.
Qed.

Lemma Qltb_ge (a b : Q) : Qltb a b = false <-> b <= a.
Proof.
  split; intro H.
  - apply Qnot_lt_le. intro L. apply Qltb_lt in L. congruence.
  - destruct (Qltb a b) eqn:E; [| reflexivity].
    apply Qltb_lt in E. exfalso. exact (Qlt_not_le _ _ E H).
Qed.

Lemma Math_max_lower (a b : Q) : a <= Math_max a b.
Proof. apply Q.le_max_l. Qed.

Lemma clamp01_range (v : Q) : 0 <= clamp01 v /\ clamp01 v <= 1.
Proof.
  unfold clamp01, Math_max, Math_min. split.
  - apply Q.le_max_l.
  - apply Q.max_lub; [discriminate | apply Q.le_min_l].
Qed.


Lemma copyRefs_same (r : LayerRefs) : copyRefs r = r.
Proof. destruct r; reflexivity. Qed.

Lemma snapshotLayer_same (l : ImageLayer) : snapshotLayer l = l.
Proof.
  destruct l as [i sr lx ly w h a v [r|]]; unfold snapshotLayer; simpl;
    rewrite ?copyRefs_same; destruct v; reflexivity.
Qed.

Lemma map_same {A : Type} (f : A -> A) (l : list A) :
  (forall a, f a = a) -> map f l = l.
Proof.
  intro H. induction l as [|a r IH]; simpl; [reflexivity|].
  now rewrite H, IH.
Qed.

Lemma snapshot_same (ls : list ImageLayer) : map snapshotLayer ls = ls.
Proof. apply map_same, snapshotLayer_same. Qed.


(** ** Coordinate mapper *)



(** ** Alignment solver *)

Lemma nth_error_mapi_from {A B : Type} (f : A -> nat -> B) (l : list A) (k i : nat) :
  nth_error (mapi_from k f l) i = option_map (fun a => f a (k + i)%nat) (nth_error l i).
Proof.
  revert k i. induction l as [|a r IH]; intros k [|i]; simpl; try reflexivity.
  - now rewrite Nat.add_0_r.
  - rewrite IH. now rewrite Nat.add_succ_r.
Qed.

Lemma nth_error_mapi {A B : Type} (f : A -> nat -> B) (l : list A) (i : nat) :
  nth_error (mapi f l) i = option_map (fun a => f a i) (nth_error l i).
Proof. unfold mapi. now rewrite nth_error_mapi_from. Qed.

Lemma length_mapi_from {A B : Type} (f : A -> nat -> B) (l : list A) (k : nat) :
  List.length (mapi_from k f l) = List.length l.
Proof. revert k. induction l; intro k; simpl; [reflexivity | now rewrite IHl]. Qed.

(** The layer sequence [runAutoAlign] leaves behind. *)
Lemma layers_runAutoAlign (s : State) (refLayer : ImageLayer) :
  (2 <= List.length (layers s))%nat ->
  nth_error (layers s) 0 = Some refLayer ->
  layers (runAutoAlign s)
  = map fst (mapi (alignLayer (refMetrics refLayer)) (layers s)).
Proof.
  intros Hlen Href. unfold runAutoAlign.
  destruct (Nat.ltb_spec (List.length (layers s)) 2) as [Hlt|_]; [lia|].
  rewrite Href.
  destruct (List.concat _); reflexivity.
Qed.

Lemma nth_error_runAutoAlign (s : State) (refLayer layer : ImageLayer) (i : nat) :
  (2 <= List.length (layers s))%nat ->
  nth_error (layers s) 0 = Some refLayer ->
  nth_error (layers s) i = Some layer ->
  nth_error (layers (runAutoAlign s)) i
  = Some (fst (alignLayer (refMetrics refLayer) layer i)).
Proof.
  intros Hlen Href Hi.
  rewrite (layers_runAutoAlign s refLayer Hlen Href).
  rewrite nth_error_map, nth_error_mapi, Hi. reflexivity.
Qed.

(** The callback returns the reference layer and a layer with degenerate
    marks as they are and pushes no warning for them. *)
Lemma alignLayer_skip (m : RefMetrics) (layer : ImageLayer) (idx : nat) :
  idx = 0%nat \/ degenerate layer = true ->
  alignLayer m layer idx = (layer, []).
Proof.
  intros H. unfold alignLayer.
  destruct (Nat.eqb_spec idx 0) as [|Hne]; [reflexivity|].
  destruct H as [H|H]; [contradiction|].
  unfold degenerate in H. apply orb_true_iff in H as [H|H].
  - rewrite H. reflexivity.
  - destruct (Qltb (Math_abs (eyeRightX _ - eyeLeftX _)) 0.01); [reflexivity|].
    rewrite H. reflexivity.
Qed.

(** The geometry the callback solves for a layer that is not skipped. *)
Lemma alignLayer_solved (m : RefMetrics) (layer : ImageLayer) (idx : nat) :
  idx <> 0%nat -> degenerate layer = false ->
  let refs := refsOf layer in
  let newWidth := refEyeSpanX m / (eyeRightX refs - eyeLeftX refs) in
  let newHeight := refBodyFaceSpanY m / (faceBottomY refs - bodyTopY refs) in
  let R := aspectRatio layer in
  let eyeCenterFrac := (eyeLeftX refs + eyeRightX refs) / 2 in
  let bodyFaceMidFrac := (bodyTopY refs + faceBottomY refs) / 2 in
  fst (alignLayer m layer idx)
  = if Qltb R (newWidth / newHeight) then
      withGeometry layer
        (refEyeCenterX m - (newWidth - newHeight * R) / 2
         - eyeCenterFrac * (newHeight * R))
        (refBodyFaceMidY m - bodyFaceMidFrac * newHeight)
        newWidth newHeight
    else
      withGeometry layer
        (refEyeCenterX m - eyeCenterFrac * newWidth)
        (refBodyFaceMidY m - (newHeight - newWidth / R) / 2
         - bodyFaceMidFrac * (newWidth / R))
        newWidth newHeight.
Proof.
  intros Hne Hdeg. unfold alignLayer.
  destruct (Nat.eqb_spec idx 0) as [|_]; [contradiction|].
  unfold degenerate in Hdeg. apply orb_false_iff in Hdeg as [H1 H2].
  rewrite H1, H2. cbv zeta.
  destruct (Qltb (aspectRatio layer) _); reflexivity.
Qed.

(** C1.  After [runAutoAlign], a layer that is not the reference and is
    not skipped as degenerate has its own landmarks on the reference's:
    its eye centre [(eyeLeftX + eyeRightX) / 2] is mapped by
    [imageToCanvas] to the x of the midpoint of the reference's two eye
    positions (at every height [v]), and its body/face midpoint
    [(bodyTopY + faceBottomY) / 2] is mapped, at [u = 0.5], to the y of the
    midpoint of the reference's body-top and face-bottom positions.  The
    fractions are taken from the layer's own refs, defaulted when absent. *)
Theorem runAutoAlign_lands_on_reference
  (s : State) (refLayer layer : ImageLayer) (i : nat) :
  nth_error (layers s) 0 = Some refLayer ->
  nth_error (layers s) i = Some layer ->
  i <> 0%nat ->
  degenerate layer = false ->
  let refRefs := refsOf refLayer in
  let refEyeLeft := imageToCanvas refLayer (eyeLeftX refRefs) (eyeLeftY refRefs) in
  let refEyeRight := imageToCanvas refLayer (eyeRightX refRefs) (eyeRightY refRefs) in
  let refBodyTop := imageToCanvas refLayer 0.5 (bodyTopY refRefs) in
  let refFaceBottom := imageToCanvas refLayer 0.5 (faceBottomY refRefs) in
  let eyeCenterFrac := (eyeLeftX (refsOf layer) + eyeRightX (refsOf layer)) / 2 in
  let bodyFaceMidFrac := (bodyTopY (refsOf layer) + faceBottomY (refsOf layer)) / 2 in
  exists updated : ImageLayer,
    nth_error (layers (runAutoAlign s)) i = Some updated
    /\ refsOf updated = refsOf layer
    /\ (forall v : Q,
          Point.x (imageToCanvas updated eyeCenterFrac v)
          == (Point.x refEyeLeft + Point.x refEyeRight) / 2)
    /\ Point.y (imageToCanvas updated 0.5 bodyFaceMidFrac)
       == (Point.y refBodyTop + Point.y refFaceBottom) / 2.
Proof.
  intros Href Hi Hne Hdeg.
  assert (Hlen : (2 <= List.length (layers s))%nat).
  { assert (i < List.length (layers s))%nat
      by (apply nth_error_Some; congruence). lia. }
  cbv zeta.
  eexists. split; [apply (nth_error_runAutoAlign s refLayer layer i Hlen Href Hi)|].
  rewrite (alignLayer_solved _ _ _ Hne Hdeg). cbv zeta.
  change ((Point.x (imageToCanvas refLayer (eyeLeftX _) _)
           + Point.x (imageToCanvas refLayer (eyeRightX _) _)) / 2)
    with (refEyeCenterX (refMetrics refLayer)).
  change ((Point.y (imageToCanvas refLayer 0.5 (bodyTopY _))
           + Point.y (imageToCanvas refLayer 0.5 (faceBottomY _))) / 2)
    with (refBodyFaceMidY (refMetrics refLayer)).
  generalize (refMetrics refLayer). intro m.
  set (newWidth := refEyeSpanX m / _).
  set (newHeight := refBodyFaceSpanY m / _).
  destruct (Qltb (aspectRatio layer) (newWidth / newHeight)) eqn:Hbranch;
    unfold imageToCanvas; cbn [width height aspectRatio x y withGeometry];
    rewrite Hbranch; cbn [Point.x Point.y];
    (split; [reflexivity|]); split; intros; ring.
Qed.

Lemma runAutoAlign_lands_on_reference_witness :
  exists updated : ImageLayer,
    nth_error (layers (runAutoAlign Examples.pair)) 1 = Some updated
    /\ refsOf updated = refsOf Examples.second
    /\ (forall v : Q,
          Point.x (imageToCanvas updated
                     ((eyeLeftX (refsOf Examples.second)
                       + eyeRightX (refsOf Examples.second)) / 2) v)
          == (Point.x (imageToCanvas Examples.refLayer
                         (eyeLeftX (refsOf Examples.refLayer))
                         (eyeLeftY (refsOf Examples.refLayer)))
              + Point.x (imageToCanvas Examples.refLayer
                           (eyeRightX (refsOf Examples.refLayer))
                           (eyeRightY (refsOf Examples.refLayer)))) / 2)
    /\ Point.y (imageToCanvas updated 0.5
                  ((bodyTopY (refsOf Examples.second)
                    + faceBottomY (refsOf Examples.second)) / 2))
       == (Point.y (imageToCanvas Examples.refLayer 0.5
                      (bodyTopY (refsOf Examples.refLayer)))
           + Point.y (imageToCanvas Examples.refLayer 0.5
                        (faceBottomY (refsOf Examples.refLayer)))) / 2.
Proof.
  apply (runAutoAlign_lands_on_reference
           Examples.pair Examples.refLayer Examples.second 1);
    [reflexivity | reflexivity | discriminate | reflexivity].
Defined.

Lemma degenerate_true_iff (layer : ImageLayer) :
  degenerate layer = true
  <-> Qabs (eyeRightX (refsOf layer) - eyeLeftX (refsOf layer)) < 0.01
      \/ Qabs (faceBottomY (refsOf layer) - bodyTopY (refsOf layer)) < 0.01.
Proof.
  unfold degenerate, Math_abs. rewrite orb_true_iff, !Qltb_lt. reflexivity.
Qed.

Lemma runAutoAlign_short (s : State) :
  (List.length (layers s) < 2)%nat -> runAutoAlign s = s.
Proof.
  intro H. unfold runAutoAlign.
  destruct (Nat.ltb_spec (List.length (layers s)) 2); [reflexivity | lia].
Qed.

Lemma nth_error_0_of_length (s : State) :
  (2 <= List.length (layers s))%nat ->
  exists refLayer, nth_error (layers s) 0 = Some refLayer.
Proof.
  destruct (layers s) as [|a r]; simpl; intro H; [lia | now exists a].
Qed.

(** Whatever the length of the sequence, the reference layer and the
    layers with degenerate marks keep their place and their value. *)
Lemma runAutoAlign_keeps_skipped (s : State) (i : nat) (layer : ImageLayer) :
  nth_error (layers s) i = Some layer ->
  i = 0%nat \/ degenerate layer = true ->
  nth_error (layers (runAutoAlign s)) i = Some layer.
Proof.
  intros Hi Hskip.
  destruct (Nat.ltb_spec (List.length (layers s)) 2) as [Hlt|Hge].
  - now rewrite runAutoAlign_short.
  - destruct (nth_error_0_of_length s Hge) as [refLayer Href].
    rewrite (nth_error_runAutoAlign s refLayer layer i Hge Href Hi).
    now rewrite alignLayer_skip.
Qed.

(** The warnings of a run in which every callback pushes none. *)
Lemma concat_snd_nil {A : Type} (l : list (A * list string)) :
  (forall p, In p l -> snd p = []) -> List.concat (map snd l) = [].
Proof.
  induction l as [|p r IH]; simpl; intro H; [reflexivity|].
  rewrite (H p (or_introl eq_refl)). simpl. apply IH.
  intros q Hq. apply H. now right.
Qed.

Lemma In_mapi_from {A B : Type} (f : A -> nat -> B) (l : list A) (k : nat) (b : B) :
  In b (mapi_from k f l) ->
  exists i a, nth_error l i = Some a /\ b = f a (k + i)%nat.
Proof.
  revert k. induction l as [|a r IH]; simpl; intros k H; [contradiction|].
  destruct H as [H|H].
  - exists 0%nat, a. rewrite Nat.add_0_r. now split.
  - destruct (IH _ H) as (i & a' & Hi & Hb).
    exists (S i), a'. rewrite Nat.add_succ_r. now split.
Qed.

(** C7.  In [runAutoAlign], a layer whose marks have an eye span or a face
    span below 0.01 in absolute value is returned as it was, geometry
    included, and its callback pushes no warning; the same holds for the
    reference layer at index 0.  When every layer of the run is of that
    kind the warning cell is left empty.  The function is total: there is
    no error path. *)
Theorem runAutoAlign_skips_degenerate (s : State) (i : nat) (layer : ImageLayer) :
  nth_error (layers s) i = Some layer ->
  i = 0%nat
  \/ Qabs (eyeRightX (refsOf layer) - eyeLeftX (refsOf layer)) < 0.01
  \/ Qabs (faceBottomY (refsOf layer) - bodyTopY (refsOf layer)) < 0.01 ->
  nth_error (layers (runAutoAlign s)) i = Some layer
  /\ (forall refLayer : ImageLayer,
        nth_error (mapi (alignLayer (refMetrics refLayer)) (layers s)) i
        = Some (layer, []))
  /\ ((2 <= List.length (layers s))%nat ->
      (forall j l, nth_error (layers s) j = Some l ->
                   j = 0%nat \/ degenerate l = true) ->
      alignWarning (runAutoAlign s) = None).
Proof.
  intros Hi Hskip.
  assert (Hskip' : i = 0%nat \/ degenerate layer = true).
  { destruct Hskip as [H|H]; [now left | right; now apply degenerate_true_iff]. }
  split; [| split].
  - now apply runAutoAlign_keeps_skipped.
  - intro refLayer. rewrite nth_error_mapi, Hi. simpl.
    now rewrite alignLayer_skip.
  - intros Hlen Hall. unfold runAutoAlign.
    destruct (Nat.ltb_spec (List.length (layers s)) 2) as [Hlt|_]; [lia|].
    destruct (nth_error_0_of_length s Hlen) as [refLayer Href]. rewrite Href.
    rewrite concat_snd_nil; [reflexivity|].
    intros p Hp. apply In_mapi_from in Hp as (j & l & Hj & ->).
    simpl in Hj. rewrite alignLayer_skip; [reflexivity|].
    now apply (Hall j l).
Qed.

Lemma runAutoAlign_skips_degenerate_witness :
  nth_error (layers (runAutoAlign Examples.skipPair)) 1 = Some Examples.closeEyes
  /\ (forall refLayer : ImageLayer,
        nth_error (mapi (alignLayer (refMetrics refLayer)) (layers Examples.skipPair)) 1
        = Some (Examples.closeEyes, []))
  /\ alignWarning (runAutoAlign Examples.skipPair) = None.
Proof.
  destruct (runAutoAlign_skips_degenerate Examples.skipPair 1 Examples.closeEyes)
    as (Hlayer & Hpush & Hwarn).
  - reflexivity.
  - right. left. reflexivity.
  - split; [exact Hlayer | split; [exact Hpush |]].
    apply Hwarn.
    + simpl. lia.
    + intros [|[|j]] l Hj; simpl in Hj.
      * now left.
      * right. injection Hj as <-. reflexivity.
      * destruct j; discriminate Hj.
Defined.

(** C8.  With fewer than two layers [runAutoAlign] returns the state it
    was given: the layer sequence, the history stack and the warning are
    those of before, as is every other cell. *)
Theorem runAutoAlign_needs_two_layers (s : State) :
  (List.length (layers s) < 2)%nat ->
  runAutoAlign s = s
  /\ layers (runAutoAlign s) = layers s
  /\ historyRef (runAutoAlign s) = historyRef s
  /\ alignWarning (runAutoAlign s) = alignWarning s.
Proof.
  intro H. rewrite (runAutoAlign_short s H). repeat split.
Qed.

Lemma runAutoAlign_needs_two_layers_witness :
  runAutoAlign Examples.single = Examples.single
  /\ layers (runAutoAlign Examples.single) = layers Examples.single
  /\ historyRef (runAutoAlign Examples.single) = historyRef Examples.single
  /\ alignWarning (runAutoAlign Examples.single) = alignWarning Examples.single.
Proof.
  apply (runAutoAlign_needs_two_layers Examples.single). simpl. lia.
Defined.

(** The fields [runAutoAlign] never writes. *)
Lemma alignLayer_frame (m : RefMetrics) (layer : ImageLayer) (idx : nat) :
  nonGeometry (fst (alignLayer m layer idx)) = nonGeometry layer.
Proof.
  unfold alignLayer.
  destruct (idx =? 0)%nat; [reflexivity|].
  destruct (Qltb _ 0.01); [reflexivity|].
  destruct (Qltb _ 0.01); [reflexivity|].
  cbv zeta.
  destruct (Qltb (aspectRatio layer) _); reflexivity.
Qed.

Lemma map_frame_mapi_from (m : RefMetrics) (ls : list ImageLayer) (k : nat) :
  map nonGeometry (map fst (mapi_from k (alignLayer m) ls))
  = map nonGeometry ls.
Proof.
  revert k. induction ls as [|l r IH]; intro k; simpl; [reflexivity|].
  now rewrite alignLayer_frame, IH.
Qed.

(** C10.  [runAutoAlign] writes only [x], [y], [width] and [height], and
    only on layers that are neither the reference nor skipped: position
    by position the [id], [src], [aspectRatio], [visible] and [refs] of
    the layers are those of before, so the number and the order of the
    layers are kept, and the reference layer and the skipped layers are
    returned whole. *)
Theorem runAutoAlign_frame (s : State) :
  map nonGeometry (layers (runAutoAlign s)) = map nonGeometry (layers s)
  /\ List.length (layers (runAutoAlign s)) = List.length (layers s)
  /\ map id (layers (runAutoAlign s)) = map id (layers s)
  /\ (forall (i : nat) (layer : ImageLayer),
        nth_error (layers s) i = Some layer ->
        i = 0%nat \/ degenerate layer = true ->
        nth_error (layers (runAutoAlign s)) i = Some layer).
Proof.
  assert (Hframe : map nonGeometry (layers (runAutoAlign s))
                   = map nonGeometry (layers s)).
  { destruct (Nat.ltb_spec (List.length (layers s)) 2) as [Hlt|Hge].
    - now rewrite runAutoAlign_short.
    - destruct (nth_error_0_of_length s Hge) as [refLayer Href].
      rewrite (layers_runAutoAlign s refLayer Hge Href).
      apply map_frame_mapi_from. }
  split; [exact Hframe | split; [| split]].
  - rewrite <- (length_map nonGeometry), Hframe. apply length_map.
  - assert (Hid : forall ls, map id ls = map (fun f => fst (fst (fst (fst f))))
                                           (map nonGeometry ls)).
    { intro ls. rewrite map_map. reflexivity. }
    rewrite !Hid, Hframe. reflexivity.
  - intros i layer. apply runAutoAlign_keeps_skipped.
Qed.

Lemma runAutoAlign_frame_witness :
  map nonGeometry (layers (runAutoAlign Examples.triple))
  = map nonGeometry (layers Examples.triple)
  /\ nth_error (layers (runAutoAlign Examples.triple)) 2 = Some Examples.closeEyes.
Proof.
  destruct (runAutoAlign_frame Examples.triple) as (Hframe & _ & _ & Hskip).
  split; [exact Hframe |].
  apply (Hskip 2%nat Examples.closeEyes); [reflexivity | right; reflexivity].
Defined.

(** ** History manager *)

Lemma pushBounded_room (h : list (list ImageLayer)) (st : list ImageLayer) :
  (List.length h < MAX_HISTORY)%nat -> pushBounded h st = h ++ [st].
Proof.
  intro H. unfold pushBounded. rewrite length_app. simpl.
  destruct (Nat.ltb_spec MAX_HISTORY (List.length h + 1)); [lia | reflexivity].
Qed.

Lemma pushBounded_full (h : list (list ImageLayer)) (st : list ImageLayer) :
  List.length h = MAX_HISTORY -> pushBounded h st = tl h ++ [st].
Proof.
  intro H. unfold pushBounded. rewrite length_app. simpl.
  destruct (Nat.ltb_spec MAX_HISTORY (List.length h + 1)); [| lia].
  destruct h; [discriminate H | reflexivity].
Qed.

Lemma length_pushBounded (h : list (list ImageLayer)) (st : list ImageLayer) :
  (List.length h <= MAX_HISTORY)%nat ->
  (List.length (pushBounded h st) <= MAX_HISTORY)%nat.
Proof.
  intro H. destruct (Nat.eq_dec (List.length h) MAX_HISTORY) as [E|N].
  - rewrite (pushBounded_full h st E), length_app. simpl.
    destruct h; simpl in *; [discriminate E | lia].
  - rewrite pushBounded_room by lia. rewrite length_app. simpl. lia.
Qed.


Lemma pushBounded_not_nil (h : list (list ImageLayer)) (st : list ImageLayer) :
  pushBounded h st <> [].
Proof.
  unfold pushBounded. rewrite length_app. simpl.
  destruct (Nat.ltb_spec MAX_HISTORY (List.length h + 1)) as [H|H].
  - destruct h as [|a [|b r]]; simpl in *; try discriminate.
    unfold MAX_HISTORY in H. lia.
  - destruct h; discriminate.
Qed.

Create HintDb history.
#[local] Hint Constructors historyStep : history.

Lemma historyRef_pushHistory (s : State) :
  historyRef (pushHistory s) = pushBounded (historyRef s) (layers s).
Proof. unfold pushHistory. simpl. now rewrite snapshot_same. Qed.

Lemma step_historyStep (e : Event) (s : State) :
  historyStep (historyRef s) (historyRef (step e s)).
Proof.
  destruct e; simpl.
  - unfold addImages. destruct (filter _ files); simpl; auto with history.
  - auto with history.
  - unfold handleMoveLayer. destruct (_ || _); simpl; auto with history.
  - unfold handleLayerDrop. destruct (_ || _); [auto with history|].
    destruct (findIndex _ _); [| auto with history].
    unfold handleLayerReorder. destruct (_ =? _)%nat; [auto with history|].
    destruct (nth_error _ _); simpl; auto with history.
  - simpl. auto with history.
  - unfold handleRemoveLayer. destruct (negb _); simpl; auto with history.
  - auto with history.
  - unfold handleGuideMouseDown. destruct (guideLinesLocked s); auto with history.
  - unfold handleLayerMouseDown. destruct onHandleOrGuide; [auto with history|].
    destruct (alignModalOpen s); [auto with history|].
    destruct (find _ _); simpl; auto with history.
  - unfold handleResizeMouseDown. destruct (find _ _); simpl; auto with history.
  - unfold handleMouseMove. destruct (draggingGuide s); [auto with history|].
    destruct (isResizing s && truthy (selectedId s)), (resizeHandle s);
      simpl; auto with history;
      destruct (isDragging s && truthy (selectedId s)); simpl; auto with history.
  - unfold handleMouseUp.
    destruct (isDragging s || isResizing s), (pendingUndoStateRef s);
      simpl; auto with history.
  - auto with history.
  - unfold handleLayerPanelSelect. destruct (find _ _); simpl; auto with history.
  - unfold handleLayerClick. destruct (alignModalOpen s); simpl; auto with history.
  - unfold handleAlignModalCanvasClick.
    destruct (alignModalOpen s); [| auto with history].
    destruct (nth_error _ _); [| auto with history].
    destruct (_ <? 4)%nat; [simpl; auto with history|].
    destruct (_ <? _)%Z; simpl; auto with history.
  - unfold handleAlignModalNext.
    destruct (_ <? 4)%nat; [simpl; auto with history|].
    destruct (_ <? _)%Z; simpl; auto with history.
  - unfold handleAlignModalPrev.
    destruct (0 <? alignModalStep s)%nat; [simpl; auto with history|].
    destruct (0 <? _)%nat; simpl; auto with history.
  - unfold handleAutoAlignClick. destruct (_ <? 1)%nat; simpl; auto with history.
  - auto with history.
  - unfold runAutoAlign. destruct (_ <? 2)%nat; [auto with history|].
    destruct (nth_error _ 0); [| auto with history].
    destruct (List.concat _); simpl; auto with history.
  - unfold undo. destruct (historyRef s) as [|a r] eqn:E.
    + rewrite E. apply hs_keep.
    + apply hs_pop.
Qed.

Lemma historyStep_bounded (h h' : list (list ImageLayer)) :
  historyStep h h' ->
  (List.length h <= MAX_HISTORY)%nat -> (List.length h' <= MAX_HISTORY)%nat.
Proof.
  intros [| st |] H.
  - exact H.
  - now apply length_pushBounded.
  - rewrite removelast_firstn_len, length_firstn. lia.
Qed.

Lemma run_bounded (events : list Event) (s : State) :
  (List.length (historyRef s) <= MAX_HISTORY)%nat ->
  (List.length (historyRef (run events s)) <= MAX_HISTORY)%nat.
Proof.
  revert s. unfold run.
  induction events as [|e r IH]; intros s H; simpl; [exact H|].
  apply IH. exact (historyStep_bounded _ _ (step_historyStep e s) H).
Qed.

(** C4.  The history stack never holds more than 50 snapshots: from the
    empty stack of a fresh component, and from any state whose stack
    holds at most 50, every sequence of handler calls leaves at most 50.
    A push onto a full stack, by [pushHistory] or by the commit of a
    gesture in [handleMouseUp], drops the oldest entry and appends the
    new one. *)
Theorem history_never_exceeds_capacity :
  (forall events : list Event,
      (List.length (historyRef (run events initialState)) <= 50)%nat)
  /\ (forall (s : State) (events : list Event),
         (List.length (historyRef s) <= 50)%nat ->
         (List.length (historyRef (run events s)) <= 50)%nat)
  /\ (forall s : State,
         List.length (historyRef s) = 50%nat ->
         historyRef (pushHistory s) = tl (historyRef s) ++ [layers s])
  /\ (forall (s : State) (pending : list ImageLayer),
         List.length (historyRef s) = 50%nat ->
         isDragging s || isResizing s = true ->
         pendingUndoStateRef s = Some pending ->
         historyRef (handleMouseUp s) = tl (historyRef s) ++ [pending]).
Proof.
  split; [| split; [| split]].
  - intro events. apply (run_bounded events initialState). simpl.
    unfold MAX_HISTORY. lia.
  - intros s events. apply run_bounded.
  - intros s H. rewrite historyRef_pushHistory. now apply pushBounded_full.
  - intros s pending H Hg Hp. unfold handleMouseUp. rewrite Hg, Hp. simpl.
    now apply pushBounded_full.
Qed.

Lemma history_never_exceeds_capacity_witness :
  (List.length
     (historyRef (run (repeat (EToggleLayerVisibility "1-0-ref.png") 60)
                    Examples.single)) <= 50)%nat
  /\ historyRef (pushHistory Examples.full)
     = tl (historyRef Examples.full) ++ [layers Examples.full]
  /\ historyRef (handleMouseUp Examples.fullDragging)
     = tl (historyRef Examples.fullDragging) ++ [[Examples.refLayer]].
Proof.
  destruct history_never_exceeds_capacity as (_ & Hrun & Hpush & Hup).
  split; [| split].
  - apply (Hrun Examples.single). simpl. lia.
  - apply (Hpush Examples.full). reflexivity.
  - apply (Hup Examples.fullDragging [Examples.refLayer]); reflexivity.
Defined.

(** ** Undo *)


Lemma setLayers_same (s : State) : setLayers (layers s) s = s.
Proof. destruct s; reflexivity. Qed.

(** A pointer move writes no cell but [layers]. *)
Lemma handleMouseMove_only_layers (cx cy : Q) (s : State) :
  exists ls, handleMouseMove cx cy s = setLayers ls s.
Proof.
  unfold handleMouseMove.
  destruct (draggingGuide s).
  - exists (layers s). now rewrite setLayers_same.
  - destruct (isResizing s && truthy (selectedId s)), (resizeHandle s);
      try (eexists; reflexivity);
      (destruct (isDragging s && truthy (selectedId s));
       [eexists; reflexivity | exists (layers s); now rewrite setLayers_same]).
Qed.

Lemma run_nil (s : State) : run [] s = s.
Proof. reflexivity. Qed.

Lemma run_cons (e : Event) (r : list Event) (s : State) :
  run (e :: r) s = run r (step e s).
Proof. reflexivity. Qed.

Lemma run_app (a b : list Event) (s : State) :
  run (a ++ b) s = run b (run a s).
Proof. unfold run. apply fold_left_app. Qed.





(** Outside its guard a one-handler mutation returns before it writes
    anything. *)
Lemma unguarded_mutation_is_noop (m : Mutation) (s : State) :
  match m with
  | MDrag _ _ _ _ | MResize _ _ _ _ _ => False
  | _ => True
  end ->
  checkpointed m s = false ->
  run (perform m) s = s.
Proof.
  destruct m; cbn [perform checkpointed]; intros Hk H; try contradiction;
    rewrite run_cons, run_nil; cbn [step].
  - unfold addImages.
    assert (Hf : filter (fun f => existsb (String.eqb (File.type f)) ACCEPTED_TYPES) files = []).
    { induction files as [|f r IH]; [reflexivity|].
      cbn [existsb filter] in *. apply orb_false_iff in H as [H1 H2].
      rewrite H1. now apply IH. }
    now rewrite Hf.
  - unfold handleRemoveLayer. now rewrite H.
  - unfold handleMoveLayer.
    destruct (Z.ltb_spec (match direction with
                          | up => Z.of_nat index + 1
                          | down => Z.of_nat index - 1
                          end) 0) as [A|A]; [reflexivity|].
    destruct (Z.leb_spec (Z.of_nat (List.length (layers s)))
                (match direction with
                 | up => Z.of_nat index + 1
                 | down => Z.of_nat index - 1
                 end)) as [B|B]; [reflexivity|].
    apply andb_false_iff in H as [H|H].
    + apply Z.leb_gt in H. lia.
    + apply Z.ltb_ge in H. lia.
  - unfold handleLayerDrop.
    destruct (truthy (Some layerId)); [| reflexivity].
    destruct (match nth_error (layers s) targetIndex with
              | Some l => String.eqb layerId (id l)
              | None => false
              end); [reflexivity|].
    cbn [negb orb andb] in *.
    destruct (findIndex _ _) as [fromIndex|]; [| reflexivity].
    apply negb_false_iff in H. unfold handleLayerReorder. now rewrite H.
  - discriminate H.
  - unfold runAutoAlign. apply Nat.leb_gt in H.
    destruct (Nat.ltb_spec (List.length (layers s)) 2); [reflexivity | lia].
Qed.



(** The mutations of the witness do change the layers they are undone
    from. *)
Example mutations_change_layers :
  layers (run (perform MAlign) Examples.pair) <> layers Examples.pair
  /\ layers (run (perform (MResize 500 500 "1-1-b.png" Hse
                             [(400, 450); (-1000, 0)])) Examples.pair)
     <> layers Examples.pair
  /\ List.length (layers (run (perform (MAdd Examples.objectURL 1 Examples.threeFiles))
                            initialState)) = 3%nat.
Proof.
  split; [| split]; [| | reflexivity]; vm_compute; intro H; discriminate H.
Qed.


(** ** Resize *)

Lemma resizeLayer_nonGeometry (start : ResizeStart.t) (h : Handle) (dx dy : Q)
  (l : ImageLayer) :
  nonGeometry (resizeLayer start h dx dy l) = nonGeometry l.
Proof.
  unfold resizeLayer. cbv zeta.
  destruct (_ =? 2)%nat; [destruct (_ || _)|]; reflexivity.
Qed.

Lemma resizeLayer_reads_nonGeometry (start : ResizeStart.t) (h : Handle) (dx dy : Q)
  (l1 l2 : ImageLayer) :
  nonGeometry l1 = nonGeometry l2 ->
  resizeLayer start h dx dy l1 = resizeLayer start h dx dy l2.
Proof.
  destruct l1, l2. unfold nonGeometry. simpl. intro H.
  injection H as -> -> -> -> ->. reflexivity.
Qed.

Lemma resizeLayer_width_min (start : ResizeStart.t) (h : Handle) (dx dy : Q)
  (l : ImageLayer) :
  includes h "e" || includes h "w" = true ->
  50 <= width (resizeLayer start h dx dy l).
Proof.
  intro H. destruct h; try discriminate H;
    unfold resizeLayer; cbn [includes handle_name str_includes Ascii.eqb Bool.eqb orb
                             String.length Nat.eqb withGeometry width];
    apply Math_max_lower.
Qed.

Lemma resizeLayer_height_min (start : ResizeStart.t) (h : Handle) (dx dy : Q)
  (l : ImageLayer) :
  h = Hn \/ h = Hs ->
  50 <= height (resizeLayer start h dx dy l)
  /\ width (resizeLayer start h dx dy l) = ResizeStart.width start.
Proof.
  intros [-> | ->]; unfold resizeLayer;
    cbn [includes handle_name str_includes Ascii.eqb Bool.eqb orb
         String.length Nat.eqb withGeometry width height];
    (split; [apply Math_max_lower | reflexivity]).
Qed.

Lemma resizeLayer_edge_keeps_height (start : ResizeStart.t) (h : Handle) (dx dy : Q)
  (l : ImageLayer) :
  h = He \/ h = Hw ->
  height (resizeLayer start h dx dy l) = ResizeStart.height start.
Proof. intros [-> | ->]; reflexivity. Qed.

Lemma resizeLayer_corner_height (start : ResizeStart.t) (h : Handle) (dx dy : Q)
  (l : ImageLayer) :
  h = Hnw \/ h = Hne \/ h = Hsw \/ h = Hse ->
  height (resizeLayer start h dx dy l)
  = width (resizeLayer start h dx dy l) / aspectRatio l.
Proof. intros [-> | [-> | [-> | ->]]]; reflexivity. Qed.

Lemma Qdiv_by_zero (a b : Q) : b == 0 -> a / b == 0.
Proof.
  intro H. unfold Qdiv. rewrite H.
  change (/ 0) with 0. ring.
Qed.

(** [w / (w / r) == r] for a width that is not zero; at [r == 0] both
    sides are zero. *)
Lemma ratio_of_derived_height (w r : Q) : 0 < w -> w / (w / r) == r.
Proof.
  intro Hw.
  destruct (Qeq_dec r 0) as [E|N].
  - rewrite (Qdiv_by_zero w (w / r)); [now rewrite E|].
    now apply Qdiv_by_zero.
  - field. split; [exact N|]. intro E. rewrite E in Hw. discriminate Hw.
Qed.

Lemma resizeLayer_corner_ratio (start : ResizeStart.t) (h : Handle) (dx dy : Q)
  (l : ImageLayer) :
  h = Hnw \/ h = Hne \/ h = Hsw \/ h = Hse ->
  width (resizeLayer start h dx dy l) / height (resizeLayer start h dx dy l)
  == aspectRatio l.
Proof.
  intro Hc. rewrite (resizeLayer_corner_height start h dx dy l Hc).
  apply ratio_of_derived_height.
  apply Qlt_le_trans with 50; [reflexivity|].
  apply resizeLayer_width_min.
  destruct Hc as [-> | [-> | [-> | ->]]]; reflexivity.
Qed.

(** *** The layer sequence at the end of a resize gesture *)

Lemma resizeSelected_absorbs (start : ResizeStart.t) (layerId : string) (h : Handle)
  (dx dy dx' dy' : Q) (l : ImageLayer) :
  resizeSelected start layerId h dx dy (resizeSelected start layerId h dx' dy' l)
  = resizeSelected start layerId h dx dy l.
Proof.
  unfold resizeSelected.
  destruct (String.eqb (id l) layerId) eqn:E; [| now rewrite E].
  assert (Hf := resizeLayer_nonGeometry start h dx' dy' l).
  assert (Hid : id (resizeLayer start h dx' dy' l) = id l).
  { unfold nonGeometry in Hf. congruence. }
  rewrite Hid, E. now apply resizeLayer_reads_nonGeometry.
Qed.

Lemma truthy_nonempty (v : string) : v <> EmptyString -> truthy (Some v) = true.
Proof. destruct v; [contradiction | reflexivity]. Qed.

Lemma handleMouseMove_resizing (layerId : string) (h : Handle)
  (start : ResizeStart.t) (st : State) (mx my : Q) :
  layerId <> EmptyString ->
  resizing layerId h start st ->
  handleMouseMove mx my st
  = setLayers
      (map (resizeSelected start layerId h
              (mx - ResizeStart.mouseX start) (my - ResizeStart.mouseY start))
         (layers st))
      st.
Proof.
  intros Hid (Hg & Hr & Hs & Hh & Hst). unfold handleMouseMove.
  rewrite Hg, Hr, Hs, Hh, Hst, (truthy_nonempty layerId Hid). cbn [andb].
  f_equal. apply map_ext. intro l. unfold resizeSelected, idIs.
  destruct (String.eqb (id l) layerId); reflexivity.
Qed.

Lemma resizing_setLayers (layerId : string) (h : Handle) (start : ResizeStart.t)
  (st : State) (ls : list ImageLayer) :
  resizing layerId h start st -> resizing layerId h start (setLayers ls st).
Proof. intro H. exact H. Qed.

(** A further move makes the earlier ones irrelevant. *)
Lemma pointerMoves_absorbed (layerId : string) (h : Handle) (start : ResizeStart.t)
  (moves : list (Q * Q)) (st : State) (dx dy : Q) :
  layerId <> EmptyString ->
  resizing layerId h start st ->
  resizing layerId h start (run (pointerMoves moves) st)
  /\ map (resizeSelected start layerId h dx dy)
       (layers (run (pointerMoves moves) st))
     = map (resizeSelected start layerId h dx dy) (layers st).
Proof.
  intros Hid. revert st.
  induction moves as [|[mx my] r IH]; intros st Hst.
  - split; [exact Hst | reflexivity].
  - change (run (pointerMoves ((mx, my) :: r)) st)
      with (run (pointerMoves r) (handleMouseMove mx my st)).
    rewrite (handleMouseMove_resizing layerId h start st mx my Hid Hst).
    destruct (IH (setLayers
                    (map (resizeSelected start layerId h
                            (mx - ResizeStart.mouseX start)
                            (my - ResizeStart.mouseY start)) (layers st)) st)
                (resizing_setLayers _ _ _ _ _ Hst)) as [Hres Hmap].
    split; [exact Hres|].
    rewrite Hmap. cbn [layers setLayers]. rewrite map_map.
    apply map_ext. intro l. apply resizeSelected_absorbs.
Qed.

Lemma layers_handleMouseUp (s : State) : layers (handleMouseUp s) = layers s.
Proof.
  unfold handleMouseUp.
  destruct (isDragging s || isResizing s), (pendingUndoStateRef s); reflexivity.
Qed.

(** The layers a resize gesture leaves: the last move applied to the
    layers of the press, with the geometry of the press as start. *)
Lemma resizeGesture_layers (s : State) (cx cy : Q) (layerId : string) (h : Handle)
  (moves : list (Q * Q)) (mx my : Q) (first : ImageLayer) :
  draggingGuide s = None ->
  layerId <> EmptyString ->
  find (fun l => String.eqb (id l) layerId) (layers s) = Some first ->
  layers (run (resizeGesture cx cy layerId h (moves ++ [(mx, my)])) s)
  = map (resizeSelected
           (ResizeStart.mk cx cy (width first) (height first) (x first) (y first))
           layerId h (mx - cx) (my - cy))
      (layers s).
Proof.
  intros Hg Hid Hfind. unfold resizeGesture.
  rewrite run_cons. cbn [step]. unfold handleResizeMouseDown. rewrite Hfind.
  set (start := ResizeStart.mk cx cy (width first) (height first) (x first) (y first)).
  set (st := setResizeStart start _).
  assert (Hst : resizing layerId h start st).
  { unfold resizing, st. cbn. repeat split. exact Hg. }
  unfold pointerMoves. rewrite map_app. fold (pointerMoves moves).
  rewrite run_app, run_app. cbn [map fst snd].
  rewrite !run_cons, !run_nil. cbn [step].
  rewrite layers_handleMouseUp.
  destruct (pointerMoves_absorbed layerId h start moves st (mx - cx) (my - cy) Hid Hst)
    as [Hres Hmap].
  rewrite (handleMouseMove_resizing layerId h start _ mx my Hid Hres).
  cbn [layers setLayers]. change (ResizeStart.mouseX start) with cx.
  change (ResizeStart.mouseY start) with cy.
  rewrite Hmap. unfold st. cbn [layers setResizeStart setResizeHandle setIsResizing
    setPendingUndoStateRef setSelectedId]. reflexivity.
Qed.

Lemma find_of_nth_error (layerId : string) (ls : list ImageLayer) (i : nat)
  (layer : ImageLayer) :
  nth_error ls i = Some layer -> id layer = layerId ->
  exists first, find (fun l => String.eqb (id l) layerId) ls = Some first.
Proof.
  intros Hi Hid.
  destruct (find (fun l => String.eqb (id l) layerId) ls) as [f|] eqn:E.
  - now exists f.
  - apply nth_error_In in Hi.
    assert (H := find_none _ _ E layer Hi). cbv beta in H.
    rewrite Hid, String.eqb_refl in H. discriminate H.
Qed.

Lemma resizeGesture_nth (s : State) (cx cy : Q) (layerId : string) (h : Handle)
  (moves : list (Q * Q)) (mx my : Q) (first layer : ImageLayer) (i : nat) :
  draggingGuide s = None ->
  layerId <> EmptyString ->
  find (fun l => String.eqb (id l) layerId) (layers s) = Some first ->
  nth_error (layers s) i = Some layer ->
  id layer = layerId ->
  nth_error (layers (run (resizeGesture cx cy layerId h (moves ++ [(mx, my)])) s)) i
  = Some (resizeLayer
            (ResizeStart.mk cx cy (width first) (height first) (x first) (y first))
            h (mx - cx) (my - cy) layer).
Proof.
  intros Hg Hne Hfind Hi Hid.
  rewrite (resizeGesture_layers s cx cy layerId h moves mx my first Hg Hne Hfind).
  rewrite nth_error_map, Hi. cbn [option_map]. unfold resizeSelected.
  now rewrite Hid, String.eqb_refl.
Qed.

(** C6.  A resize gesture on a corner handle, whatever the geometry at
    the press and wherever the pointer moves, ends with
    [width / height] equal to the layer's [aspectRatio]; the aspect ratio
    itself is not written.  (Exact arithmetic: equality holds without a
    tolerance.  The gesture has at least one pointer move, whose position
    fixes the pointer delta.) *)
Theorem corner_resize_keeps_aspect_ratio
  (s : State) (cx cy : Q) (layerId : string) (h : Handle)
  (moves : list (Q * Q)) (mx my : Q) (i : nat) (layer : ImageLayer) :
  draggingGuide s = None ->
  layerId <> EmptyString ->
  h = Hnw \/ h = Hne \/ h = Hsw \/ h = Hse ->
  nth_error (layers s) i = Some layer ->
  id layer = layerId ->
  exists resized : ImageLayer,
    nth_error (layers (run (resizeGesture cx cy layerId h (moves ++ [(mx, my)])) s)) i
    = Some resized
    /\ aspectRatio resized = aspectRatio layer
    /\ width resized / height resized == aspectRatio resized.
Proof.
  intros Hg Hne Hc Hi Hid.
  destruct (find_of_nth_error layerId (layers s) i layer Hi Hid) as [first Hfind].
  eexists. split; [| split].
  - apply (resizeGesture_nth s cx cy layerId h moves mx my first layer i); assumption.
  - assert (Hf := resizeLayer_nonGeometry
                    (ResizeStart.mk cx cy (width first) (height first) (x first) (y first))
                    h (mx - cx) (my - cy) layer).
    unfold nonGeometry in Hf. congruence.
  - rewrite resizeLayer_corner_ratio by exact Hc.
    assert (Hf := resizeLayer_nonGeometry
                    (ResizeStart.mk cx cy (width first) (height first) (x first) (y first))
                    h (mx - cx) (my - cy) layer).
    unfold nonGeometry in Hf.
    assert (E : aspectRatio (resizeLayer
                    (ResizeStart.mk cx cy (width first) (height first) (x first) (y first))
                    h (mx - cx) (my - cy) layer) = aspectRatio layer) by congruence.
    rewrite E. reflexivity.
Qed.

Lemma corner_resize_keeps_aspect_ratio_witness :
  exists resized : ImageLayer,
    nth_error
      (layers (run (resizeGesture 500 500 "1-1-b.png" Hse
                      ([(400, 450)] ++ [(-1000, 0)])) Examples.pair)) 1
    = Some resized
    /\ aspectRatio resized = aspectRatio Examples.second
    /\ width resized / height resized == aspectRatio resized.
Proof.
  apply (corner_resize_keeps_aspect_ratio Examples.pair 500 500 "1-1-b.png" Hse
           [(400, 450)] (-1000) 0 1 Examples.second).
  - reflexivity.
  - discriminate.
  - right. right. right. reflexivity.
  - reflexivity.
  - reflexivity.
Defined.

(** C2, as the claim states it, fails: the second layer of the example
    has aspect ratio 2; dragging its south-east handle far to the left
    clamps the width to 50 and derives the height 25 from it. *)
Lemma corner_resize_below_minimum_height :
  exists resized : ImageLayer,
    nth_error
      (layers (run (resizeGesture 500 500 "1-1-b.png" Hse [(-1000, 0)])
                 Examples.pair)) 1
    = Some resized
    /\ width resized == 50
    /\ height resized == 25
    /\ ~ 50 <= height resized.
Proof.
  eexists. split; [vm_compute; reflexivity|].
  split; [reflexivity | split; [reflexivity|]].
  intro H. vm_compute in H. apply H. reflexivity.
Qed.

(** An edge handle leaves the other dimension as it finds it: after the
    gesture above, widening the same layer by its east handle keeps the
    height of 25. *)
Example edge_resize_keeps_small_height :
  exists resized : ImageLayer,
    nth_error
      (layers (run (resizeGesture 500 500 "1-1-b.png" Hse [(-1000, 0)]
                    ++ resizeGesture 50 10 "1-1-b.png" He [(250, 10)])
                 Examples.pair)) 1
    = Some resized
    /\ width resized == 250
    /\ height resized == 25.
Proof.
  eexists. split; [vm_compute; reflexivity|].
  split; reflexivity.
Qed.

(** C2 (as amended).  A resize gesture clamps the dimension its handle
    drags: the width is at least 50 for [e], [w] and the four corners,
    the height is at least 50 for [n] and [s].  The other dimension is
    not clamped: on an edge handle it keeps the value it had at the
    press, on a corner handle the height is [width / aspectRatio].  So
    both dimensions are at least 50 after an edge resize whose untouched
    dimension was at least 50 at the press, and after a corner resize of a
    layer with [0 < aspectRatio <= 1]. *)
Theorem resize_clamps_dragged_dimension
  (s : State) (cx cy : Q) (layerId : string) (h : Handle)
  (moves : list (Q * Q)) (mx my : Q) (i : nat) (first layer : ImageLayer) :
  draggingGuide s = None ->
  layerId <> EmptyString ->
  find (fun l => String.eqb (id l) layerId) (layers s) = Some first ->
  nth_error (layers s) i = Some layer ->
  id layer = layerId ->
  exists resized : ImageLayer,
    nth_error (layers (run (resizeGesture cx cy layerId h (moves ++ [(mx, my)])) s)) i
    = Some resized
    /\ (h <> Hn -> h <> Hs -> 50 <= width resized)
    /\ (h = Hn \/ h = Hs ->
        50 <= height resized /\ width resized = width first)
    /\ (h = He \/ h = Hw -> height resized = height first)
    /\ (h = Hnw \/ h = Hne \/ h = Hsw \/ h = Hse ->
        height resized = width resized / aspectRatio layer)
    /\ (h = Hn \/ h = Hs -> 50 <= width first ->
        50 <= width resized /\ 50 <= height resized)
    /\ (h = He \/ h = Hw -> 50 <= height first ->
        50 <= width resized /\ 50 <= height resized)
    /\ (h = Hnw \/ h = Hne \/ h = Hsw \/ h = Hse ->
        0 < aspectRatio layer -> aspectRatio layer <= 1 ->
        50 <= width resized /\ 50 <= height resized).
Proof.
  intros Hg Hne Hfind Hi Hid.
  set (start := ResizeStart.mk cx cy (width first) (height first) (x first) (y first)).
  exists (resizeLayer start h (mx - cx) (my - cy) layer).
  split.
  { apply (resizeGesture_nth s cx cy layerId h moves mx my first layer i); assumption. }
  assert (Hw : h <> Hn -> h <> Hs ->
               50 <= width (resizeLayer start h (mx - cx) (my - cy) layer)).
  { intros H1 H2. apply resizeLayer_width_min.
    destruct h; try reflexivity; contradiction. }
  split; [exact Hw|].
  split; [apply resizeLayer_height_min|].
  split; [apply resizeLayer_edge_keeps_height|].
  split; [apply resizeLayer_corner_height|].
  split; [| split].
  - intros Hh Hfirst.
    destruct (resizeLayer_height_min start h (mx - cx) (my - cy) layer Hh) as [H1 H2].
    split; [| exact H1]. rewrite H2. exact Hfirst.
  - intros Hh Hfirst. split.
    + apply Hw; destruct Hh as [-> | ->]; discriminate.
    + rewrite (resizeLayer_edge_keeps_height start h _ _ layer Hh). exact Hfirst.
  - intros Hc Hpos Hle.
    assert (H50 : 50 <= width (resizeLayer start h (mx - cx) (my - cy) layer)).
    { apply Hw; destruct Hc as [-> | [-> | [-> | ->]]]; discriminate. }
    split; [exact H50|].
    rewrite (resizeLayer_corner_height start h _ _ layer Hc).
    apply Qle_shift_div_l; [exact Hpos|].
    apply Qle_trans with (50 * 1); [| now rewrite Qmult_1_r].
    apply Qmult_le_l; [reflexivity | exact Hle].
Qed.

Lemma resize_clamps_dragged_dimension_witness :
  exists resized : ImageLayer,
    nth_error
      (layers (run (resizeGesture 500 500 "1-0-ref.png" Hnw
                      ([(400, 450)] ++ [(2000, 3000)])) Examples.pair)) 0
    = Some resized
    /\ 50 <= width resized /\ 50 <= height resized.
Proof.
  destruct (resize_clamps_dragged_dimension Examples.pair 500 500 "1-0-ref.png" Hnw
              [(400, 450)] 2000 3000 0 Examples.refLayer Examples.refLayer)
    as (resized & Hnth & _ & _ & _ & _ & _ & _ & Hcorner).
  - reflexivity.
  - discriminate.
  - reflexivity.
  - reflexivity.
  - reflexivity.
  - exists resized. split; [exact Hnth|].
    apply Hcorner.
    + left. reflexivity.
    + reflexivity.
    + discriminate.
Defined.

(** ** Reference-point wizard *)

(** The layer sequence after a pick that gets past the guard. *)
Lemma layers_wizard_pick (s : State) (cx cy : Q) (rect : Rect.t)
  (current : ImageLayer) :
  alignModalOpen s = true ->
  nth_error (layers s) (alignModalLayerIndex s) = Some current ->
  layers (handleAlignModalCanvasClick cx cy rect s)
  = map (fun l =>
           if negb (String.eqb (id l) (id current)) then l
           else withRefs l
                  (recordPick (nth_error stepKeys (alignModalStep s))
                     (clamp01 ((cx - Rect.left rect) / Rect.width rect))
                     (clamp01 ((cy - Rect.top rect) / Rect.height rect))
                     (copyRefs (refsOf l))))
      (layers s).
Proof.
  intros Hopen Hcur. unfold handleAlignModalCanvasClick. rewrite Hopen, Hcur.
  destruct (_ <? 4)%nat; [reflexivity|].
  destruct (_ <? _)%Z; reflexivity.
Qed.

Lemma wizard_pick_guard (s : State) (cx cy : Q) (rect : Rect.t) :
  alignModalOpen s = false \/ nth_error (layers s) (alignModalLayerIndex s) = None ->
  handleAlignModalCanvasClick cx cy rect s = s.
Proof.
  intros [H|H]; unfold handleAlignModalCanvasClick; rewrite H;
    [| destruct (alignModalOpen s)]; reflexivity.
Qed.

Lemma wizard_pick_exceptRefs (s : State) (cx cy : Q) (rect : Rect.t) :
  map exceptRefs (layers (handleAlignModalCanvasClick cx cy rect s))
  = map exceptRefs (layers s).
Proof.
  destruct (alignModalOpen s) eqn:Hopen;
    [| now rewrite wizard_pick_guard by (now left)].
  destruct (nth_error (layers s) (alignModalLayerIndex s)) as [current|] eqn:Hcur;
    [| now rewrite wizard_pick_guard by (now right)].
  rewrite (layers_wizard_pick s cx cy rect current Hopen Hcur), map_map.
  apply map_ext. intro l. destruct (negb _); reflexivity.
Qed.

(** The fields one pick writes, step by step. *)
Lemma recordPick_step (step : nat) (px py : Q) (r : LayerRefs) :
  recordPick (nth_error stepKeys step) px py r
  = match step with
    | 0 => mkRefs py (faceBottomY r) (bodyBottomY r)
             (eyeLeftX r) (eyeLeftY r) (eyeRightX r) (eyeRightY r)
    | 1 => mkRefs (bodyTopY r) py (bodyBottomY r)
             (eyeLeftX r) (eyeLeftY r) (eyeRightX r) (eyeRightY r)
    | 2 => mkRefs (bodyTopY r) (faceBottomY r) py
             (eyeLeftX r) (eyeLeftY r) (eyeRightX r) (eyeRightY r)
    | 3 => mkRefs (bodyTopY r) (faceBottomY r) (bodyBottomY r)
             px py (eyeRightX r) (eyeRightY r)
    | 4 => mkRefs (bodyTopY r) (faceBottomY r) (bodyBottomY r)
             (eyeLeftX r) (eyeLeftY r) px py
    | _ => r
    end%nat.
Proof.
  destruct step as [|[|[|[|[|n]]]]]; try reflexivity.
  destruct n; reflexivity.
Qed.

(** C9.  A pick in the wizard writes refs and nothing else.  For every
    layer the [id], [src], [x], [y], [width], [height], [aspectRatio]
    and [visible] are those of before, position by position, so the
    order is kept too.  The recorded position is the click position
    relative to the clicked rectangle, clamped to [0, 1] on each axis.
    With the wizard open on a layer, the refs of that layer become its
    former refs (the defaults when it had none) with the field or fields
    of the current step overwritten: [bodyTopY], [faceBottomY],
    [bodyBottomY], the left eye, the right eye for the steps 0 to 4.  Layer
    ids being unique, no other layer is written.  With the wizard closed,
    or its index past the last layer, the pick does nothing. *)
Theorem wizard_pick_writes_only_refs (s : State) (cx cy : Q) (rect : Rect.t) :
  let picked := handleAlignModalCanvasClick cx cy rect s in
  let px := clamp01 ((cx - Rect.left rect) / Rect.width rect) in
  let py := clamp01 ((cy - Rect.top rect) / Rect.height rect) in
  map exceptRefs (layers picked) = map exceptRefs (layers s)
  /\ (0 <= px /\ px <= 1 /\ 0 <= py /\ py <= 1)
  /\ (forall current : ImageLayer,
        alignModalOpen s = true ->
        nth_error (layers s) (alignModalLayerIndex s) = Some current ->
        NoDup (map id (layers s)) ->
        (exists updated : ImageLayer,
            nth_error (layers picked) (alignModalLayerIndex s) = Some updated
            /\ exceptRefs updated = exceptRefs current
            /\ refs updated
               = Some (let r := refsOf current in
                       match alignModalStep s with
                       | 0 => mkRefs py (faceBottomY r) (bodyBottomY r)
                                (eyeLeftX r) (eyeLeftY r) (eyeRightX r) (eyeRightY r)
                       | 1 => mkRefs (bodyTopY r) py (bodyBottomY r)
                                (eyeLeftX r) (eyeLeftY r) (eyeRightX r) (eyeRightY r)
                       | 2 => mkRefs (bodyTopY r) (faceBottomY r) py
                                (eyeLeftX r) (eyeLeftY r) (eyeRightX r) (eyeRightY r)
                       | 3 => mkRefs (bodyTopY r) (faceBottomY r) (bodyBottomY r)
                                px py (eyeRightX r) (eyeRightY r)
                       | 4 => mkRefs (bodyTopY r) (faceBottomY r) (bodyBottomY r)
                                (eyeLeftX r) (eyeLeftY r) px py
                       | _ => r
                       end%nat))
        /\ (forall (j : nat) (l : ImageLayer),
               j <> alignModalLayerIndex s ->
               nth_error (layers s) j = Some l ->
               nth_error (layers picked) j = Some l))
  /\ (alignModalOpen s = false
      \/ nth_error (layers s) (alignModalLayerIndex s) = None ->
      picked = s).
Proof.
  cbv zeta. split; [apply wizard_pick_exceptRefs|].
  split.
  { destruct (clamp01_range ((cx - Rect.left rect) / Rect.width rect)) as [A B].
    destruct (clamp01_range ((cy - Rect.top rect) / Rect.height rect)) as [C D].
    repeat split; assumption. }
  split; [| apply wizard_pick_guard].
  intros current Hopen Hcur Hnodup.
  rewrite (layers_wizard_pick s cx cy rect current Hopen Hcur).
  split.
  - eexists. split.
    + rewrite nth_error_map, Hcur. cbn [option_map].
      rewrite String.eqb_refl. cbn [negb]. reflexivity.
    + split; [reflexivity|].
      cbn [refs withRefs]. rewrite recordPick_step, copyRefs_same. reflexivity.
  - intros j l Hj Hl. rewrite nth_error_map, Hl. cbn [option_map].
    destruct (String.eqb_spec (id l) (id current)) as [E|N]; [| reflexivity].
    exfalso. apply Hj.
    apply (proj1 (NoDup_nth_error (map id (layers s))) Hnodup).
    + rewrite length_map. apply nth_error_Some. congruence.
    + rewrite !nth_error_map, Hl, Hcur. cbn [option_map]. now rewrite E.
Qed.

Lemma wizard_pick_writes_only_refs_witness :
  let picked :=
    handleAlignModalCanvasClick 30 40 (Rect.mk 0 0 100 100) Examples.wizardOnPair in
  map exceptRefs (layers picked) = map exceptRefs (layers Examples.wizardOnPair)
  /\ (exists updated : ImageLayer,
         nth_error (layers picked) 0 = Some updated
         /\ exceptRefs updated = exceptRefs Examples.refLayer
         /\ refs updated
            = Some (mkRefs (clamp01 ((40 - 0) / 100)) 0.5 0.8 0.35 0.45 0.65 0.45))
  /\ nth_error (layers picked) 1 = Some Examples.second.
Proof.
  destruct (wizard_pick_writes_only_refs Examples.wizardOnPair 30 40 (Rect.mk 0 0 100 100))
    as (Hframe & _ & Hpick & _).
  split; [exact Hframe|].
  destruct (Hpick Examples.refLayer) as [Hupdated Hothers].
  - reflexivity.
  - reflexivity.
  - repeat constructor; simpl; intuition discriminate.
  - split; [exact Hupdated|].
    apply (Hothers 1%nat Examples.second); [discriminate | reflexivity].
Defined.

(** * Further properties *)

(** ** Snapping *)

Lemma In_insertAscending (a x : Q) (l : list Q) :
  In x (insertAscending a l) <-> x = a \/ In x l.
Proof.
  induction l as [|b r IH]; simpl.
  - intuition.
  - destruct (Qltb b a); simpl; rewrite ?IH; intuition.
Qed.

Lemma In_sortAscending (x : Q) (l : list Q) :
  In x (sortAscending l) <-> In x l.
Proof.
  induction l as [|a r IH]; simpl; [reflexivity|].
  rewrite In_insertAscending, IH. intuition.
Qed.

Lemma insertAscending_sorted (a : Q) (l : list Q) :
  StronglySorted Qle l -> StronglySorted Qle (insertAscending a l).
Proof.
  induction 1 as [|b r Hs IH Hb]; simpl.
  - constructor; constructor.
  - destruct (Qltb b a) eqn:E.
    + constructor; [exact IH|].
      apply Forall_forall. intros x Hx.
      apply In_insertAscending in Hx as [-> | Hx].
      * apply Qlt_le_weak. now apply Qltb_lt.
      * rewrite Forall_forall in Hb. now apply Hb.
    + apply Qltb_ge in E.
      constructor; [now constructor|].
      constructor; [exact E|].
      apply Forall_forall. intros x Hx.
      rewrite Forall_forall in Hb. apply Qle_trans with b; [exact E | now apply Hb].
Qed.

Lemma sortAscending_sorted (l : list Q) : StronglySorted Qle (sortAscending l).
Proof.
  induction l as [|a r IH]; simpl; [constructor | now apply insertAscending_sorted].
Qed.

(** The loop over an ascending list, started from [nearest = n] with
    [minDist = d]. *)
Lemma scan_nearest (value : Q) (l : list Q) (n d : Q) :
  StronglySorted Qle l ->
  d == Qabs (value - n) ->
  (forall s, In s l -> n <= s) ->
  let r := fst (fold_left (nearer value) l (n, d)) in
  (r = n \/ In r l)
  /\ (r = n \/ Qabs (value - r) < d)
  /\ Qabs (value - r) <= d
  /\ (forall s, In s l -> Qabs (value - r) <= Qabs (value - s))
  /\ (forall s, In s l -> Qabs (value - s) == Qabs (value - r) -> r <= s).
Proof.
  intros Hs. revert n d.
  induction Hs as [|a l' Hs IH Ha]; intros n d Hd Hn; cbv zeta.
  - simpl. repeat split; try (now left).
    + rewrite Hd. apply Qle_refl.
    + intros s [].
    + intros s [].
  - cbn [fold_left]. rewrite Forall_forall in Ha.
    destruct (Qltb (Qabs (value - a)) d) eqn:E.
    + assert (En : nearer value (n, d) a = (a, Qabs (value - a)))
        by (unfold nearer, Math_abs; cbn [snd]; now rewrite E).
      rewrite En. apply Qltb_lt in E.
      destruct (IH a (Qabs (value - a)) (Qeq_refl _) Ha)
        as (Hin & Hlt & Hle & Hmin & Htie).
      set (r := fst (fold_left (nearer value) l' (a, Qabs (value - a)))) in *.
      assert (Hrd : Qabs (value - r) < d)
        by (apply Qle_lt_trans with (Qabs (value - a)); assumption).
      repeat split.
      * right. destruct Hin as [Hr | Hin]; [left; now symmetry | now right].
      * now right.
      * now apply Qlt_le_weak.
      * intros s [<- | Hs']; [exact Hle | now apply Hmin].
      * intros s [<- | Hs'] Ht; [| now apply Htie].
        destruct Hlt as [Hr | Hlt]; [rewrite Hr; apply Qle_refl|].
        rewrite Ht in Hlt. exfalso. exact (Qlt_irrefl _ Hlt).
    + assert (En : nearer value (n, d) a = (n, d))
        by (unfold nearer, Math_abs; cbn [snd]; now rewrite E).
      rewrite En. apply Qltb_ge in E.
      destruct (IH n d Hd (fun s Hs' => Hn s (or_intror Hs')))
        as (Hin & Hlt & Hle & Hmin & Htie).
      set (r := fst (fold_left (nearer value) l' (n, d))) in *.
      repeat split.
      * destruct Hin as [Hr | Hin]; [now left | right; now right].
      * exact Hlt.
      * exact Hle.
      * intros s [<- | Hs']; [| now apply Hmin].
        apply Qle_trans with d; assumption.
      * intros s [<- | Hs'] Ht; [| now apply Htie].
        destruct Hlt as [Hr | Hlt]; [rewrite Hr; apply Hn; now left|].
        rewrite <- Ht in Hlt. exfalso.
        exact (Qlt_not_le _ _ Hlt E).
Qed.

Lemma sorted_head_least (l : list Q) (d : Q) :
  StronglySorted Qle l -> forall s, In s l -> hd d l <= s.
Proof.
  intros Hs s Hin. destruct Hs as [|a r _ Ha]; [destruct Hin|].
  simpl. destruct Hin as [<- | Hin]; [apply Qle_refl|].
  rewrite Forall_forall in Ha. now apply Ha.
Qed.

Lemma hd_In_nonempty (l : list Q) (d : Q) : l <> [] -> In (hd d l) l.
Proof. destruct l; [contradiction | intros _; now left]. Qed.

Lemma sortAscending_nonempty (l : list Q) : l <> [] -> sortAscending l <> [].
Proof.
  destruct l as [|a r]; [contradiction|]. intros _ H.
  assert (Hin : In a (sortAscending (a :: r))) by (apply In_sortAscending; now left).
  rewrite H in Hin. destruct Hin.
Qed.

(** What the scan of [snapToNearest] returns for a list that is not
    empty. *)
Lemma snapToNearest_scan (value : Q) (snaps : list Q) :
  snaps <> [] ->
  In (snapToNearest value snaps) snaps
  /\ (forall s, In s snaps ->
         Qabs (value - snapToNearest value snaps) <= Qabs (value - s))
  /\ (forall s, In s snaps ->
         Qabs (value - s) == Qabs (value - snapToNearest value snaps) ->
         snapToNearest value snaps <= s).
Proof.
  intro Hne.
  assert (E : snapToNearest value snaps
              = fst (fold_left (nearer value) (sortAscending snaps)
                       (hd value (sortAscending snaps),
                        Math_abs (value - hd value (sortAscending snaps)))))
    by (destruct snaps; [contradiction | reflexivity]).
  rewrite E.
  destruct (scan_nearest value (sortAscending snaps)
              (hd value (sortAscending snaps))
              (Math_abs (value - hd value (sortAscending snaps)))
              (sortAscending_sorted snaps) (Qeq_refl _)
              (sorted_head_least _ value (sortAscending_sorted snaps)))
    as (Hin & _ & _ & Hmin & Htie).
  split; [| split].
  - apply In_sortAscending. destruct Hin as [-> | Hin]; [| exact Hin].
    apply hd_In_nonempty. now apply sortAscending_nonempty.
  - intros s Hs. apply Hmin. now apply In_sortAscending.
  - intros s Hs. apply Htie. now apply In_sortAscending.
Qed.

Lemma In_nonempty {A : Type} (a : A) (l : list A) : In a l -> l <> [].
Proof. destruct l; [intros [] | discriminate]. Qed.

Lemma Qabs_zero (q : Q) : Qabs q == 0 -> q == 0.
Proof.
  intro H. apply Qle_antisym.
  - rewrite <- H. apply Qle_Qabs.
  - assert (Hn : - q <= 0) by (rewrite <- H, <- Qabs_opp; apply Qle_Qabs).
    lra.
Qed.

(** X1.  [snapToNearest] returns the value itself when there is no snap
    point.  Otherwise it returns one of the snap points, and no snap
    point is closer to the value than the one returned. *)
Theorem snapToNearest_is_nearest (value : Q) (snaps : list Q) :
  snapToNearest value [] = value
  /\ (snaps <> [] ->
      In (snapToNearest value snaps) snaps
      /\ forall s, In s snaps ->
           Qabs (value - snapToNearest value snaps) <= Qabs (value - s)).
Proof.
  split; [reflexivity|]. intro Hne.
  destruct (snapToNearest_scan value snaps Hne) as (Hin & Hmin & _).
  now split.
Qed.

Lemma snapToNearest_is_nearest_witness :
  In (snapToNearest 0.3 [0.5; 0; 0.25; 1; 0.35]) [0.5; 0; 0.25; 1; 0.35]
  /\ Qabs (0.3 - snapToNearest 0.3 [0.5; 0; 0.25; 1; 0.35]) <= Qabs (0.3 - 0.35).
Proof.
  destruct (snapToNearest_is_nearest 0.3 [0.5; 0; 0.25; 1; 0.35]) as [_ H].
  destruct H as [Hin Hmin]; [discriminate|].
  split; [exact Hin|].
  apply Hmin. simpl. tauto.
Defined.

(** X2.  Among snap points at the same distance from the value,
    [snapToNearest] returns the least: the scan runs over the ascending
    order and replaces its candidate only for a strictly smaller
    distance. *)
Theorem snapToNearest_tie_takes_least (value : Q) (snaps : list Q) (s : Q) :
  In s snaps ->
  Qabs (value - s) == Qabs (value - snapToNearest value snaps) ->
  snapToNearest value snaps <= s.
Proof.
  intros Hs Ht.
  destruct (snapToNearest_scan value snaps (In_nonempty s snaps Hs)) as (_ & _ & Htie).
  now apply Htie.
Qed.

Lemma snapToNearest_tie_takes_least_witness :
  snapToNearest 0.3 [0.5; 0.35; 0.25] <= 0.35.
Proof.
  apply (snapToNearest_tie_takes_least 0.3 [0.5; 0.35; 0.25] 0.35).
  - simpl. tauto.
  - reflexivity.
Defined.

(** X3.  A value that is itself a snap point snaps to itself (up to
    the equality of numbers). *)
Theorem snapToNearest_fixes_snap_points (value : Q) (snaps : list Q) :
  In value snaps -> snapToNearest value snaps == value.
Proof.
  intro Hin.
  destruct (snapToNearest_scan value snaps (In_nonempty value snaps Hin))
    as (_ & Hmin & _).
  specialize (Hmin value Hin).
  assert (Hz : Qabs (value - value) == 0).
  { assert (E0 : value - value == 0) by ring. rewrite E0. reflexivity. }
  rewrite Hz in Hmin.
  assert (H0 : value - snapToNearest value snaps == 0).
  { apply Qabs_zero. apply Qle_antisym; [exact Hmin | apply Qabs_nonneg]. }
  lra.
Qed.

Lemma snapToNearest_fixes_snap_points_witness :
  snapToNearest (1 / 3) [0; 0.1; 0.25; 1 / 3; 0.5; 0.75; 1] == 1 / 3.
Proof.
  apply (snapToNearest_fixes_snap_points (1 / 3) [0; 0.1; 0.25; 1 / 3; 0.5; 0.75; 1]).
  simpl. tauto.
Defined.

(** ** Guide lines *)

(** The dragged cell after a move: the pointer position, or the nearest
    layer centre when snapping applies and that centre is within 0.02. *)
Lemma dragGuide_value (rect : Rect.t) (snap : bool) (cx cy : Q) (s : State)
  (g : Guides) (guide : Guide) :
  draggingGuide s = Some guide ->
  guideValue guide (dragGuide (Some rect) snap cx cy s g)
  = let p := guidePointer rect cx cy guide in
    if snap && (0 <? List.length (layers s))%nat then
      let snapped := snapToNearest p (guideSnaps rect (layers s) guide) in
      if Qltb (Qabs (p - snapped)) 0.02 then snapped else p
    else p.
Proof.
  intro Hd. unfold dragGuide, guidePointer, guideSnaps. rewrite Hd.
  destruct (snap && (0 <? List.length (layers s))%nat);
    destruct guide; cbn [isHorizontal]; unfold Math_abs;
    try reflexivity;
    match goal with
    | |- context [Qltb ?a 0.02] => destruct (Qltb a 0.02)
    end; reflexivity.
Qed.

Lemma Qabs_self_zero (p : Q) : Qabs (p - p) == 0.
Proof.
  assert (E : p - p == 0) by ring. rewrite E. reflexivity.
Qed.

(** X4.  A pointer move during a guide drag writes the dragged guide
    and no other: the four other guide cells keep their values.  With
    no guide held, or with the canvas not mounted, all five are kept. *)
Theorem dragGuide_writes_dragged_guide_only
  (rect : option Rect.t) (snap : bool) (cx cy : Q) (s : State) (g : Guides) :
  (forall guide other : Guide,
      draggingGuide s = Some guide -> other <> guide ->
      guideValue other (dragGuide rect snap cx cy s g) = guideValue other g)
  /\ (draggingGuide s = None \/ rect = None ->
      dragGuide rect snap cx cy s g = g).
Proof.
  split.
  - intros guide other Hd Hne. unfold dragGuide. rewrite Hd.
    destruct rect as [r|]; [| reflexivity].
    destruct (if snap && (0 <? List.length (layers s))%nat then _ else _) as [x1 y1].
    destruct guide, other; try reflexivity; contradiction.
  - intros [H | H]; unfold dragGuide; rewrite H; [| destruct (draggingGuide s)];
      reflexivity.
Qed.

Lemma dragGuide_writes_dragged_guide_only_witness :
  guideValue GH1
    (dragGuide (Some Examples.canvas) true 500 405 Examples.guideHeld initialGuides)
  = guideValue GH1 initialGuides
  /\ guideValue GV2
       (dragGuide (Some Examples.canvas) true 500 405 Examples.guideHeld initialGuides)
     = guideValue GV2 initialGuides.
Proof.
  destruct (dragGuide_writes_dragged_guide_only (Some Examples.canvas) true 500 405
              Examples.guideHeld initialGuides) as [H _].
  split.
  - apply (H GH2 GH1); [reflexivity | discriminate].
  - apply (H GH2 GV2); [reflexivity | discriminate].
Defined.

(** X5.  The dragged guide ends at the clamped pointer position, or at
    a layer centre less than 0.02 away from it that no other layer
    centre beats; it is a layer centre whenever snapping is on and some
    centre lies within 0.02.  With snapping off or no layer it is the
    clamped pointer position, inside [0, 1].  In every case it is less
    than 0.02 away from the clamped pointer position, so inside
    (-0.02, 1.02): a snap can leave [0, 1]. *)
Theorem dragGuide_position
  (rect : Rect.t) (snap : bool) (cx cy : Q) (s : State) (g : Guides) (guide : Guide) :
  draggingGuide s = Some guide ->
  let p := guidePointer rect cx cy guide in
  let centres := guideSnaps rect (layers s) guide in
  let v := guideValue guide (dragGuide (Some rect) snap cx cy s g) in
  (v = p
   \/ (snap = true /\ In v centres /\ Qabs (p - v) < 0.02
       /\ forall c, In c centres -> Qabs (p - v) <= Qabs (p - c)))
  /\ (snap = true ->
      forall c, In c centres -> Qabs (p - c) < 0.02 -> In v centres)
  /\ (snap = false \/ layers s = [] -> v = p /\ 0 <= v /\ v <= 1)
  /\ Qabs (p - v) < 0.02
  /\ - 0.02 < v /\ v < 1.02.
Proof.
  intro Hd. cbv zeta. rewrite (dragGuide_value rect snap cx cy s g guide Hd). cbv zeta.
  set (p := guidePointer rect cx cy guide).
  set (centres := guideSnaps rect (layers s) guide).
  assert (Hp : 0 <= p /\ p <= 1).
  { unfold p, guidePointer. destruct (isHorizontal guide); apply clamp01_range. }
  assert (Hpp : Qabs (p - p) < 0.02) by (rewrite Qabs_self_zero; reflexivity).
  assert (Hnear : forall v, Qabs (p - v) < 0.02 -> - 0.02 < v /\ v < 1.02).
  { intros v Hv. apply Qabs_Qlt_condition in Hv. destruct Hp, Hv. split; lra. }
  destruct snap; cbn [andb].
  - destruct (Nat.ltb_spec 0 (List.length (layers s))) as [Hlen | Hlen].
    + assert (Hne : centres <> []).
      { unfold centres, guideSnaps. destruct (layers s); [simpl in Hlen; lia|].
        destruct (isHorizontal guide); discriminate. }
      destruct (snapToNearest_scan p centres Hne) as (Hin & Hmin & _).
      destruct (Qltb (Qabs (p - snapToNearest p centres)) 0.02) eqn:E.
      * apply Qltb_lt in E.
        split; [right; repeat split; assumption|].
        split; [intros _ c _ _; exact Hin|].
        split; [intros [H | H]; [discriminate H | rewrite H in Hlen; simpl in Hlen; lia]|].
        split; [exact E | now apply Hnear].
      * apply Qltb_ge in E.
        split; [now left|].
        split.
        { intros _ c Hc Hlt. exfalso.
          apply (Qlt_not_le _ _ Hlt). apply Qle_trans with (Qabs (p - snapToNearest p centres));
            [exact E | now apply Hmin]. }
        split; [intros _; tauto|].
        split; [exact Hpp | now apply Hnear].
    + assert (Hnil : centres = []).
      { unfold centres, guideSnaps. destruct (layers s); [| simpl in Hlen; lia].
        destruct (isHorizontal guide); reflexivity. }
      split; [now left|].
      split; [intros _ c Hc; rewrite Hnil in Hc; destruct Hc|].
      split; [intros _; tauto|].
      split; [exact Hpp | now apply Hnear].
  - split; [now left|].
    split; [intro H; discriminate H|].
    split; [intros _; tauto|].
    split; [exact Hpp | now apply Hnear].
Qed.

Lemma dragGuide_position_witness :
  let p := guidePointer Examples.canvas 500 205 GH2 in
  let centres := guideSnaps Examples.canvas (layers Examples.guideHeld) GH2 in
  let v := guideValue GH2
             (dragGuide (Some Examples.canvas) true 500 205 Examples.guideHeld
                initialGuides) in
  In v centres /\ Qabs (p - v) < 0.02.
Proof.
  cbv zeta.
  destruct (dragGuide_position Examples.canvas true 500 205 Examples.guideHeld
              initialGuides GH2 eq_refl) as (_ & Hsnap & _ & Hnear & _).
  split; [| exact Hnear].
  apply (Hsnap eq_refl ((100 + 200 / 2) / 800)).
  - simpl. tauto.
  - reflexivity.
Defined.

(** A layer whose centre lies just above the canvas pulls a guide out of
    [0, 1]. *)
Example dragGuide_snaps_outside_unit_interval :
  guideValue GH1
    (dragGuide (Some Examples.canvas) true 500 0
       (setDraggingGuide (Some GH1)
          (Examples.withLayers [mkLayer "1-0-a.png" "blob:a" 0 (-108) 300 200 1 true None]))
       initialGuides)
  == - 0.01.
Proof. reflexivity. Qed.

(** ** Drag *)

Lemma dragSelected_absorbs (offset : Point.t) (layerId : string)
  (mx my mx' my' : Q) (l : ImageLayer) :
  dragSelected offset layerId mx my (dragSelected offset layerId mx' my' l)
  = dragSelected offset layerId mx my l.
Proof.
  unfold dragSelected.
  destruct (String.eqb (id l) layerId) eqn:E; [| now rewrite E].
  cbn [id withPosition]. rewrite E. reflexivity.
Qed.

Lemma handleMouseMove_dragging (layerId : string) (offset : Point.t)
  (st : State) (mx my : Q) :
  layerId <> EmptyString ->
  dragging layerId offset st ->
  handleMouseMove mx my st
  = setLayers (map (dragSelected offset layerId mx my) (layers st)) st.
Proof.
  intros Hid (Hg & Hr & Hd & Hs & Ho). unfold handleMouseMove.
  rewrite Hg, Hr, Hd, Hs, Ho, (truthy_nonempty layerId Hid). cbn [andb].
  destruct (resizeHandle st); reflexivity.
Qed.

Lemma pointerMoves_drag_absorbed (layerId : string) (offset : Point.t)
  (moves : list (Q * Q)) (st : State) (mx my : Q) :
  layerId <> EmptyString ->
  dragging layerId offset st ->
  dragging layerId offset (run (pointerMoves moves) st)
  /\ map (dragSelected offset layerId mx my) (layers (run (pointerMoves moves) st))
     = map (dragSelected offset layerId mx my) (layers st).
Proof.
  intros Hid. revert st.
  induction moves as [|[ax ay] r IH]; intros st Hst.
  - split; [exact Hst | reflexivity].
  - change (run (pointerMoves ((ax, ay) :: r)) st)
      with (run (pointerMoves r) (handleMouseMove ax ay st)).
    rewrite (handleMouseMove_dragging layerId offset st ax ay Hid Hst).
    destruct (IH (setLayers (map (dragSelected offset layerId ax ay) (layers st)) st) Hst)
      as [Hres Hmap].
    split; [exact Hres|].
    rewrite Hmap. cbn [layers setLayers]. rewrite map_map.
    apply map_ext. intro l. apply dragSelected_absorbs.
Qed.

(** The layers a drag gesture leaves. *)
Lemma dragGesture_layers (s : State) (cx cy : Q) (layerId : string)
  (moves : list (Q * Q)) (mx my : Q) (first : ImageLayer) :
  draggingGuide s = None ->
  isResizing s = false ->
  alignModalOpen s = false ->
  layerId <> EmptyString ->
  find (fun l => String.eqb (id l) layerId) (layers s) = Some first ->
  layers (run (dragGesture cx cy layerId (moves ++ [(mx, my)])) s)
  = map (dragSelected (Point.mk (cx - x first) (cy - y first)) layerId mx my)
      (layers s).
Proof.
  intros Hg Hr Hm Hid Hfind. unfold dragGesture.
  rewrite run_cons. cbn [step]. unfold handleLayerMouseDown. rewrite Hm, Hfind.
  set (offset := Point.mk (cx - x first) (cy - y first)).
  set (st := setIsDragging true _).
  assert (Hst : dragging layerId offset st).
  { unfold dragging, st. cbn. repeat split; assumption. }
  unfold pointerMoves. rewrite map_app. fold (pointerMoves moves).
  rewrite run_app, run_app. cbn [map fst snd].
  rewrite !run_cons, !run_nil. cbn [step].
  rewrite layers_handleMouseUp.
  destruct (pointerMoves_drag_absorbed layerId offset moves st mx my Hid Hst)
    as [Hres Hmap].
  rewrite (handleMouseMove_dragging layerId offset _ mx my Hid Hres).
  cbn [layers setLayers]. rewrite Hmap. reflexivity.
Qed.

(** X6.  A drag gesture moves the pressed layer by the pointer's
    displacement between the press and the last move, whatever the
    moves in between: [x] and [y] grow by [mx - cx] and [my - cy], the
    size and every other field are kept, and the layers with another id
    are not touched.  A pointer that comes back to the place of the
    press leaves the layer where it was. *)
Theorem drag_moves_layer_by_pointer_delta
  (s : State) (cx cy : Q) (layerId : string) (moves : list (Q * Q)) (mx my : Q)
  (first : ImageLayer) :
  draggingGuide s = None ->
  isResizing s = false ->
  alignModalOpen s = false ->
  layerId <> EmptyString ->
  find (fun l => String.eqb (id l) layerId) (layers s) = Some first ->
  let after := layers (run (dragGesture cx cy layerId (moves ++ [(mx, my)])) s) in
  List.length after = List.length (layers s)
  /\ (forall (i : nat) (l : ImageLayer),
         nth_error (layers s) i = Some l -> id l <> layerId ->
         nth_error after i = Some l)
  /\ (forall i : nat,
         nth_error (layers s) i = Some first ->
         exists moved : ImageLayer,
           nth_error after i = Some moved
           /\ x moved == x first + (mx - cx)
           /\ y moved == y first + (my - cy)
           /\ width moved = width first /\ height moved = height first
           /\ nonGeometry moved = nonGeometry first
           /\ (mx == cx -> my == cy -> x moved == x first /\ y moved == y first)).
Proof.
  intros Hg Hr Hm Hid Hfind. cbv zeta.
  rewrite (dragGesture_layers s cx cy layerId moves mx my first Hg Hr Hm Hid Hfind).
  split; [apply length_map|].
  split.
  - intros i l Hi Hne. rewrite nth_error_map, Hi. cbn [option_map].
    unfold dragSelected.
    destruct (String.eqb_spec (id l) layerId); [contradiction | reflexivity].
  - intros i Hi. eexists. split.
    + rewrite nth_error_map, Hi. cbn [option_map]. unfold dragSelected.
      apply find_some in Hfind as [_ Hfid]. cbv beta in Hfid. rewrite Hfid.
      reflexivity.
    + cbn [x y width height withPosition nonGeometry Point.x Point.y id src
           aspectRatio visible refs].
      split; [ring|]. split; [ring|].
      split; [reflexivity|]. split; [reflexivity|]. split; [reflexivity|].
      intros Hx Hy. split; [rewrite Hx | rewrite Hy]; ring.
Qed.

Lemma drag_moves_layer_by_pointer_delta_witness :
  exists moved : ImageLayer,
    nth_error
      (layers (run (dragGesture 10 20 "1-1-b.png" ([(11, 25); (300, 7)] ++ [(40, 60)]))
                 Examples.pair)) 1
    = Some moved
    /\ x moved == x Examples.second + (40 - 10)
    /\ y moved == y Examples.second + (60 - 20)
    /\ width moved = width Examples.second
    /\ height moved = height Examples.second.
Proof.
  destruct (drag_moves_layer_by_pointer_delta Examples.pair 10 20 "1-1-b.png"
              [(11, 25); (300, 7)] 40 60 Examples.second)
    as (_ & _ & Hmoved).
  - reflexivity.
  - reflexivity.
  - reflexivity.
  - discriminate.
  - reflexivity.
  - destruct (Hmoved 1%nat eq_refl) as (moved & Hn & Hx & Hy & Hw & Hh & _).
    exists moved. repeat split; assumption.
Defined.

(** ** Resize: anchors and pointer moves *)

Lemma resizeLayer_anchor (start : ResizeStart.t) (h : Handle) (dx dy : Q)
  (l : ImageLayer) :
  let r := resizeLayer start h dx dy l in
  (if includes h "w"
   then x r + width r == ResizeStart.x start + ResizeStart.width start
   else x r = ResizeStart.x start)
  /\ (if includes h "n"
      then y r + height r == ResizeStart.y start + ResizeStart.height start
      else y r = ResizeStart.y start).
Proof.
  destruct h; cbv zeta; unfold resizeLayer;
    cbn [includes handle_name str_includes Ascii.eqb Bool.eqb orb
         String.length Nat.eqb withGeometry x y width height];
    split; try reflexivity; ring.
Qed.

(** X7.  A resize pivots on the side opposite to the handle.  For the
    pressed layer, a handle with [w] keeps the right edge [x + width]
    of the press and every other handle keeps the left edge [x]; a
    handle with [n] keeps the bottom edge [y + height] and every other
    handle keeps the top edge [y].  This holds for the corner handles
    too, after the height is re-derived from the aspect ratio. *)
Theorem resize_keeps_opposite_edges
  (s : State) (cx cy : Q) (layerId : string) (h : Handle)
  (moves : list (Q * Q)) (mx my : Q) (i : nat) (first : ImageLayer) :
  draggingGuide s = None ->
  layerId <> EmptyString ->
  find (fun l => String.eqb (id l) layerId) (layers s) = Some first ->
  nth_error (layers s) i = Some first ->
  exists resized : ImageLayer,
    nth_error (layers (run (resizeGesture cx cy layerId h (moves ++ [(mx, my)])) s)) i
    = Some resized
    /\ (if includes h "w"
        then x resized + width resized == x first + width first
        else x resized = x first)
    /\ (if includes h "n"
        then y resized + height resized == y first + height first
        else y resized = y first).
Proof.
  intros Hg Hne Hfind Hi.
  assert (Hid : id first = layerId).
  { apply find_some in Hfind as [_ Hf]. now apply String.eqb_eq in Hf. }
  eexists. split.
  - apply (resizeGesture_nth s cx cy layerId h moves mx my first first i); assumption.
  - apply (resizeLayer_anchor
             (ResizeStart.mk cx cy (width first) (height first) (x first) (y first))
             h (mx - cx) (my - cy) first).
Qed.

Lemma resize_keeps_opposite_edges_witness :
  exists resized : ImageLayer,
    nth_error
      (layers (run (resizeGesture 100 100 "1-0-ref.png" Hnw ([(90, 95)] ++ [(40, 300)]))
                 Examples.pair)) 0
    = Some resized
    /\ x resized + width resized == x Examples.refLayer + width Examples.refLayer
    /\ y resized + height resized == y Examples.refLayer + height Examples.refLayer.
Proof.
  apply (resize_keeps_opposite_edges Examples.pair 100 100 "1-0-ref.png" Hnw
           [(90, 95)] 40 300 0 Examples.refLayer).
  - reflexivity.
  - discriminate.
  - reflexivity.
  - reflexivity.
Defined.

(** X8.  Pointer moves do not accumulate: the layers at the end of a
    resize or drag gesture are those of the same gesture with its last
    move alone, because every move computes the geometry from the values
    captured at the press. *)
Theorem gesture_result_depends_on_last_move_only
  (s : State) (cx cy : Q) (layerId : string) (moves : list (Q * Q)) (mx my : Q)
  (first : ImageLayer) :
  draggingGuide s = None ->
  layerId <> EmptyString ->
  find (fun l => String.eqb (id l) layerId) (layers s) = Some first ->
  (forall h : Handle,
      layers (run (resizeGesture cx cy layerId h (moves ++ [(mx, my)])) s)
      = layers (run (resizeGesture cx cy layerId h [(mx, my)]) s))
  /\ (isResizing s = false -> alignModalOpen s = false ->
      layers (run (dragGesture cx cy layerId (moves ++ [(mx, my)])) s)
      = layers (run (dragGesture cx cy layerId [(mx, my)]) s)).
Proof.
  intros Hg Hne Hfind. split.
  - intro h.
    rewrite (resizeGesture_layers s cx cy layerId h moves mx my first Hg Hne Hfind).
    assert (H1 := resizeGesture_layers s cx cy layerId h [] mx my first Hg Hne Hfind).
    cbn [app] in H1. rewrite H1. reflexivity.
  - intros Hr Hm.
    rewrite (dragGesture_layers s cx cy layerId moves mx my first Hg Hr Hm Hne Hfind).
    assert (H1 := dragGesture_layers s cx cy layerId [] mx my first Hg Hr Hm Hne Hfind).
    cbn [app] in H1. rewrite H1. reflexivity.
Qed.

Lemma gesture_result_depends_on_last_move_only_witness :
  layers (run (resizeGesture 500 500 "1-1-b.png" Hse
                 ([(400, 450); (9, 9); (700, 20)] ++ [(520, 510)])) Examples.pair)
  = layers (run (resizeGesture 500 500 "1-1-b.png" Hse [(520, 510)]) Examples.pair)
  /\ layers (run (dragGesture 500 500 "1-1-b.png"
                    ([(400, 450); (9, 9); (700, 20)] ++ [(520, 510)])) Examples.pair)
     = layers (run (dragGesture 500 500 "1-1-b.png" [(520, 510)]) Examples.pair).
Proof.
  destruct (gesture_result_depends_on_last_move_only Examples.pair 500 500 "1-1-b.png"
              [(400, 450); (9, 9); (700, 20)] 520 510 Examples.second)
    as [Hresize Hdrag].
  - reflexivity.
  - discriminate.
  - reflexivity.
  - split; [apply (Hresize Hse) | apply Hdrag; reflexivity].
Defined.

(** ** Reachable states *)

(** Reading a cell of a state built by the setters. *)
Ltac cells :=
  cbn [layers selectedId alignModalOpen alignModalLayerIndex alignModalStep
       alignWarning guideLinesLocked draggingGuide canUndo isDragging isResizing
       resizeHandle dragOffset resizeStart historyRef pendingUndoStateRef
       setLayers setSelectedId setAlignModalOpen setAlignModalLayerIndex
       setAlignModalStep setAlignWarning setGuideLinesLocked setDraggingGuide
       setCanUndo setIsDragging setIsResizing setResizeHandle setDragOffset
       setResizeStart setHistoryRef setPendingUndoStateRef].

Lemma pushBounded_length_pos (h : list (list ImageLayer)) (st : list ImageLayer) :
  (0 <? List.length (pushBounded h st))%nat = true.
Proof.
  apply Nat.ltb_lt. assert (H := pushBounded_not_nil h st).
  destruct (pushBounded h st); [contradiction | simpl; lia].
Qed.

Lemma consistent_pushHistory (s : State) :
  consistent s -> consistent (pushHistory s).
Proof.
  intros [A B C D]. unfold pushHistory. split; cells; try assumption.
  now rewrite pushBounded_length_pos.
Qed.

Lemma consistent_setLayers (ls : list ImageLayer) (s : State) :
  consistent s -> consistent (setLayers ls s).
Proof. intros [A B C D]. split; assumption. Qed.

Lemma consistent_setSelectedId (v : option string) (s : State) :
  consistent s -> consistent (setSelectedId v s).
Proof. intros [A B C D]. split; assumption. Qed.

Lemma consistent_step (e : Event) (s : State) :
  consistent s -> consistent (step e s).
Proof.
  intro H. destruct e; cbn [step].
  - unfold addImages. destruct (filter _ files); [exact H|].
    now apply consistent_setLayers, consistent_pushHistory.
  - now apply consistent_setLayers.
  - unfold handleMoveLayer. destruct (_ || _); [exact H|].
    now apply consistent_setLayers, consistent_pushHistory.
  - unfold handleLayerDrop. destruct (_ || _); [exact H|].
    destruct (findIndex _ _); [| exact H].
    unfold handleLayerReorder. destruct (_ =? _)%nat; [exact H|].
    destruct (nth_error _ _);
      [apply consistent_setLayers|]; now apply consistent_pushHistory.
  - now apply consistent_setLayers, consistent_pushHistory.
  - unfold handleRemoveLayer. destruct (negb _); [exact H|].
    now apply consistent_setSelectedId, consistent_setLayers, consistent_pushHistory.
  - destruct H as [A B C D]. split; assumption.
  - unfold handleGuideMouseDown. destruct (guideLinesLocked s); [exact H|].
    destruct H as [A B C D]. split; assumption.
  - unfold handleLayerMouseDown. destruct onHandleOrGuide; [exact H|].
    destruct (alignModalOpen s); [exact H|].
    destruct (find _ _); [| now apply consistent_setSelectedId].
    destruct H as [A B C D]. split; cells; try assumption. reflexivity.
  - unfold handleResizeMouseDown.
    destruct (find _ _); [| now apply consistent_setSelectedId].
    destruct H as [A B C D]. split; cells; try assumption.
    + intros _. apply orb_true_r.
    + split; [discriminate | reflexivity].
  - destruct (handleMouseMove_only_layers clientX clientY s) as [ls ->].
    now apply consistent_setLayers.
  - unfold handleMouseUp. destruct H as [A B C D].
    destruct (isDragging s || isResizing s) eqn:Eg;
      [destruct (pendingUndoStateRef s) eqn:Ep|];
      split; cells; try assumption; try discriminate;
      try (now rewrite pushBounded_length_pos);
      try (intro Hc; now contradiction Hc);
      try (split; [discriminate | intro Hc; now contradiction Hc]).
  - now apply consistent_setSelectedId.
  - unfold handleLayerPanelSelect.
    destruct (find _ _); [| now apply consistent_setSelectedId].
    destruct H as [A B C D]. split; assumption.
  - unfold handleLayerClick. destruct (alignModalOpen s); [exact H|].
    now apply consistent_setSelectedId.
  - unfold handleAlignModalCanvasClick.
    destruct (alignModalOpen s); [| exact H].
    destruct (nth_error _ _); [| exact H].
    destruct H as [A B C D].
    destruct (Nat.ltb_spec (alignModalStep s) 4);
      [| destruct (_ <? _)%Z]; split; cells; try assumption; lia.
  - unfold handleAlignModalNext. destruct H as [A B C D].
    destruct (Nat.ltb_spec (alignModalStep s) 4);
      [| destruct (_ <? _)%Z]; split; cells; try assumption; lia.
  - unfold handleAlignModalPrev. destruct H as [A B C D].
    destruct (Nat.ltb_spec 0 (alignModalStep s));
      [| destruct (0 <? alignModalLayerIndex s)%nat];
      split; cells; try assumption; lia.
  - unfold handleAutoAlignClick. destruct (_ <? 1)%nat; [exact H|].
    destruct H as [A B C D]. split; cells; try assumption. lia.
  - destruct H as [A B C D]. split; assumption.
  - unfold runAutoAlign. destruct (_ <? 2)%nat; [exact H|].
    destruct (nth_error _ 0); [| exact H].
    assert (H1 : consistent (pushHistory (setAlignWarning None s))).
    { apply consistent_pushHistory. destruct H as [A B C D]. split; assumption. }
    destruct (List.concat _); destruct H1 as [A B C D]; split; assumption.
  - unfold undo. destruct (historyRef s) as [|a r] eqn:E; [exact H|].
    destruct H as [A B C D]. split; cells; try assumption. reflexivity.
Qed.

Lemma consistent_run (events : list Event) (s : State) :
  consistent s -> consistent (run events s).
Proof.
  revert s. induction events as [|e r IH]; intros s H; [exact H|].
  rewrite run_cons. apply IH. now apply consistent_step.
Qed.

Lemma consistent_initialState : consistent initialState.
Proof.
  split; cbn; try reflexivity.
  - intro H. now contradiction H.
  - split; [discriminate | intro H; now contradiction H].
  - lia.
Qed.

(** X9.  In every state the component can reach, the [canUndo] flag
    that enables the Undo button says whether the history holds a
    snapshot. *)
Theorem canUndo_reflects_history (events : list Event) :
  canUndo (run events initialState) = true
  <-> historyRef (run events initialState) <> [].
Proof.
  destruct (consistent_run events initialState consistent_initialState) as [A _ _ _].
  rewrite A. destruct (historyRef (run events initialState)); simpl.
  - split; [discriminate | intro H; now contradiction H].
  - split; [discriminate | reflexivity].
Qed.

(** X10.  A release ends every gesture.  After [handleMouseUp], in any
    state the component can reach, no drag, resize or guide drag is in
    progress, no resize handle is held and no snapshot is left pending;
    a pointer move that follows changes nothing. *)
Theorem release_returns_to_idle (events : list Event) (mx my : Q) :
  let released := handleMouseUp (run events initialState) in
  isDragging released = false
  /\ isResizing released = false
  /\ resizeHandle released = None
  /\ draggingGuide released = None
  /\ pendingUndoStateRef released = None
  /\ handleMouseMove mx my released = released.
Proof.
  cbv zeta.
  destruct (consistent_run events initialState consistent_initialState) as [_ B _ _].
  set (s := run events initialState) in *.
  assert (Hflags : isDragging (handleMouseUp s) = false
                   /\ isResizing (handleMouseUp s) = false
                   /\ resizeHandle (handleMouseUp s) = None
                   /\ draggingGuide (handleMouseUp s) = None)
    by (unfold handleMouseUp; repeat split).
  destruct Hflags as (H1 & H2 & H3 & H4).
  repeat split; try assumption.
  - unfold handleMouseUp.
    destruct (isDragging s || isResizing s) eqn:Eg.
    + destruct (pendingUndoStateRef s) eqn:Ep; cells; [reflexivity | exact Ep].
    + destruct (pendingUndoStateRef s) eqn:Ep; cells; [| exact Ep].
      assert (Hf : false = true) by (apply B; discriminate).
      discriminate Hf.
Qed.

(** X11.  The wizard step stays within 0..4 in every state the
    component can reach, so the step always names a field of the refs:
    a pick never falls past the end of [stepKeys]. *)
Theorem wizard_step_in_range (events : list Event) :
  (alignModalStep (run events initialState) <= 4)%nat
  /\ exists key : RefKey,
       nth_error stepKeys (alignModalStep (run events initialState)) = Some key.
Proof.
  destruct (consistent_run events initialState consistent_initialState) as [_ _ _ D].
  split; [exact D|].
  destruct (nth_error stepKeys (alignModalStep (run events initialState))) as [k|] eqn:E.
  - now exists k.
  - apply nth_error_None in E. simpl in E. lia.
Qed.

(** ** Undo, several levels *)






(** ** Layer order *)

Lemma list_set_middle {A : Type} (l1 l2 : list A) (a v : A) :
  list_set (List.length l1) v (l1 ++ a :: l2) = l1 ++ v :: l2.
Proof. induction l1 as [|b r IH]; simpl; [reflexivity | now rewrite IH]. Qed.

(** Two neighbours exchanged, in the list cut at their place. *)
Lemma swapAt_neighbours (l1 l2 : list ImageLayer) (a b : ImageLayer) :
  swapAt (List.length l1) (S (List.length l1)) (l1 ++ a :: b :: l2) = l1 ++ b :: a :: l2
  /\ swapAt (S (List.length l1)) (List.length l1) (l1 ++ a :: b :: l2) = l1 ++ b :: a :: l2.
Proof.
  assert (Ha : nth_error (l1 ++ a :: b :: l2) (List.length l1) = Some a).
  { rewrite nth_error_app2 by lia. now rewrite Nat.sub_diag. }
  assert (Hb : nth_error (l1 ++ a :: b :: l2) (S (List.length l1)) = Some b).
  { rewrite nth_error_app2 by lia.
    replace (S (List.length l1) - List.length l1)%nat with 1%nat by lia. reflexivity. }
  assert (Hlen : S (List.length l1) = List.length (l1 ++ [b])).
  { rewrite length_app. simpl. lia. }
  assert (Hlen' : S (List.length l1) = List.length (l1 ++ [a])).
  { rewrite length_app. simpl. lia. }
  unfold swapAt. rewrite Ha, Hb. split.
  - rewrite list_set_middle.
    change (l1 ++ b :: b :: l2) with (l1 ++ [b] ++ b :: l2).
    rewrite app_assoc, Hlen, list_set_middle, <- app_assoc. reflexivity.
  - replace (l1 ++ a :: b :: l2) with ((l1 ++ [a]) ++ b :: l2)
      by (rewrite <- app_assoc; reflexivity).
    rewrite Hlen', list_set_middle, <- app_assoc. cbn [app].
    apply list_set_middle.
Qed.

Lemma neighbours_split (l : list ImageLayer) (i : nat) (a b : ImageLayer) :
  nth_error l i = Some a -> nth_error l (S i) = Some b ->
  exists l1 l2, l = l1 ++ a :: b :: l2 /\ List.length l1 = i.
Proof.
  intros Ha Hb.
  destruct (nth_error_split l i Ha) as (l1 & l2 & Hl & Hlen).
  exists l1. subst l.
  rewrite nth_error_app2 in Hb by lia.
  replace (S i - List.length l1)%nat with 1%nat in Hb by lia.
  destruct l2 as [|b' l2]; [discriminate Hb|].
  injection Hb as ->. now exists l2.
Qed.

Lemma layers_handleMoveLayer_up (s : State) (i : nat) (l1 l2 : list ImageLayer)
  (a b : ImageLayer) :
  layers s = l1 ++ a :: b :: l2 -> List.length l1 = i ->
  layers (handleMoveLayer i up s) = l1 ++ b :: a :: l2
  /\ layers (handleMoveLayer (S i) down s) = l1 ++ b :: a :: l2.
Proof.
  intros Hl Hlen. unfold handleMoveLayer.
  assert (Hn : List.length (layers s) = (i + 2 + List.length l2)%nat).
  { rewrite Hl, length_app. simpl. lia. }
  split.
  - destruct (Z.ltb_spec (Z.of_nat i + 1) 0); [lia|].
    destruct (Z.leb_spec (Z.of_nat (List.length (layers s))) (Z.of_nat i + 1)); [lia|].
    cbn [orb layers setLayers pushHistory setCanUndo setHistoryRef].
    replace (Z.to_nat (Z.of_nat i + 1)) with (S i) by lia.
    rewrite Hl, <- Hlen. apply swapAt_neighbours.
  - destruct (Z.ltb_spec (Z.of_nat (S i) - 1) 0); [lia|].
    destruct (Z.leb_spec (Z.of_nat (List.length (layers s))) (Z.of_nat (S i) - 1)); [lia|].
    cbn [orb layers setLayers pushHistory setCanUndo setHistoryRef].
    replace (Z.to_nat (Z.of_nat (S i) - 1)) with i by lia.
    rewrite Hl, <- Hlen. apply swapAt_neighbours.
Qed.

(** X13.  Moving the layer at [i] up exchanges it with its neighbour at
    [i + 1] and touches no other position; it is the same reordering as
    moving the layer at [i + 1] down.  The layers are only permuted, and
    moving the layer back down restores the sequence. *)
Theorem moveLayer_swaps_neighbours (s : State) (i : nat) (a b : ImageLayer) :
  nth_error (layers s) i = Some a ->
  nth_error (layers s) (S i) = Some b ->
  let moved := layers (handleMoveLayer i up s) in
  nth_error moved i = Some b
  /\ nth_error moved (S i) = Some a
  /\ (forall j : nat, j <> i -> j <> S i ->
         nth_error moved j = nth_error (layers s) j)
  /\ moved = layers (handleMoveLayer (S i) down s)
  /\ Permutation moved (layers s)
  /\ layers (handleMoveLayer (S i) down (handleMoveLayer i up s)) = layers s.
Proof.
  intros Ha Hb. cbv zeta.
  destruct (neighbours_split (layers s) i a b Ha Hb) as (l1 & l2 & Hl & Hlen).
  destruct (layers_handleMoveLayer_up s i l1 l2 a b Hl Hlen) as [Hup Hdown].
  rewrite Hup, Hdown, Hl.
  split; [rewrite nth_error_app2 by lia; now replace (i - List.length l1)%nat with 0%nat by lia|].
  split; [rewrite nth_error_app2 by lia; now replace (S i - List.length l1)%nat with 1%nat by lia|].
  split.
  { intros j Hj1 Hj2.
    destruct (Nat.lt_ge_cases j (List.length l1)) as [Hlt | Hge].
    - now rewrite !nth_error_app1 by exact Hlt.
    - rewrite !nth_error_app2 by exact Hge.
      destruct (j - List.length l1)%nat as [|[|k]] eqn:E; [lia | lia | reflexivity]. }
  split; [reflexivity|].
  split; [apply Permutation_app_head, perm_swap|].
  destruct (layers_handleMoveLayer_up (handleMoveLayer i up s) i l1 l2 b a Hup Hlen)
    as [_ Hback].
  exact Hback.
Qed.

Lemma moveLayer_swaps_neighbours_witness :
  nth_error (layers (handleMoveLayer 1 up Examples.triple)) 1 = Some Examples.closeEyes
  /\ nth_error (layers (handleMoveLayer 1 up Examples.triple)) 2 = Some Examples.second
  /\ layers (handleMoveLayer 2 down (handleMoveLayer 1 up Examples.triple))
     = layers Examples.triple.
Proof.
  destruct (moveLayer_swaps_neighbours Examples.triple 1 Examples.second Examples.closeEyes)
    as (H1 & H2 & _ & _ & _ & H3); [reflexivity | reflexivity |].
  repeat split; assumption.
Defined.

Lemma findIndex_some {A : Type} (p : A -> bool) (l : list A) (i : nat) :
  findIndex p l = Some i ->
  exists a, nth_error l i = Some a /\ p a = true.
Proof.
  revert i. induction l as [|a r IH]; intros i H; simpl in H; [discriminate|].
  destruct (p a) eqn:E.
  - injection H as <-. now exists a.
  - destruct (findIndex p r) as [k|]; [| discriminate].
    injection H as <-. destruct (IH k eq_refl) as (b & Hb & Hp). now exists b.
Qed.

(** The splice of [handleLayerReorder] on the list alone. *)
Lemma reorder_splice (l : list ImageLayer) (fromIndex toIndex : nat)
  (removed : ImageLayer) :
  nth_error l fromIndex = Some removed ->
  (toIndex < List.length l)%nat ->
  let next := firstn fromIndex l ++ skipn (S fromIndex) l in
  let res := firstn toIndex next ++ removed :: skipn toIndex next in
  nth_error res toIndex = Some removed
  /\ firstn toIndex res ++ skipn (S toIndex) res = next
  /\ Permutation res l.
Proof.
  intros Hfrom Hto. cbv zeta.
  set (next := firstn fromIndex l ++ skipn (S fromIndex) l).
  assert (Hl : List.length next = (List.length l - 1)%nat).
  { assert (Hf : (fromIndex < List.length l)%nat)
      by (apply nth_error_Some; congruence).
    unfold next. rewrite length_app, length_firstn, length_skipn. lia. }
  assert (Hlf : List.length (firstn toIndex next) = toIndex)
    by (rewrite length_firstn; lia).
  split; [| split].
  - rewrite nth_error_app2 by lia. rewrite Hlf, Nat.sub_diag. reflexivity.
  - rewrite firstn_app, Hlf, Nat.sub_diag, firstn_firstn, Nat.min_id. cbn [firstn].
    rewrite app_nil_r.
    rewrite skipn_app, Hlf.
    replace (S toIndex - toIndex)%nat with 1%nat by lia.
    rewrite (skipn_all2 (firstn toIndex next)) by lia.
    cbn [skipn app]. apply firstn_skipn.
  - apply Permutation_trans with (removed :: next).
    + symmetry. rewrite <- (firstn_skipn toIndex next) at 1. apply Permutation_middle.
    + apply Permutation_trans
        with (firstn fromIndex l ++ removed :: skipn (S fromIndex) l).
      * unfold next. apply Permutation_middle.
      * rewrite (firstn_skipn_middle fromIndex l Hfrom). reflexivity.
Qed.

(** X14.  A drop in the layer panel puts the dragged layer at the
    position of the layer it is dropped on and keeps the order of all
    the others: the sequence without the target position afterwards is
    the sequence without the source position before.  The layers are
    only permuted.  The dragged layer is the first one carrying the
    dragged id. *)
Theorem layerDrop_moves_layer_to_target
  (s : State) (layerId : string) (targetIndex : nat) (target : ImageLayer) :
  layerId <> EmptyString ->
  nth_error (layers s) targetIndex = Some target ->
  id target <> layerId ->
  (exists l, In l (layers s) /\ id l = layerId) ->
  let after := layers (handleLayerDrop layerId targetIndex s) in
  exists (fromIndex : nat) (dragged : ImageLayer),
    findIndex (fun l => String.eqb (id l) layerId) (layers s) = Some fromIndex
    /\ nth_error (layers s) fromIndex = Some dragged
    /\ id dragged = layerId
    /\ nth_error after targetIndex = Some dragged
    /\ firstn targetIndex after ++ skipn (S targetIndex) after
       = firstn fromIndex (layers s) ++ skipn (S fromIndex) (layers s)
    /\ Permutation after (layers s).
Proof.
  intros Hne Htarget Hid (l0 & Hin & Hl0). cbv zeta.
  destruct (findIndex (fun l => String.eqb (id l) layerId) (layers s))
    as [fromIndex|] eqn:Ef.
  - destruct (findIndex_some _ _ _ Ef) as (dragged & Hfrom & Hp).
    apply String.eqb_eq in Hp.
    exists fromIndex, dragged.
    split; [reflexivity|]. split; [exact Hfrom|]. split; [exact Hp|].
    assert (Hft : fromIndex <> targetIndex).
    { intros ->. rewrite Htarget in Hfrom. injection Hfrom as ->. contradiction. }
    assert (Hlt : (targetIndex < List.length (layers s))%nat)
      by (apply nth_error_Some; congruence).
    assert (E : layers (handleLayerDrop layerId targetIndex s)
                = firstn targetIndex
                    (firstn fromIndex (layers s) ++ skipn (S fromIndex) (layers s))
                  ++ dragged
                  :: skipn targetIndex
                       (firstn fromIndex (layers s) ++ skipn (S fromIndex) (layers s))).
    { unfold handleLayerDrop. rewrite Htarget, Ef, (truthy_nonempty layerId Hne).
      destruct (String.eqb_spec layerId (id target)) as [E|_];
        [symmetry in E; contradiction|].
      cbn [negb orb]. unfold handleLayerReorder.
      destruct (Nat.eqb_spec fromIndex targetIndex); [contradiction|].
      cbn [layers pushHistory setCanUndo setHistoryRef]. rewrite Hfrom. reflexivity. }
    rewrite E. apply (reorder_splice (layers s) fromIndex targetIndex dragged Hfrom Hlt).
  - exfalso. clear - Ef Hin Hl0.
    induction (layers s) as [|a r IH]; [destruct Hin|].
    simpl in Ef. destruct (String.eqb_spec (id a) layerId) as [|Hn]; [discriminate Ef|].
    destruct (findIndex _ r); [discriminate Ef|].
    destruct Hin as [-> | Hin]; [contradiction | now apply IH].
Qed.

Lemma layerDrop_moves_layer_to_target_witness :
  exists (fromIndex : nat) (dragged : ImageLayer),
    findIndex (fun l => String.eqb (id l) "1-0-ref.png") (layers Examples.triple)
    = Some fromIndex
    /\ nth_error (layers Examples.triple) fromIndex = Some dragged
    /\ id dragged = "1-0-ref.png"%string
    /\ nth_error (layers (handleLayerDrop "1-0-ref.png" 2 Examples.triple)) 2
       = Some dragged
    /\ firstn 2 (layers (handleLayerDrop "1-0-ref.png" 2 Examples.triple))
       ++ skipn 3 (layers (handleLayerDrop "1-0-ref.png" 2 Examples.triple))
       = firstn fromIndex (layers Examples.triple)
         ++ skipn (S fromIndex) (layers Examples.triple)
    /\ Permutation (layers (handleLayerDrop "1-0-ref.png" 2 Examples.triple))
         (layers Examples.triple).
Proof.
  apply (layerDrop_moves_layer_to_target Examples.triple "1-0-ref.png" 2
           Examples.closeEyes).
  - discriminate.
  - reflexivity.
  - discriminate.
  - exists Examples.refLayer. split; [now left | reflexivity].
Defined.

(** ** Visibility and removal *)

(** X15.  The visibility toggle flips [visible] on the layers with the
    given id and writes nothing else; toggling the same id twice gives
    back the layer sequence. *)
Theorem toggleVisibility_flips_and_undoes_itself (s : State) (layerId : string) :
  let toggled := layers (handleToggleLayerVisibility layerId s) in
  (forall (i : nat) (l : ImageLayer),
      nth_error (layers s) i = Some l ->
      nth_error toggled i
      = Some (if String.eqb (id l) layerId then withVisible l (negb (visible l)) else l))
  /\ layers (handleToggleLayerVisibility layerId (handleToggleLayerVisibility layerId s))
     = layers s.
Proof.
  cbv zeta. unfold handleToggleLayerVisibility.
  cbn [layers pushHistory setCanUndo setHistoryRef setLayers].
  split.
  - intros i l Hi. rewrite nth_error_map, Hi. cbn [option_map].
    destruct (String.eqb (id l) layerId); [| reflexivity].
    destruct (visible l); reflexivity.
  - rewrite map_map. apply map_same. intro l.
    destruct (String.eqb (id l) layerId) eqn:E; [| now rewrite E].
    cbn [id withVisible]. rewrite E.
    destruct l as [i0 s0 x0 y0 w0 h0 a0 [|] r0]; reflexivity.
Qed.

(** X16.  Removing the selected layer leaves no layer with the selected
    id and clears the selection, so a second click on Remove does
    nothing.  When ids are unique and the selected layer is at position
    [i], the result is the sequence with exactly that position cut out. *)
Theorem removeLayer_cuts_selected (s : State) (layerId : string) :
  selectedId s = Some layerId ->
  layerId <> EmptyString ->
  let removed := handleRemoveLayer s in
  (forall l, In l (layers removed) -> id l <> layerId)
  /\ (forall l, In l (layers s) -> id l <> layerId -> In l (layers removed))
  /\ selectedId removed = None
  /\ handleRemoveLayer removed = removed
  /\ (forall (i : nat) (selected : ImageLayer),
         NoDup (map id (layers s)) ->
         nth_error (layers s) i = Some selected ->
         id selected = layerId ->
         layers removed = firstn i (layers s) ++ skipn (S i) (layers s)).
Proof.
  intros Hsel Hne. cbv zeta.
  assert (E : handleRemoveLayer s
              = setSelectedId None
                  (setLayers
                     (filter (fun l => negb (String.eqb (id l) layerId)) (layers s))
                     (pushHistory s))).
  { unfold handleRemoveLayer. rewrite Hsel, (truthy_nonempty layerId Hne).
    cbn [negb]. unfold idIs. reflexivity. }
  rewrite E. cells.
  split; [| split; [| split; [| split]]].
  - intros l Hl. apply filter_In in Hl as [_ Hl].
    apply negb_true_iff in Hl. intro Hc. rewrite Hc, String.eqb_refl in Hl. discriminate.
  - intros l Hl Hid. apply filter_In. split; [exact Hl|].
    apply negb_true_iff. now apply String.eqb_neq.
  - reflexivity.
  - reflexivity.
  - intros i selected Hnd Hi Hid.
    destruct (nth_error_split (layers s) i Hi) as (l1 & l2 & Hl & Hlen).
    rewrite Hl in Hnd |- *.
    rewrite map_app in Hnd. cbn [map] in Hnd.
    apply NoDup_remove in Hnd as [_ Hnotin].
    assert (Hkeep : forall l, In l (l1 ++ l2) -> negb (String.eqb (id l) layerId) = true).
    { intros l Hl'. apply negb_true_iff, String.eqb_neq. intro Hc.
      apply Hnotin. rewrite Hid, <- Hc, <- map_app. now apply in_map. }
    rewrite filter_app. cbn [filter]. rewrite Hid, String.eqb_refl. cbn [negb].
    rewrite <- filter_app.
    rewrite firstn_app, <- Hlen, Nat.sub_diag, firstn_all. cbn [firstn].
    rewrite app_nil_r.
    rewrite skipn_app, skipn_all2 by lia.
    replace (S (List.length l1) - List.length l1)%nat with 1%nat by lia.
    cbn [skipn app].
    clear - Hkeep. induction (l1 ++ l2) as [|a r IH]; [reflexivity|].
    cbn [filter]. rewrite (Hkeep a (or_introl eq_refl)). f_equal.
    apply IH. intros l Hl. apply Hkeep. now right.
Qed.

Lemma removeLayer_cuts_selected_witness :
  selectedId (handleRemoveLayer (setSelectedId (Some "1-1-b.png"%string) Examples.triple))
  = None
  /\ layers (handleRemoveLayer (setSelectedId (Some "1-1-b.png"%string) Examples.triple))
     = [Examples.refLayer; Examples.closeEyes].
Proof.
  destruct (removeLayer_cuts_selected
              (setSelectedId (Some "1-1-b.png"%string) Examples.triple) "1-1-b.png")
    as (_ & _ & Hsel & _ & Hcut); [reflexivity | discriminate |].
  split; [exact Hsel|].
  apply (Hcut 1%nat Examples.second).
  - repeat constructor; simpl; intuition discriminate.
  - reflexivity.
  - reflexivity.
Defined.

Lemma toggleVisibility_flips_and_undoes_itself_witness :
  nth_error (layers (handleToggleLayerVisibility "1-1-b.png" Examples.pair)) 1
  = Some (withVisible Examples.second false)
  /\ nth_error (layers (handleToggleLayerVisibility "1-1-b.png" Examples.pair)) 0
     = Some Examples.refLayer.
Proof.
  destruct (toggleVisibility_flips_and_undoes_itself Examples.pair "1-1-b.png")
    as [H _].
  split.
  - apply (H 1%nat Examples.second). reflexivity.
  - apply (H 0%nat Examples.refLayer). reflexivity.
Defined.

(** ** Adding images *)

Lemma allDigits_string_of_uint (d : Decimal.uint) :
  allDigits (NilEmpty.string_of_uint d) = true.
Proof. induction d; simpl; auto. Qed.

(** [digits ++ "-" ++ rest] is read back in one way only. *)
Lemma digits_dash_unique (d1 d2 r1 r2 : string) :
  allDigits d1 = true -> allDigits d2 = true ->
  (d1 ++ "-" ++ r1 = d2 ++ "-" ++ r2)%string ->
  d1 = d2 /\ r1 = r2.
Proof.
  revert d2. induction d1 as [|c1 d1 IH]; intros [|c2 d2] H1 H2 E; simpl in *.
  - injection E as ->. now split.
  - injection E as <- _. simpl in H2. discriminate H2.
  - injection E as -> _. simpl in H1. discriminate H1.
  - injection E as -> E.
    assert (H1' : allDigits d1 = true).
    { destruct (allDigits d1); [reflexivity|].
      destruct c2 as [[] [] [] [] [] [] [] []]; discriminate H1. }
    assert (H2' : allDigits d2 = true).
    { destruct (allDigits d2); [reflexivity|].
      destruct c2 as [[] [] [] [] [] [] [] []]; discriminate H2. }
    destruct (IH d2 H1' H2' E) as [-> ->]. now split.
Qed.

Lemma string_of_uint_injective (a b : Decimal.uint) :
  NilEmpty.string_of_uint a = NilEmpty.string_of_uint b -> a = b.
Proof.
  intro H. assert (E := NilEmpty.usu a). rewrite H, NilEmpty.usu in E.
  now injection E.
Qed.

Lemma string_of_nat_injective (a b : nat) :
  string_of_nat a = string_of_nat b -> a = b.
Proof.
  intro H. apply string_of_uint_injective in H.
  rewrite <- (DecimalNat.Unsigned.of_to a), <- (DecimalNat.Unsigned.of_to b).
  now rewrite H.
Qed.

Lemma string_of_N_injective (a b : N) :
  string_of_N a = string_of_N b -> a = b.
Proof.
  intro H. apply string_of_uint_injective in H.
  rewrite <- (DecimalN.Unsigned.of_to a), <- (DecimalN.Unsigned.of_to b).
  now rewrite H.
Qed.

Lemma newLayer_id_parts (url url' : File.t -> string) (now now' : N)
  (f f' : File.t) (i i' : nat) :
  id (newLayer url now f i) = id (newLayer url' now' f' i') ->
  now = now' /\ i = i' /\ File.name f = File.name f'.
Proof.
  cbn [id newLayer]. intro E.
  apply digits_dash_unique in E as [E1 E2];
    try apply allDigits_string_of_uint.
  apply digits_dash_unique in E2 as [E2 E3];
    try apply allDigits_string_of_uint.
  split; [now apply string_of_N_injective|].
  split; [now apply string_of_nat_injective | exact E3].
Qed.

Lemma mapi_from_ids_fresh (url : File.t -> string) (now : N) (files : list File.t)
  (k i : nat) (f : File.t) :
  (i < k)%nat ->
  ~ In (id (newLayer url now f i)) (map id (mapi_from k (newLayer url now) files)).
Proof.
  revert k. induction files as [|g r IH]; intros k Hlt; cbn [map mapi_from In];
    [tauto|].
  intros [E | Hin].
  - apply (newLayer_id_parts url url now now g f k i) in E as (_ & E & _). lia.
  - apply (IH (S k)); [lia | exact Hin].
Qed.

Lemma mapi_from_ids_NoDup (url : File.t -> string) (now : N) (files : list File.t)
  (k : nat) :
  NoDup (map id (mapi_from k (newLayer url now) files)).
Proof.
  revert k. induction files as [|g r IH]; intro k; cbn [map mapi_from]; constructor.
  - apply mapi_from_ids_fresh. lia.
  - apply IH.
Qed.

(** X17.  The id [addImages] gives a layer can be read back: two new
    layers have the same id only if they were made at the same
    [Date.now()], at the same index of their batch and from files of the
    same name.  So the layers of one batch have pairwise distinct ids,
    also when two files share a name. *)
Theorem addImages_ids_distinct (createObjectURL : File.t -> string) (now : N) :
  (forall (url' : File.t -> string) (now' : N) (f f' : File.t) (i i' : nat),
      id (newLayer createObjectURL now f i) = id (newLayer url' now' f' i') ->
      now = now' /\ i = i' /\ File.name f = File.name f')
  /\ (forall (files : list File.t) (s : State),
         exists added : list ImageLayer,
           layers (addImages createObjectURL now files s) = layers s ++ added
           /\ NoDup (map id added)).
Proof.
  split.
  - intros url' now' f f' i i'. apply newLayer_id_parts.
  - intros files s. unfold addImages.
    destruct (filter _ files) as [|f r] eqn:E.
    + exists []. rewrite app_nil_r. split; [reflexivity | constructor].
    + exists (mapi (newLayer createObjectURL now) (f :: r)).
      split; [reflexivity | apply mapi_from_ids_NoDup].
Qed.

Lemma addImages_ids_distinct_witness :
  exists added : list ImageLayer,
    layers (addImages Examples.objectURL 1
              [File.mk "a.png" "image/png"; File.mk "a.png" "image/png"]
              Examples.pair)
    = layers Examples.pair ++ added
    /\ NoDup (map id added).
Proof.
  destruct (addImages_ids_distinct Examples.objectURL 1) as [_ H].
  apply (H [File.mk "a.png" "image/png"; File.mk "a.png" "image/png"] Examples.pair).
Defined.

(** X18.  [addImages] appends: the layers already there stay first, in
    order and unchanged.  It adds one layer per file of an accepted
    type, in the order of the files, each with the object URL of its
    file as [src], 300 by 200, aspect ratio 1, visible and without refs,
    the [k]-th placed at [(100 + 40 k, 100 + 40 k)].  When no file is of
    an accepted type nothing is written, the history included. *)
Theorem addImages_appends_accepted_files
  (createObjectURL : File.t -> string) (now : N) (files : list File.t) (s : State) :
  let accepted :=
    filter (fun f => existsb (String.eqb (File.type f)) ACCEPTED_TYPES) files in
  let after := layers (addImages createObjectURL now files s) in
  firstn (List.length (layers s)) after = layers s
  /\ List.length after = (List.length (layers s) + List.length accepted)%nat
  /\ (forall (k : nat) (f : File.t),
         nth_error accepted k = Some f ->
         exists l : ImageLayer,
           nth_error after (List.length (layers s) + k) = Some l
           /\ src l = createObjectURL f
           /\ x l == 100 + 40 * inject_Z (Z.of_nat k)
           /\ y l == 100 + 40 * inject_Z (Z.of_nat k)
           /\ width l = 300 /\ height l = 200 /\ aspectRatio l = 1
           /\ visible l = true /\ refs l = None)
  /\ (accepted = [] -> addImages createObjectURL now files s = s).
Proof.
  cbv zeta. unfold addImages.
  destruct (filter _ files) as [|f r] eqn:E.
  - split; [apply firstn_all|]. split; [simpl; lia|].
    split; [intros k f Hk; destruct k; discriminate Hk | reflexivity].
  - cbn [layers setLayers pushHistory setCanUndo setHistoryRef].
    split; [rewrite firstn_app, Nat.sub_diag, firstn_all; cbn [firstn]; apply app_nil_r|].
    split; [rewrite length_app; unfold mapi; now rewrite length_mapi_from|].
    split; [| discriminate].
    intros k g Hk. eexists. split.
    + rewrite nth_error_app2 by lia.
      replace (List.length (layers s) + k - List.length (layers s))%nat with k by lia.
      rewrite nth_error_mapi, Hk. reflexivity.
    + cbn [src x y width height aspectRatio visible refs newLayer].
      repeat split; try reflexivity; ring.
Qed.

Lemma addImages_appends_accepted_files_witness :
  exists l : ImageLayer,
    nth_error
      (layers (addImages Examples.objectURL 1
                 [File.mk "notes.txt" "text/plain"; File.mk "a.png" "image/png";
                  File.mk "b.gif" "image/gif"]
                 Examples.pair)) (2 + 1)
    = Some l
    /\ src l = "blob:b.gif"%string
    /\ x l == 100 + 40 * 1.
Proof.
  destruct (addImages_appends_accepted_files Examples.objectURL 1
              [File.mk "notes.txt" "text/plain"; File.mk "a.png" "image/png";
               File.mk "b.gif" "image/gif"]
              Examples.pair) as (_ & _ & H & _).
  destruct (H 1%nat (File.mk "b.gif" "image/gif") eq_refl)
    as (l & Hn & Hs & Hx & _).
  exists l. repeat split; assumption.
Defined.

(** ** Decoded size and initial layout *)

(** A box with the aspect ratio of its image has no letterbox inset:
    image coordinates map linearly onto the box. *)
Lemma imageToCanvas_exact_fit (l : ImageLayer) (u v : Q) :
  0 < height l -> 0 < aspectRatio l ->
  width l == height l * aspectRatio l ->
  Point.x (imageToCanvas l u v) == x l + u * width l
  /\ Point.y (imageToCanvas l u v) == y l + v * height l.
Proof.
  intros Hh HR Hw.
  assert (Hh0 : ~ height l == 0) by (intro E; rewrite E in Hh; discriminate Hh).
  assert (HR0 : ~ aspectRatio l == 0) by (intro E; rewrite E in HR; discriminate HR).
  assert (Hbranch : Qltb (aspectRatio l) (width l / height l) = false).
  { apply Qltb_ge. rewrite Hw.
    assert (E : height l * aspectRatio l / height l == aspectRatio l) by (now field).
    rewrite E. apply Qle_refl. }
  unfold imageToCanvas. rewrite Hbranch. cbn [Point.x Point.y].
  split; [reflexivity|].
  rewrite Hw. now field.
Qed.

Lemma nth_error_imgOnload (layerId : string) (iw ih : Q) (rect : option Rect.t)
  (s : State) (i : nat) (l : ImageLayer) :
  nth_error (layers s) i = Some l ->
  nth_error (layers (imgOnload layerId iw ih rect s)) i
  = Some (if negb (String.eqb (id l) layerId) then l
          else mkLayer (id l) (src l)
                 match rect with
                 | Some r => (Rect.width r - height l * (iw / ih)) / 2
                 | None => x l
                 end
                 match rect with
                 | Some r => (Rect.height r - height l) / 2
                 | None => y l
                 end
                 (height l * (iw / ih)) (height l) (iw / ih) (visible l) (refs l)).
Proof.
  intro Hi. unfold imgOnload. cbn [layers setLayers].
  rewrite nth_error_map, Hi. reflexivity.
Qed.

(** X19.  When an image has decoded, its layer takes the aspect ratio
    [imgWidth / imgHeight], keeps its height and gets the width
    [height * aspectRatio]; it is centred in the canvas when the canvas
    rectangle is known and stays in place otherwise.  Id, src,
    visibility and refs are kept and the layers with another id are not
    touched, so the callback does nothing when the layer has been
    removed in the meantime.  For a positive height and image size the
    box then has exactly the shape of the image: [imageToCanvas] maps
    [(u, v)] to [(x + u * width, y + v * height)], with no letterbox
    inset. *)
Theorem imgOnload_fits_box_to_image
  (layerId : string) (imgWidth imgHeight : Q) (rect : option Rect.t) (s : State) :
  let after := layers (imgOnload layerId imgWidth imgHeight rect s) in
  (forall (i : nat) (l : ImageLayer),
      nth_error (layers s) i = Some l -> id l <> layerId ->
      nth_error after i = Some l)
  /\ ((forall l, In l (layers s) -> id l <> layerId) -> after = layers s)
  /\ (forall (i : nat) (l : ImageLayer),
         nth_error (layers s) i = Some l -> id l = layerId ->
         exists loaded : ImageLayer,
           nth_error after i = Some loaded
           /\ aspectRatio loaded = imgWidth / imgHeight
           /\ height loaded = height l
           /\ width loaded = height l * (imgWidth / imgHeight)
           /\ (id loaded, src loaded, visible loaded, refs loaded)
              = (id l, src l, visible l, refs l)
           /\ (forall r : Rect.t, rect = Some r ->
                 x loaded + width loaded / 2 == Rect.width r / 2
                 /\ y loaded + height loaded / 2 == Rect.height r / 2)
           /\ (rect = None -> x loaded = x l /\ y loaded = y l)
           /\ (0 < height l -> 0 < imgWidth -> 0 < imgHeight ->
               forall u v : Q,
                 Point.x (imageToCanvas loaded u v) == x loaded + u * width loaded
                 /\ Point.y (imageToCanvas loaded u v) == y loaded + v * height loaded)).
Proof.
  cbv zeta. split; [| split].
  - intros i l Hi Hne. rewrite (nth_error_imgOnload _ _ _ _ _ _ _ Hi).
    destruct (String.eqb_spec (id l) layerId); [contradiction | reflexivity].
  - intro Hall. unfold imgOnload. cbn [layers setLayers].
    induction (layers s) as [|a r IH]; [reflexivity|].
    cbn [map].
    destruct (String.eqb_spec (id a) layerId) as [E|_].
    + exfalso. exact (Hall a (or_introl eq_refl) E).
    + cbn [negb]. f_equal. apply IH. intros l Hl. apply Hall. now right.
  - intros i l Hi Hid. rewrite (nth_error_imgOnload _ _ _ _ _ _ _ Hi).
    rewrite Hid, String.eqb_refl. cbn [negb].
    eexists. split; [reflexivity|].
    cbn [id src x y width height aspectRatio visible refs].
    split; [reflexivity|]. split; [reflexivity|]. split; [reflexivity|].
    split; [reflexivity|].
    split; [intros r ->; split; unfold Qdiv; ring|].
    split; [intros ->; now split|].
    intros Hh Hiw Hih u v.
    refine (imageToCanvas_exact_fit (mkLayer _ _ _ _ _ _ _ _ _) u v _ _ _);
      cbn [id src x y width height aspectRatio visible refs].
    + exact Hh.
    + apply Qlt_shift_div_l; [exact Hih | now rewrite Qmult_0_l].
    + reflexivity.
Qed.

Lemma imgOnload_fits_box_to_image_witness :
  exists loaded : ImageLayer,
    nth_error
      (layers (imgOnload "1-1-b.png" 1200 800 (Some Examples.canvas) Examples.pair)) 1
    = Some loaded
    /\ aspectRatio loaded = 1200 / 800
    /\ x loaded + width loaded / 2 == Rect.width Examples.canvas / 2
    /\ Point.x (imageToCanvas loaded 1 1) == x loaded + 1 * width loaded.
Proof.
  destruct (imgOnload_fits_box_to_image "1-1-b.png" 1200 800 (Some Examples.canvas)
              Examples.pair) as (_ & _ & H).
  destruct (H 1%nat Examples.second eq_refl eq_refl)
    as (loaded & Hn & Ha & _ & _ & _ & Hc & _ & Hfit).
  exists loaded. split; [exact Hn|]. split; [exact Ha|].
  split; [apply (Hc Examples.canvas eq_refl)|].
  apply (Hfit eq_refl eq_refl eq_refl 1 1).
Defined.

(** X20.  The initial layout gives every layer 80% of the canvas
    height and the width of its aspect ratio, and centres it: all layers
    end with the same centre, the centre of the canvas, which is also
    where [imageToCanvas] puts their image point (0.5, 0.5).  Everything
    but the geometry is kept.  The layout does nothing while the canvas
    is not mounted or is narrower or lower than 10. *)
Theorem runLayout_centres_layers (rect : option Rect.t) (s : State) :
  (forall r : Rect.t,
      rect = Some r -> 10 <= Rect.width r -> 10 <= Rect.height r ->
      forall (i : nat) (l : ImageLayer),
        nth_error (layers s) i = Some l ->
        exists placed : ImageLayer,
          nth_error (layers (runLayout rect s)) i = Some placed
          /\ nonGeometry placed = nonGeometry l
          /\ height placed = Rect.height r * 0.8
          /\ width placed == height placed * aspectRatio l
          /\ x placed + width placed / 2 == Rect.width r / 2
          /\ y placed + height placed / 2 == Rect.height r / 2
          /\ Point.x (imageToCanvas placed 0.5 0.5) == Rect.width r / 2
          /\ Point.y (imageToCanvas placed 0.5 0.5) == Rect.height r / 2)
  /\ (rect = None
      \/ (exists r, rect = Some r /\ (Rect.width r < 10 \/ Rect.height r < 10)) ->
      runLayout rect s = s).
Proof.
  split.
  - intros r -> Hw Hh i l Hi. unfold runLayout.
    apply Qltb_ge in Hw, Hh. rewrite Hw, Hh. cbn [orb layers setLayers].
    eexists. split; [rewrite nth_error_map, Hi; reflexivity|].
    cbn [nonGeometry id src x y width height aspectRatio visible refs withGeometry].
    split; [reflexivity|].
    split; [reflexivity|].
    split; [reflexivity|].
    split; [unfold Qdiv; ring|]. split; [unfold Qdiv; ring|].
    unfold imageToCanvas.
    cbn [id src x y width height aspectRatio visible refs withGeometry].
    destruct (Qltb (aspectRatio l) _); cbn [Point.x Point.y];
      try set (imgH := _ / aspectRatio l); split; field.
  - intros [-> | (r & -> & Hsmall)]; [reflexivity|].
    unfold runLayout.
    destruct Hsmall as [H | H]; apply Qltb_lt in H; rewrite H;
      [| rewrite orb_true_r]; reflexivity.
Qed.

Lemma runLayout_centres_layers_witness :
  exists placed : ImageLayer,
    nth_error (layers (runLayout (Some Examples.canvas) Examples.pair)) 1 = Some placed
    /\ height placed = 800 * 0.8
    /\ x placed + width placed / 2 == 1000 / 2
    /\ y placed + height placed / 2 == 800 / 2.
Proof.
  destruct (runLayout_centres_layers (Some Examples.canvas) Examples.pair) as [H _].
  destruct (H Examples.canvas eq_refl) with (i := 1%nat) (l := Examples.second)
    as (placed & Hn & _ & Hh & _ & Hx & Hy & _).
  - discriminate.
  - discriminate.
  - reflexivity.
  - exists placed. repeat split; assumption.
Defined.

(** ** Alignment: what the solve reads and what it matches *)





Lemma nondegenerate_spans (layer : ImageLayer) :
  degenerate layer = false ->
  ~ eyeRightX (refsOf layer) - eyeLeftX (refsOf layer) == 0
  /\ ~ faceBottomY (refsOf layer) - bodyTopY (refsOf layer) == 0.
Proof.
  unfold degenerate, Math_abs. intro H. apply orb_false_iff in H as [A B].
  apply Qltb_ge in A, B.
  split; intro E;
    [rewrite E in A; apply (Qle_not_lt _ _ A) | rewrite E in B; apply (Qle_not_lt _ _ B)];
    reflexivity.
Qed.

(** X22.  The solved box carries the reference's spans:
    [width * (eyeRightX - eyeLeftX)] is the reference's eye span on the
    canvas and [height * (faceBottomY - bodyTopY)] its face span.  On
    the canvas only the axis that is not letterboxed shows it: when the
    solved box is wider than the image, the layer's face span equals the
    reference's and its eye span is that of the fitted image width;
    otherwise the layer's eye span equals the reference's. *)
Theorem runAutoAlign_matches_one_span
  (s : State) (refLayer layer : ImageLayer) (i : nat) :
  nth_error (layers s) 0 = Some refLayer ->
  nth_error (layers s) i = Some layer ->
  i <> 0%nat ->
  degenerate layer = false ->
  let rr := refsOf refLayer in
  let r := refsOf layer in
  let refEyeSpan :=
    Point.x (imageToCanvas refLayer (eyeRightX rr) (eyeRightY rr))
    - Point.x (imageToCanvas refLayer (eyeLeftX rr) (eyeLeftY rr)) in
  let refFaceSpan :=
    Point.y (imageToCanvas refLayer 0.5 (faceBottomY rr))
    - Point.y (imageToCanvas refLayer 0.5 (bodyTopY rr)) in
  exists updated : ImageLayer,
    nth_error (layers (runAutoAlign s)) i = Some updated
    /\ width updated * (eyeRightX r - eyeLeftX r) == refEyeSpan
    /\ height updated * (faceBottomY r - bodyTopY r) == refFaceSpan
    /\ (if Qltb (aspectRatio updated) (width updated / height updated)
        then
          Point.y (imageToCanvas updated 0.5 (faceBottomY r))
          - Point.y (imageToCanvas updated 0.5 (bodyTopY r)) == refFaceSpan
          /\ Point.x (imageToCanvas updated (eyeRightX r) (eyeRightY r))
             - Point.x (imageToCanvas updated (eyeLeftX r) (eyeLeftY r))
             == (eyeRightX r - eyeLeftX r) * (height updated * aspectRatio updated)
        else
          Point.x (imageToCanvas updated (eyeRightX r) (eyeRightY r))
          - Point.x (imageToCanvas updated (eyeLeftX r) (eyeLeftY r)) == refEyeSpan).
Proof.
  intros Href Hi Hne Hdeg.
  assert (Hlen : (2 <= List.length (layers s))%nat).
  { assert (i < List.length (layers s))%nat
      by (apply nth_error_Some; congruence). lia. }
  destruct (nondegenerate_spans layer Hdeg) as [Hdx Hdy].
  cbv zeta.
  eexists. split; [apply (nth_error_runAutoAlign s refLayer layer i Hlen Href Hi)|].
  rewrite (alignLayer_solved _ _ _ Hne Hdeg). cbv zeta.
  change (Point.x (imageToCanvas refLayer (eyeRightX _) _)
          - Point.x (imageToCanvas refLayer (eyeLeftX _) _))
    with (refEyeSpanX (refMetrics refLayer)).
  change (Point.y (imageToCanvas refLayer 0.5 (faceBottomY _))
          - Point.y (imageToCanvas refLayer 0.5 (bodyTopY _)))
    with (refBodyFaceSpanY (refMetrics refLayer)).
  generalize (refMetrics refLayer). intro m.
  set (dx := eyeRightX (refsOf layer) - eyeLeftX (refsOf layer)) in *.
  set (dy := faceBottomY (refsOf layer) - bodyTopY (refsOf layer)) in *.
  destruct (Qltb (aspectRatio layer) (refEyeSpanX m / dx / (refBodyFaceSpanY m / dy)))
    eqn:Hbranch;
    unfold imageToCanvas; cbn [width height aspectRatio x y withGeometry];
    rewrite Hbranch; cbn [Point.x Point.y].
  - split; [now field|]. split; [now field|].
    split; [unfold dy; now field | unfold dx; ring].
  - split; [now field|]. split; [now field|]. unfold dx. now field.
Qed.

Lemma runAutoAlign_matches_one_span_witness :
  exists updated : ImageLayer,
    nth_error (layers (runAutoAlign Examples.pair)) 1 = Some updated
    /\ width updated
       * (eyeRightX (refsOf Examples.second) - eyeLeftX (refsOf Examples.second))
       == Point.x (imageToCanvas Examples.refLayer
                     (eyeRightX (refsOf Examples.refLayer))
                     (eyeRightY (refsOf Examples.refLayer)))
          - Point.x (imageToCanvas Examples.refLayer
                       (eyeLeftX (refsOf Examples.refLayer))
                       (eyeLeftY (refsOf Examples.refLayer))).
Proof.
  destruct (runAutoAlign_matches_one_span Examples.pair Examples.refLayer
              Examples.second 1) as (updated & Hn & Hw & _);
    [reflexivity | reflexivity | discriminate | reflexivity |].
  exists updated. split; assumption.
Defined.

(** ** Wizard: a full pass over one layer, and navigation *)

(** One pick on the layer the wizard stands on. *)
Lemma wizard_pick_once (s : State) (c : Click) (l : ImageLayer) :
  alignModalOpen s = true ->
  nth_error (layers s) (alignModalLayerIndex s) = Some l ->
  let s' := step (wizardClick c) s in
  alignModalOpen s' = true
  /\ List.length (layers s') = List.length (layers s)
  /\ nth_error (layers s') (alignModalLayerIndex s)
     = Some (withRefs l
               (recordPick (nth_error stepKeys (alignModalStep s))
                  (pickX c) (pickY c) (refsOf l)))
  /\ wizardAt s'
     = if (alignModalStep s <? 4)%nat
       then (alignModalLayerIndex s, S (alignModalStep s))
       else if (S (alignModalLayerIndex s) <? List.length (layers s))%nat
            then (S (alignModalLayerIndex s), 0%nat)
            else (alignModalLayerIndex s, alignModalStep s).
Proof.
  intros Hopen Hl. cbv zeta. cbn [step wizardClick].
  assert (Hlay := layers_wizard_pick s (clickX c) (clickY c) (clickRect c) l Hopen Hl).
  split; [| split; [| split]].
  - unfold handleAlignModalCanvasClick. rewrite Hopen, Hl.
    destruct (_ <? 4)%nat; [| destruct (_ <? _)%Z]; cells; exact Hopen.
  - rewrite Hlay. apply length_map.
  - rewrite Hlay, nth_error_map, Hl. cbn [option_map].
    rewrite String.eqb_refl. cbn [negb]. now rewrite copyRefs_same.
  - unfold handleAlignModalCanvasClick, wizardAt. rewrite Hopen, Hl.
    destruct (alignModalStep s <? 4)%nat.
    + cells. now rewrite Nat.add_1_r.
    + destruct (Z.ltb_spec (Z.of_nat (alignModalLayerIndex s))
                  (Z.of_nat (List.length (layers s)) - 1));
        destruct (Nat.ltb_spec (S (alignModalLayerIndex s)) (List.length (layers s)));
        try lia; cells; [now rewrite Nat.add_1_r | reflexivity].
Qed.

Lemma withRefs_withRefs (l : ImageLayer) (r1 r2 : LayerRefs) :
  withRefs (withRefs l r1) r2 = withRefs l r2.
Proof. reflexivity. Qed.

(** X23.  A pass of five picks over a layer, from step 0, replaces
    every field of its refs: the heights of the first three picks
    become [bodyTopY], [faceBottomY], [bodyBottomY], the fourth pick
    the left eye and the fifth the right eye, each clamped to [0, 1],
    whatever refs the layer had.  Nothing else of the layer changes.
    The wizard then stands at step 0 of the next layer, or stays on step
    4 when the layer was the last. *)
Theorem wizard_five_picks_fill_refs
  (s : State) (l : ImageLayer) (c0 c1 c2 c3 c4 : Click) :
  alignModalOpen s = true ->
  alignModalStep s = 0%nat ->
  nth_error (layers s) (alignModalLayerIndex s) = Some l ->
  let done := run (map wizardClick [c0; c1; c2; c3; c4]) s in
  exists marked : ImageLayer,
    nth_error (layers done) (alignModalLayerIndex s) = Some marked
    /\ refs marked
       = Some (mkRefs (pickY c0) (pickY c1) (pickY c2)
                 (pickX c3) (pickY c3) (pickX c4) (pickY c4))
    /\ exceptRefs marked = exceptRefs l
    /\ alignModalOpen done = true
    /\ wizardAt done
       = if (S (alignModalLayerIndex s) <? List.length (layers s))%nat
         then (S (alignModalLayerIndex s), 0%nat)
         else (alignModalLayerIndex s, 4%nat).
Proof.
  intros Hopen Hstep Hl. cbv zeta. cbn [map]. rewrite !run_cons, run_nil.
  set (i := alignModalLayerIndex s) in *.
  destruct (wizard_pick_once s c0 l Hopen Hl) as (O1 & N1 & L1 & A1).
  fold i in L1, A1. rewrite Hstep in L1, A1. cbn [Nat.ltb Nat.leb] in A1.
  set (s1 := step (wizardClick c0) s) in *.
  injection A1 as I1 S1. rewrite <- I1 in L1.
  destruct (wizard_pick_once s1 c1 _ O1 L1) as (O2 & N2 & L2 & A2).
  rewrite S1 in L2, A2. cbn [Nat.ltb Nat.leb] in A2.
  set (s2 := step (wizardClick c1) s1) in *.
  rewrite I1 in L2, A2. injection A2 as I2 S2. rewrite <- I2 in L2.
  destruct (wizard_pick_once s2 c2 _ O2 L2) as (O3 & N3 & L3 & A3).
  rewrite S2 in L3, A3. cbn [Nat.ltb Nat.leb] in A3.
  set (s3 := step (wizardClick c2) s2) in *.
  rewrite I2 in L3, A3. injection A3 as I3 S3. rewrite <- I3 in L3.
  destruct (wizard_pick_once s3 c3 _ O3 L3) as (O4 & N4 & L4 & A4).
  rewrite S3 in L4, A4. cbn [Nat.ltb Nat.leb] in A4.
  set (s4 := step (wizardClick c3) s3) in *.
  rewrite I3 in L4, A4. injection A4 as I4 S4. rewrite <- I4 in L4.
  destruct (wizard_pick_once s4 c4 _ O4 L4) as (O5 & N5 & L5 & A5).
  rewrite S4 in L5, A5. cbn [Nat.ltb Nat.leb] in A5.
  set (s5 := step (wizardClick c4) s4) in *.
  rewrite I4 in L5, A5.
  eexists. split; [exact L5|].
  split.
  { cbn [refs withRefs refsOf]. rewrite !recordPick_step. reflexivity. }
  split; [reflexivity|].
  split; [exact O5|].
  rewrite A5, N4, N3, N2, N1. reflexivity.
Qed.

Lemma wizard_five_picks_fill_refs_witness :
  exists marked : ImageLayer,
    nth_error
      (layers (run (map wizardClick
                      [mkClick 50 20 Examples.canvas; mkClick 50 400 Examples.canvas;
                       mkClick 50 900 Examples.canvas; mkClick 300 350 Examples.canvas;
                       mkClick 700 350 Examples.canvas])
                 Examples.wizardOnPair)) 0
    = Some marked
    /\ refs marked
       = Some (mkRefs (pickY (mkClick 50 20 Examples.canvas))
                 (pickY (mkClick 50 400 Examples.canvas))
                 (pickY (mkClick 50 900 Examples.canvas))
                 (pickX (mkClick 300 350 Examples.canvas))
                 (pickY (mkClick 300 350 Examples.canvas))
                 (pickX (mkClick 700 350 Examples.canvas))
                 (pickY (mkClick 700 350 Examples.canvas))).
Proof.
  destruct (wizard_five_picks_fill_refs Examples.wizardOnPair Examples.refLayer
              (mkClick 50 20 Examples.canvas) (mkClick 50 400 Examples.canvas)
              (mkClick 50 900 Examples.canvas) (mkClick 300 350 Examples.canvas)
              (mkClick 700 350 Examples.canvas))
    as (marked & Hn & Hr & _); [reflexivity | reflexivity | reflexivity |].
  exists marked. split; assumption.
Defined.

(** X24.  Next and Prev walk the same path in opposite directions.
    With the step within 0..4: where Next moves, Prev brings the state
    back, and where Prev moves from a position on the layers, Next
    brings it back.  Next does nothing on step 4 of the last layer and
    Prev nothing on step 0 of the first.  Next keeps the index on the
    layers, and a pick advances exactly as Next does. *)
Theorem wizard_next_prev_inverse (s : State) :
  (alignModalStep s <= 4)%nat ->
  ((alignModalStep s < 4)%nat
   \/ (S (alignModalLayerIndex s) < List.length (layers s))%nat ->
   handleAlignModalPrev (handleAlignModalNext s) = s)
  /\ ((0 < alignModalStep s)%nat
      \/ ((0 < alignModalLayerIndex s)%nat
          /\ (alignModalLayerIndex s < List.length (layers s))%nat) ->
      handleAlignModalNext (handleAlignModalPrev s) = s)
  /\ (alignModalStep s = 4%nat ->
      (List.length (layers s) <= S (alignModalLayerIndex s))%nat ->
      handleAlignModalNext s = s)
  /\ (alignModalStep s = 0%nat -> alignModalLayerIndex s = 0%nat ->
      handleAlignModalPrev s = s)
  /\ ((alignModalLayerIndex s < List.length (layers s))%nat ->
      (alignModalLayerIndex (handleAlignModalNext s) < List.length (layers s))%nat)
  /\ (forall (c : Click) (l : ImageLayer),
         alignModalOpen s = true ->
         nth_error (layers s) (alignModalLayerIndex s) = Some l ->
         wizardAt (step (wizardClick c) s) = wizardAt (handleAlignModalNext s)).
Proof.
  destruct s as [ls sel op idx stp w gl dg cu isd isr rh dof rs h p]. cells.
  intro Hstep.
  split; [| split; [| split; [| split; [| split]]]].
  - intros Hmove. unfold handleAlignModalNext. cells.
    destruct (Nat.ltb_spec stp 4) as [H4 | H4].
    + unfold handleAlignModalPrev. cells.
      destruct (Nat.ltb_spec 0 (stp + 1)); [| lia].
      unfold setAlignModalStep. cells.
      replace (stp + 1 - 1)%nat with stp by lia. reflexivity.
    + destruct (Z.ltb_spec (Z.of_nat idx) (Z.of_nat (List.length ls) - 1)) as [Hi | Hi];
        [| destruct Hmove; lia].
      unfold handleAlignModalPrev. cells.
      change (0 <? 0)%nat with false. cbv iota.
      destruct (Nat.ltb_spec 0 (idx + 1)); [| lia].
      unfold setAlignModalStep, setAlignModalLayerIndex. cells.
      replace (idx + 1 - 1)%nat with idx by lia.
      replace stp with 4%nat by lia. reflexivity.
  - intros Hmove. unfold handleAlignModalPrev. cells.
    destruct (Nat.ltb_spec 0 stp) as [H0 | H0].
    + unfold handleAlignModalNext. cells.
      destruct (Nat.ltb_spec (stp - 1) 4); [| lia].
      unfold setAlignModalStep. cells.
      replace (stp - 1 + 1)%nat with stp by lia. reflexivity.
    + destruct Hmove as [Hm | [Hm1 Hm2]]; [lia|].
      destruct (Nat.ltb_spec 0 idx); [| lia].
      unfold handleAlignModalNext. cells.
      change (4 <? 4)%nat with false. cbv iota.
      destruct (Z.ltb_spec (Z.of_nat (idx - 1)) (Z.of_nat (List.length ls) - 1)); [| lia].
      unfold setAlignModalStep, setAlignModalLayerIndex. cells.
      replace (idx - 1 + 1)%nat with idx by lia.
      replace stp with 0%nat by lia. reflexivity.
  - intros H4 Hlast. unfold handleAlignModalNext. cells. rewrite H4.
    change (4 <? 4)%nat with false. cbv iota.
    destruct (Z.ltb_spec (Z.of_nat idx) (Z.of_nat (List.length ls) - 1));
      [lia | reflexivity].
  - intros H0 Hi. unfold handleAlignModalPrev. cells. now rewrite H0, Hi.
  - intro Hi. unfold handleAlignModalNext. cells.
    destruct (_ <? 4)%nat; [exact Hi|].
    destruct (Z.ltb_spec (Z.of_nat idx) (Z.of_nat (List.length ls) - 1)); cells; lia.
  - intros c l Hopen Hl. cbn [step wizardClick].
    unfold handleAlignModalCanvasClick, handleAlignModalNext, wizardAt. cells.
    rewrite Hopen, Hl.
    destruct (_ <? 4)%nat; [reflexivity|].
    destruct (_ <? _)%Z; reflexivity.
Qed.

Lemma wizard_next_prev_inverse_witness :
  handleAlignModalPrev (handleAlignModalNext Examples.wizardOnPair)
  = Examples.wizardOnPair
  /\ handleAlignModalNext
       (setAlignModalStep 4 (setAlignModalLayerIndex 1 Examples.wizardOnPair))
     = setAlignModalStep 4 (setAlignModalLayerIndex 1 Examples.wizardOnPair).
Proof.
  split.
  - destruct (wizard_next_prev_inverse Examples.wizardOnPair) as (H & _).
    + simpl. lia.
    + apply H. left. simpl. lia.
  - destruct (wizard_next_prev_inverse
                (setAlignModalStep 4 (setAlignModalLayerIndex 1 Examples.wizardOnPair)))
      as (_ & _ & H & _).
    + simpl. lia.
    + apply H; [reflexivity | simpl; lia].
Defined.

(** ** The bottom of the history, the wizard and drags, the floor *)






(** X26.  While the wizard is open the layers cannot be dragged: a
    press on a layer body, any pointer moves and the release leave the
    layers, the selection and the history as they were, when no gesture
    was already in progress. *)
Theorem wizard_blocks_drag
  (s : State) (cx cy : Q) (layerId : string) (moves : list (Q * Q)) :
  alignModalOpen s = true ->
  isDragging s = false ->
  isResizing s = false ->
  let after := run (dragGesture cx cy layerId moves) s in
  layers after = layers s
  /\ selectedId after = selectedId s
  /\ historyRef after = historyRef s.
Proof.
  intros Hopen Hd Hr. cbv zeta. unfold dragGesture.
  rewrite run_cons. cbn [step]. unfold handleLayerMouseDown. rewrite Hopen.
  assert (Hmoves : run (pointerMoves moves) s = s).
  { induction moves as [|[mx my] r IH]; [reflexivity|].
    change (run (pointerMoves ((mx, my) :: r)) s)
      with (run (pointerMoves r) (handleMouseMove mx my s)).
    assert (E : handleMouseMove mx my s = s).
    { unfold handleMouseMove. rewrite Hd, Hr.
      destruct (draggingGuide s); [reflexivity|].
      cbn [andb]. destruct (resizeHandle s); reflexivity. }
    rewrite E. exact IH. }
  rewrite run_app, Hmoves, run_cons, run_nil. cbn [step].
  unfold handleMouseUp. rewrite Hd, Hr. cbn [orb]. cells. repeat split.
Qed.

Lemma wizard_blocks_drag_witness :
  layers (run (dragGesture 150 150 "1-0-ref.png" [(400, 300); (20, 80)])
            Examples.wizardOnPair)
  = layers Examples.wizardOnPair
  /\ selectedId (run (dragGesture 150 150 "1-0-ref.png" [(400, 300); (20, 80)])
                   Examples.wizardOnPair)
     = selectedId Examples.wizardOnPair
  /\ historyRef (run (dragGesture 150 150 "1-0-ref.png" [(400, 300); (20, 80)])
                   Examples.wizardOnPair)
     = historyRef Examples.wizardOnPair.
Proof.
  apply (wizard_blocks_drag Examples.wizardOnPair 150 150 "1-0-ref.png"
           [(400, 300); (20, 80)]); reflexivity.
Defined.

Lemma Math_max_floor (v : Q) :
  (50 <= v -> Math_max 50 v == v) /\ (v <= 50 -> Math_max 50 v == 50).
Proof.
  unfold Math_max. split; intro H; [now apply Q.max_r | now apply Q.max_l].
Qed.

(** X27.  Above the floor the dragged edge follows the pointer.  After
    a resize of the pressed layer with the pointer displaced by
    [(dx, dy)]: the width is the width of the press plus [dx] for a
    handle with [e] and minus [dx] for a handle with [w]; on the edge
    handles [s] and [n] the height is the height of the press plus,
    respectively minus, [dy] -- as long as that value is at least 50.
    Below it the dimension is held at 50. *)
Theorem resize_follows_pointer_above_floor
  (s : State) (cx cy : Q) (layerId : string) (h : Handle)
  (moves : list (Q * Q)) (mx my : Q) (i : nat) (first : ImageLayer) :
  draggingGuide s = None ->
  layerId <> EmptyString ->
  find (fun l => String.eqb (id l) layerId) (layers s) = Some first ->
  nth_error (layers s) i = Some first ->
  exists resized : ImageLayer,
    nth_error (layers (run (resizeGesture cx cy layerId h (moves ++ [(mx, my)])) s)) i
    = Some resized
    /\ (forall target : Q,
           (includes h "w" = true /\ target == width first - (mx - cx))
           \/ (includes h "w" = false /\ includes h "e" = true
               /\ target == width first + (mx - cx)) ->
           (50 <= target -> width resized == target)
           /\ (target <= 50 -> width resized == 50))
    /\ (forall target : Q,
           (h = Hn /\ target == height first - (my - cy))
           \/ (h = Hs /\ target == height first + (my - cy)) ->
           (50 <= target -> height resized == target)
           /\ (target <= 50 -> height resized == 50)).
Proof.
  intros Hg Hne Hfind Hi.
  assert (Hid : id first = layerId).
  { apply find_some in Hfind as [_ Hf]. now apply String.eqb_eq in Hf. }
  eexists. split.
  { apply (resizeGesture_nth s cx cy layerId h moves mx my first first i); assumption. }
  split.
  - intros target [[Hw Ht] | (Hw & He & Ht)];
      rewrite Ht; destruct h; try discriminate Hw; try discriminate He;
      cbn [resizeLayer includes handle_name str_includes Ascii.eqb Bool.eqb orb
           String.length Nat.eqb withGeometry width
           ResizeStart.width ResizeStart.height ResizeStart.x ResizeStart.y];
      apply Math_max_floor.
  - intros target [[-> Ht] | [-> Ht]]; rewrite Ht;
      cbn [resizeLayer includes handle_name str_includes Ascii.eqb Bool.eqb orb
           String.length Nat.eqb withGeometry height
           ResizeStart.width ResizeStart.height ResizeStart.x ResizeStart.y];
      apply Math_max_floor.
Qed.

Lemma resize_follows_pointer_above_floor_witness :
  exists resized : ImageLayer,
    nth_error
      (layers (run (resizeGesture 400 150 "1-0-ref.png" He ([(405, 100)] ++ [(460, 155)]))
                 Examples.pair)) 0
    = Some resized
    /\ width resized == 300 + (460 - 400).
Proof.
  destruct (resize_follows_pointer_above_floor Examples.pair 400 150 "1-0-ref.png" He
              [(405, 100)] 460 155 0 Examples.refLayer)
    as (resized & Hn & Hw & _);
    [reflexivity | discriminate | reflexivity | reflexivity |].
  exists resized. split; [exact Hn|].
  apply (Hw (300 + (460 - 400))).
  - right. repeat split; reflexivity.
  - discriminate.
Defined.
